(** * Family Stories: the access rules of the API routes

    A shallow embedding of the route handlers under [src/app/api] and of the
    tables of [lib/db/schema.ts], with the properties that the design
    document states about them.

    Conventions of the embedding.
    - An id is the text in which the store spells a uuid ([string]). An id
      in a request stands for the id that the store reads in it; where a
      handler compares the text of the request itself (the removal of a
      contributor), the request carries the text as sent and [uuidOf] is
      the id that the store reads in it.
    - A JSON value is a [JsVal]; numbers are the integers (the only numeric
      column, [media.size], is an integer column).
    - A handler runs in the monad [M]: it threads the tables and may raise.
      Every awaited store statement either raises, leaving the tables as
      they were, or takes effect; which of the two is read from the
      environment ([fault]), so that a lost connection or a violated
      constraint is an input of the model.  The uuid and the timestamp
      that the store draws for a new row are inputs too ([uuid], [clock]).
    - The [try]/[catch] of a handler turns a raise into the 500 answer.
    - A request is answered on its own: the statements of two requests do
      not interleave.
    - Texts are [string]s and their length is the number of their
      characters; [trim] and [toLowerCase] act on the ASCII range.
    - A listing with [orderBy] is sorted by a stable insertion; the store
      promises no order among rows with equal keys, and no property below
      depends on one.
    - [parseInt] yields an integer or no number; it is exact below 2^53.
    - The pages and the sign-in providers other than the demo credentials
      are not embedded; none of them writes to a table other than the
      users'. *)

From Stdlib Require Import String Ascii List ZArith Bool Arith Lia Permutation.
Import ListNotations.
Local Open Scope string_scope.
Local Open Scope list_scope.

(** ** JSON values and the JavaScript operators the handlers use *)

Definition Id := string.
Definition Timestamp := Z.

#[local] Unset Elimination Schemes.
Inductive JsVal : Type :=
| JUndefined
| JNull
| JBool (b : bool)
| JNum (n : Z)
| JStr (s : string)
| JArr (items : list JsVal)
| JObj (fields : list (string * JsVal)).
#[local] Set Elimination Schemes.

(** [!!v] of JavaScript. *)
Definition truthy (v : JsVal) : bool :=
  match v with
  | JUndefined | JNull => false
  | JBool b => b
  | JNum n => negb (n =? 0)%Z
  | JStr s => negb (s =? "")
  | JArr _ | JObj _ => true
  end.

(** The binding of a key in a parsed object: [JSON.parse] keeps the last
    binding of a repeated key. *)
Fixpoint assocLast (k : string) (fields : list (string * JsVal)) : option JsVal :=
  match fields with
  | [] => None
  | (k', v) :: rest =>
      match assocLast k rest with
      | Some v' => Some v'
      | None => if k' =? k then Some v else None
      end
  end.

(** [const { k } = v]: [None] is the TypeError raised on null and undefined. *)
Definition prop (k : string) (v : JsVal) : option JsVal :=
  match v with
  | JUndefined | JNull => None
  | JObj fields =>
      Some match assocLast k fields with Some x => x | None => JUndefined end
  | _ => Some JUndefined
  end.

Definition isSpace (c : ascii) : bool :=
  let n := nat_of_ascii c in
  (n =? 32)%nat || ((9 <=? n)%nat && (n <=? 13)%nat).

Fixpoint trimStart (s : string) : string :=
  match s with
  | String c rest => if isSpace c then trimStart rest else s
  | EmptyString => EmptyString
  end.

Fixpoint trimEnd (s : string) : string :=
  match s with
  | String c rest =>
      match trimEnd rest with
      | EmptyString => if isSpace c then EmptyString else String c EmptyString
      | t => String c t
      end
  | EmptyString => EmptyString
  end.

(** [s.trim()]. *)
Definition trim (s : string) : string := trimEnd (trimStart s).

Definition lowerChar (c : ascii) : ascii :=
  let n := nat_of_ascii c in
  if ((65 <=? n)%nat && (n <=? 90)%nat) then ascii_of_nat (n + 32) else c.

(** [s.toLowerCase()]. *)
Fixpoint toLowerCase (s : string) : string :=
  match s with
  | String c rest => String (lowerChar c) (toLowerCase rest)
  | EmptyString => EmptyString
  end.

(** [s.includes(c)] for a one-character needle. *)
Fixpoint includesChar (c : ascii) (s : string) : bool :=
  match s with
  | String c' rest => Ascii.eqb c' c || includesChar c rest
  | EmptyString => false
  end.

(** [x?.trim() || null] as the handlers write it for optional texts:
    [None] is the TypeError of calling [trim] on a value that has none;
    [Some None] is [null]. *)
Definition trimOrNull (v : JsVal) : option (option string) :=
  match v with
  | JUndefined | JNull => Some None
  | JStr s => Some (if trim s =? "" then None else Some (trim s))
  | _ => None
  end.

(** [!x || typeof x !== 'string' || x.trim().length === 0]. *)
Definition blankText (v : JsVal) : bool :=
  negb (truthy v) ||
  match v with
  | JStr s => (String.length (trim s) =? 0)%nat
  | _ => true
  end.

(** ** The tables of [lib/db/schema.ts] *)

Module User.
Record t := mk {
    id : Id; email : string; name : string; image : option string;
    emailVerified : option Timestamp;
    createdAt : Timestamp; updatedAt : Timestamp }.
End User.

Module Family.
Record t := mk {
    id : Id; name : string; description : option string;
    createdById : Id; settings : JsVal;
    createdAt : Timestamp; updatedAt : Timestamp }.
End Family.

Inductive MemberRole := admin | member.

Module FamilyMember.
Record t := mk {
    id : Id; familyId : Id; userId : Id; role : MemberRole;
    joinedAt : Timestamp }.
End FamilyMember.

Module Event.
Record t := mk {
    id : Id; title : string; description : option string;
    date : Timestamp; location : option string;
    familyId : Id; createdById : Id;
    eventType : JsVal; tags : JsVal; isPublic : bool;
    createdAt : Timestamp; updatedAt : Timestamp }.
End Event.

Module Media.
Record t := mk {
    id : Id; eventId : Id; uploadedById : Id;
    filename : string; originalName : string; mimeType : string;
    size : Z; url : option string; altText : option string;
    isPublic : bool; createdAt : Timestamp }.
End Media.

Module Comment.
Record t := mk {
    id : Id; eventId : Id; authorId : Id; content : string;
    parentId : option Id; isEdited : bool;
    createdAt : Timestamp; updatedAt : Timestamp }.
End Comment.

Inductive ContributorRole := owner | editor | viewer.

Module EventContributor.
Record t := mk {
    id : Id; eventId : Id; userId : Id; role : ContributorRole;
    addedById : Id; canEdit : bool; canDelete : bool; canInvite : bool;
    createdAt : Timestamp }.
End EventContributor.

Inductive NotificationType :=
| comment | media_upload | event_update | invitation | system.

Module Notification.
Record t := mk {
    id : Id; userId : Id; type : NotificationType;
    title : string; message : string;
    referenceId : option Id; referenceType : option string;
    isRead : bool; createdAt : Timestamp; updatedAt : Timestamp }.
End Notification.

Module EventPrivacy.
Record t := mk {
    id : Id; eventId : Id; userId : Id;
    canView : bool; canEdit : bool; canComment : bool; canUploadMedia : bool;
    createdAt : Timestamp }.
End EventPrivacy.

Record Db := mkDb {
  users : list User.t;
  families : list Family.t;
  familyMembers : list FamilyMember.t;
  events : list Event.t;
  media : list Media.t;
  comments : list Comment.t;
  eventContributors : list EventContributor.t;
  notifications : list Notification.t;
  eventPrivacy : list EventPrivacy.t }.

Definition emptyDb : Db := mkDb [] [] [] [] [] [] [] [] [].

(** ** Answers *)

(** What a handler hands to [NextResponse.json]. A row that the handler takes
    from the result of a statement ([rows[0]]) is optional: the statement may
    have touched no row. The [details] of a rejected body are zod's and are
    not modelled. *)
Inductive Payload : Type :=
| PError (error : string)
| PInvalid (error : string)
| PSuccess
| PMessage (message : string)
| PFamily (row : option Family.t)
| PFamilies (rows : list (Family.t * MemberRole))
| PMember (row : option FamilyMember.t)
| PEvent (row : option Event.t)
| PEventDetail (row : Event.t) (familyName : string) (creator : string * string)
| PMedia (row : option Media.t)
| PMediaList (rows : list (Media.t * option User.t))
| PComment (row : option Comment.t)
| PComments
    (rows : list (Comment.t * option User.t * list (Comment.t * option User.t)))
| PContributor (row : option EventContributor.t)
| PContributors (rows : list (EventContributor.t * option User.t * option User.t))
| PPrivacy (row : option EventPrivacy.t)
| PPrivacyList (rows : list (EventPrivacy.t * option User.t))
| PNotification (row : option Notification.t).

Record Response := mkResponse { payload : Payload; status : nat }.

(** [NextResponse.json(body, { status })]; the status defaults to 200. *)
Definition json (p : Payload) (st : nat) : Response := mkResponse p st.
Definition error (msg : string) (st : nat) : Response := json (PError msg) st.

(** ** The handler monad *)

(** What a request takes from outside the repository: zod's format checks,
    the date parser of the runtime ([None] is an invalid date) and, for the
    n-th store statement of the request, whether it raises and which uuid
    and timestamp the store draws. [uuidOf] is the id that the store reads
    in a text compared with a uuid column: the store spells an id in one
    way, and reads the other spellings of it (capital digits, braces) as
    the same id. *)
Record Env := mkEnv {
  isUuid : string -> bool;
  isUrl : string -> bool;
  newDate : JsVal -> option Timestamp;
  fault : nat -> bool;
  uuid : nat -> Id;
  clock : nat -> Timestamp;
  uuidOf : string -> Id }.

Record World := mkWorld { db : Db; tick : nat }.

Inductive Outcome (A : Type) : Type :=
| Ret (a : A) (w : World)
| Raise (w : World).
Arguments Ret {A} a w.
Arguments Raise {A} w.

Definition M (A : Type) : Type := Env -> World -> Outcome A.

Definition ret {A} (a : A) : M A := fun _ w => Ret a w.

Definition bind {A B} (m : M A) (k : A -> M B) : M B :=
  fun env w =>
    match m env w with
    | Ret a w' => k a env w'
    | Raise w' => Raise w'
    end.

Definition raise {A} : M A := fun _ w => Raise w.

Notation "x <- m ;; k" := (bind m (fun x => k))
  (at level 61, m at next level, right associativity).
Notation "' pat <- m ;; k" := (bind m (fun x => match x with pat => k end))
  (at level 61, pat pattern, m at next level, right associativity).

(** A value that JavaScript computes or fails to ([None]: an exception). *)
Definition orThrow {A} (o : option A) : M A :=
  match o with Some a => ret a | None => raise end.

(** What the handler takes from the environment, without a statement. *)
Definition asks {A} (f : Env -> A) : M A := fun env w => Ret (f env) w.

(** [new Date()]. *)
Definition now : M Timestamp := fun env w => Ret (clock env (tick w)) w.

(** One awaited store statement. *)
Definition stmt {A} (f : Id -> Timestamp -> Db -> A * Db) : M A :=
  fun env w =>
    let n := tick w in
    if fault env n then Raise (mkWorld (db w) (S n))
    else
      let '(a, d) := f (uuid env n) (clock env n) (db w) in
      Ret a (mkWorld d (S n)).

(** A statement that reads. *)
Definition query {A} (f : Db -> A) : M A := stmt (fun _ _ d => (f d, d)).

(** [schema.safeParse(body)]. *)
Definition safeParse {V A} (schema : Env -> V -> option A) (v : V)
  : M (option A) := fun env w => Ret (schema env v) w.

(** A handler: [try { ... } catch { 500 }], run on the tables. *)
Definition Handler : Type := Env -> Db -> Response * Db.

Definition tryCatch (body : M Response) : Handler :=
  fun env d =>
    match body env (mkWorld d 0) with
    | Ret r w => (r, db w)
    | Raise w => (error "Internal server error" 500, db w)
    end.

(** [session?.user?.id], absent or empty when there is no signed-in user. *)
Definition Session := option Id.

Definition sessionUserId (session : Session) : option Id :=
  match session with
  | Some uid => if uid =? "" then None else Some uid
  | None => None
  end.

(** [await request.json()]: [None] is a body that is not JSON. *)
Definition requestJson (body : option JsVal) : M JsVal := orThrow body.

(** ** zod *)

Definition field (k : string) (fields : list (string * JsVal)) : JsVal :=
  match assocLast k fields with Some v => v | None => JUndefined end.

(** [z.string().min(lo).max(hi)]; [hi = None] is no upper bound. *)
Definition zString (lo : nat) (hi : option nat) (v : JsVal) : option string :=
  match v with
  | JStr s =>
      if (lo <=? String.length s)%nat &&
         match hi with Some h => (String.length s <=? h)%nat | None => true end
      then Some s else None
  | _ => None
  end.

(** [z.string()]. *)
Definition zText (v : JsVal) : option string :=
  match v with JStr s => Some s | _ => None end.

(** [z.string().uuid()] and [z.string().url()]. *)
Definition zFormat (ok : string -> bool) (v : JsVal) : option string :=
  match v with
  | JStr s => if ok s then Some s else None
  | _ => None
  end.

Definition zBoolean (v : JsVal) : option bool :=
  match v with JBool b => Some b | _ => None end.

(** [z.number().positive()]. *)
Definition zPositive (v : JsVal) : option Z :=
  match v with
  | JNum n => if (0 <? n)%Z then Some n else None
  | _ => None
  end.

(** [.optional()] and [.default(d)]. *)
Definition zOptional {A} (p : JsVal -> option A) (v : JsVal) : option (option A) :=
  match v with
  | JUndefined => Some None
  | _ => option_map Some (p v)
  end.

Definition zDefault {A} (p : JsVal -> option A) (d : A) (v : JsVal) : option A :=
  match v with
  | JUndefined => Some d
  | _ => p v
  end.

(** [z.object({...})] takes an object that is neither null nor an array. *)
Definition zObject (v : JsVal) : option (list (string * JsVal)) :=
  match v with JObj fields => Some fields | _ => None end.

Definition optBind {A B} (o : option A) (k : A -> option B) : option B :=
  match o with Some a => k a | None => None end.

Notation "x <-? o ;; k" := (optBind o (fun x => k))
  (at level 61, o at next level, right associativity).

(** [column === value] in the handler, and [sql: column = value] on a uuid
    column for a value taken as the id it spells: a value that is not a
    text equals no id. *)
Definition idEq (col : Id) (v : JsVal) : bool :=
  match v with JStr s => col =? s | _ => false end.

(** [sql: column = value] on a uuid column for a text that the handler has
    also compared itself: the store compares the id that it reads in the
    text ([reading]). *)
Definition sqlEq (reading : string -> Id) (col : Id) (v : JsVal) : bool :=
  match v with JStr s => col =? reading s | _ => false end.

(** [x.trim()]: [None] is the TypeError on a value without [trim]. *)
Definition trimOf (v : JsVal) : option string :=
  match v with JStr s => Some (trim s) | _ => None end.

(** ** Statements on the tables *)

Definition setUsers x (d : Db) : Db :=
  mkDb x (families d) (familyMembers d) (events d) (media d) (comments d)
       (eventContributors d) (notifications d) (eventPrivacy d).
Definition setFamilies x (d : Db) : Db :=
  mkDb (users d) x (familyMembers d) (events d) (media d) (comments d)
       (eventContributors d) (notifications d) (eventPrivacy d).
Definition setFamilyMembers x (d : Db) : Db :=
  mkDb (users d) (families d) x (events d) (media d) (comments d)
       (eventContributors d) (notifications d) (eventPrivacy d).
Definition setEvents x (d : Db) : Db :=
  mkDb (users d) (families d) (familyMembers d) x (media d) (comments d)
       (eventContributors d) (notifications d) (eventPrivacy d).
Definition setMedia x (d : Db) : Db :=
  mkDb (users d) (families d) (familyMembers d) (events d) x (comments d)
       (eventContributors d) (notifications d) (eventPrivacy d).
Definition setComments x (d : Db) : Db :=
  mkDb (users d) (families d) (familyMembers d) (events d) (media d) x
       (eventContributors d) (notifications d) (eventPrivacy d).
Definition setEventContributors x (d : Db) : Db :=
  mkDb (users d) (families d) (familyMembers d) (events d) (media d) (comments d)
       x (notifications d) (eventPrivacy d).
Definition setNotifications x (d : Db) : Db :=
  mkDb (users d) (families d) (familyMembers d) (events d) (media d) (comments d)
       (eventContributors d) x (eventPrivacy d).
Definition setEventPrivacy x (d : Db) : Db :=
  mkDb (users d) (families d) (familyMembers d) (events d) (media d) (comments d)
       (eventContributors d) (notifications d) x.

Definition memId (x : Id) (l : list Id) : bool := existsb (String.eqb x) l.

Definition keep {A} (gone : A -> bool) (l : list A) : list A :=
  filter (fun x => negb (gone x)) l.

(** [delete from events where gone], with the rows that reference the
    deleted events through an [onDelete: 'cascade'] key. *)
Definition deleteEvents (gone : Event.t -> bool) (d : Db) : Db :=
  let ids := map Event.id (filter gone (events d)) in
  mkDb (users d) (families d) (familyMembers d)
       (keep gone (events d))
       (keep (fun x => memId (Media.eventId x) ids) (media d))
       (keep (fun x => memId (Comment.eventId x) ids) (comments d))
       (keep (fun x => memId (EventContributor.eventId x) ids) (eventContributors d))
       (notifications d)
       (keep (fun x => memId (EventPrivacy.eventId x) ids) (eventPrivacy d)).

(** [delete from families where gone], with its cascade on members and
    events. *)
Definition deleteFamilies (gone : Family.t -> bool) (d : Db) : Db :=
  let ids := map Family.id (filter gone (families d)) in
  let d1 := deleteEvents (fun e => memId (Event.familyId e) ids) d in
  setFamilyMembers
    (keep (fun m => memId (FamilyMember.familyId m) ids) (familyMembers d1))
    (setFamilies (keep gone (families d1)) d1).

(** [update t set ... where hit returning *]: the table after the update and
    the rows it returned. *)
Definition updateRows {A} (hit : A -> bool) (set : A -> A) (l : list A)
  : list A * list A :=
  (map (fun x => if hit x then set x else x) l, map set (filter hit l)).

(** The settings a family row takes when a handler gives none. *)
Definition defaultSettings : JsVal :=
  JObj [("isPublic", JBool false); ("allowJoinRequests", JBool true)].

Definition roleIs (r r' : MemberRole) : bool :=
  match r, r' with
  | admin, admin | member, member => true
  | _, _ => false
  end.

(** ** Listings *)

(** What a handler that lists rows answers: the rows, with status 200, or
    one of the error answers. *)
Inductive Reply (A : Type) : Type :=
| Refused (r : Response)
| Listed (rows : A).
Arguments Refused {A} r.
Arguments Listed {A} rows.

Definition Reader (A : Type) : Type := Env -> Db -> Reply A * Db.

Definition tryCatchRows {A} (body : M (Reply A)) : Reader A :=
  fun env d =>
    match body env (mkWorld d 0) with
    | Ret r w => (r, db w)
    | Raise w => (Refused (error "Internal server error" 500), db w)
    end.

(** [orderBy]: the rows sorted by [le], rows with equal keys in table order. *)
Fixpoint insertBy {A} (le : A -> A -> bool) (x : A) (l : list A) : list A :=
  match l with
  | [] => [x]
  | y :: rest => if le x y then x :: l else y :: insertBy le x rest
  end.

Definition orderBy {A} (le : A -> A -> bool) (l : list A) : list A :=
  fold_right (insertBy le) [] l.

(** The value of a character as a digit, for radix up to 36. *)
Definition digitValue (c : ascii) : option nat :=
  let n := nat_of_ascii c in
  if (48 <=? n)%nat && (n <=? 57)%nat then Some (n - 48)
  else if (97 <=? n)%nat && (n <=? 122)%nat then Some (n - 87)
  else if (65 <=? n)%nat && (n <=? 90)%nat then Some (n - 55)
  else None.

(** The number read from the longest prefix of digits; [acc] is the number
    read so far, [None] before the first digit. *)
Fixpoint readDigits (radix : nat) (s : string) (acc : option Z) : option Z :=
  match s with
  | String c rest =>
      match digitValue c with
      | Some v =>
          if (v <? radix)%nat
          then readDigits radix rest
                 (Some (Z.of_nat radix *
                        match acc with Some a => a | None => 0 end +
                        Z.of_nat v)%Z)
          else acc
      | None => acc
      end
  | EmptyString => acc
  end.

(** [parseInt(s)] without a radix: leading white space, a sign, the [0x]
    prefix, then digits; [None] is NaN. *)
Definition parseInt (s : string) : option Z :=
  let s1 := trimStart s in
  let '(negative, s2) :=
    match s1 with
    | String "-"%char rest => (true, rest)
    | String "+"%char rest => (false, rest)
    | _ => (false, s1)
    end in
  let '(radix, s3) :=
    match s2 with
    | String "0"%char (String x rest) =>
        if Ascii.eqb x "x"%char || Ascii.eqb x "X"%char
        then (16%nat, rest) else (10%nat, s2)
    | _ => (10%nat, s2)
    end in
  option_map (fun n => if negative then (- n)%Z else n)
             (readDigits radix s3 None).

(** [searchParams.get(k) || fallback]. *)
Definition paramOr (v : option string) (fallback : string) : string :=
  match v with
  | Some s => if s =? "" then fallback else s
  | None => fallback
  end.

(** [limit > 0 ? limit : fallback], as a number of rows. *)
Definition limitOr (limit : option Z) (fallback : nat) : nat :=
  match limit with
  | Some n => if (0 <? n)%Z then Z.to_nat n else fallback
  | None => fallback
  end.

(** ** [api/families/route.ts] *)

Module Families.

  (** GET /api/families: the families of the current user (the answer keeps
      the whole family row where the handler selects five of its columns). *)
Definition GET (session : Session) : Handler :=
    tryCatch (
      match sessionUserId session with
      | None => ret (error "Unauthorized" 401)
      | Some uid =>
          userFamilies <- query (fun d =>
            flat_map (fun m =>
              map (fun f => (f, FamilyMember.role m))
                  (filter (fun f => FamilyMember.familyId m =? Family.id f)
                          (families d)))
              (filter (fun m => FamilyMember.userId m =? uid) (familyMembers d))) ;;
          ret (json (PFamilies userFamilies) 200)
      end).

  (** POST /api/families: create a family, then add its creator as admin. *)
Definition POST (session : Session) (request : option JsVal) : Handler :=
    tryCatch (
      match sessionUserId session with
      | None => ret (error "Unauthorized" 401)
      | Some uid =>
          body <- requestJson request ;;
          name <- orThrow (prop "name" body) ;;
          description <- orThrow (prop "description" body) ;;
          if blankText name then ret (error "Family name is required" 400)
          else
            name' <- orThrow (trimOf name) ;;
            description' <- orThrow (trimOrNull description) ;;
            newFamily <- stmt (fun id t d =>
              let row := Family.mk id name' description' uid defaultSettings t t in
              (row, setFamilies (families d ++ [row]) d)) ;;
            _ <- stmt (fun id t d =>
              let row := FamilyMember.mk id (Family.id newFamily) uid admin t in
              (tt, setFamilyMembers (familyMembers d ++ [row]) d)) ;;
            ret (json (PFamily (Some newFamily)) 201)
      end).

End Families.

(** ** [api/families/[id]/route.ts] *)

Module FamilyById.

  (** GET /api/families/[id] *)
Definition GET (session : Session) (id : Id) : Handler :=
    tryCatch (
      match sessionUserId session with
      | None => ret (error "Unauthorized" 401)
      | Some uid =>
          member <- query (fun d =>
            find (fun m => (FamilyMember.familyId m =? id) &&
                           (FamilyMember.userId m =? uid))
                 (familyMembers d)) ;;
          match member with
          | None => ret (error "Family not found or access denied" 404)
          | Some _ =>
              family <- query (fun d =>
                find (fun f => Family.id f =? id) (families d)) ;;
              match family with
              | None => ret (error "Family not found" 404)
              | Some f => ret (json (PFamily (Some f)) 200)
              end
          end
      end).

  (** PUT /api/families/[id] *)
Definition PUT (session : Session) (id : Id) (request : option JsVal) : Handler :=
    tryCatch (
      match sessionUserId session with
      | None => ret (error "Unauthorized" 401)
      | Some uid =>
          member <- query (fun d =>
            find (fun m => (FamilyMember.familyId m =? id) &&
                           (FamilyMember.userId m =? uid) &&
                           roleIs (FamilyMember.role m) admin)
                 (familyMembers d)) ;;
          match member with
          | None => ret (error "Unauthorized to update family" 403)
          | Some _ =>
              body <- requestJson request ;;
              name <- orThrow (prop "name" body) ;;
              description <- orThrow (prop "description" body) ;;
              if blankText name then ret (error "Family name is required" 400)
              else
                name' <- orThrow (trimOf name) ;;
                description' <- orThrow (trimOrNull description) ;;
                updated <- stmt (fun _ _ d =>
                  let '(rows, returned) :=
                    updateRows (fun f => Family.id f =? id)
                      (fun f => Family.mk (Family.id f) name' description'
                                  (Family.createdById f) (Family.settings f)
                                  (Family.createdAt f) (Family.updatedAt f))
                      (families d) in
                  (returned, setFamilies rows d)) ;;
                ret (json (PFamily (hd_error updated)) 200)
          end
      end).

  (** DELETE /api/families/[id] *)
Definition DELETE (session : Session) (id : Id) : Handler :=
    tryCatch (
      match sessionUserId session with
      | None => ret (error "Unauthorized" 401)
      | Some uid =>
          member <- query (fun d =>
            find (fun m => (FamilyMember.familyId m =? id) &&
                           (FamilyMember.userId m =? uid) &&
                           roleIs (FamilyMember.role m) admin)
                 (familyMembers d)) ;;
          match member with
          | None => ret (error "Unauthorized to delete family" 403)
          | Some _ =>
              _ <- stmt (fun _ _ d =>
                (tt, deleteFamilies (fun f => Family.id f =? id) d)) ;;
              ret (json PSuccess 200)
          end
      end).

End FamilyById.

(** ** [api/families/[id]/members/route.ts] *)

Module FamilyMembers.

(** GET /api/families/[id]/members: each row is a membership with the user
    row it joins (the handler selects the user's name and email). *)
Definition GET (session : Session) (id : Id)
  : Reader (list (FamilyMember.t * User.t)) :=
  tryCatchRows (
    match sessionUserId session with
    | None => ret (Refused (error "Unauthorized" 401))
    | Some uid =>
        userMembership <- query (fun d =>
          find (fun m => (FamilyMember.familyId m =? id) &&
                         (FamilyMember.userId m =? uid))
               (familyMembers d)) ;;
        match userMembership with
        | None => ret (Refused (error "Access denied" 403))
        | Some _ =>
            members <- query (fun d =>
              orderBy (fun x y => (FamilyMember.joinedAt (fst x) <=?
                                   FamilyMember.joinedAt (fst y))%Z)
                (flat_map (fun m =>
                   map (fun u => (m, u))
                       (filter (fun u => FamilyMember.userId m =? User.id u)
                               (users d)))
                   (filter (fun m => FamilyMember.familyId m =? id)
                           (familyMembers d)))) ;;
            ret (Listed members)
        end
    end).

  (** POST /api/families/[id]/members *)
Definition POST (session : Session) (id : Id) (request : option JsVal) : Handler :=
    tryCatch (
      match sessionUserId session with
      | None => ret (error "Unauthorized" 401)
      | Some uid =>
          userMembership <- query (fun d =>
            find (fun m => (FamilyMember.familyId m =? id) &&
                           (FamilyMember.userId m =? uid))
                 (familyMembers d)) ;;
          if match userMembership with
             | None => true
             | Some m => negb (roleIs (FamilyMember.role m) admin)
             end
          then ret (error "Only family admins can add members" 403)
          else
            body <- requestJson request ;;
            email <- orThrow (prop "email" body) ;;
            match email with
            | JStr s =>
                if negb (truthy email) || negb (includesChar "@"%char s)
                then ret (error "Valid email address is required" 400)
                else
                  existingUser <- query (fun d =>
                    find (fun u => User.email u =? toLowerCase s) (users d)) ;;
                  match existingUser with
                  | None =>
                      ret (error "User not found. They must sign up first." 404)
                  | Some u =>
                      existingMember <- query (fun d =>
                        find (fun m => (FamilyMember.familyId m =? id) &&
                                       (FamilyMember.userId m =? User.id u))
                             (familyMembers d)) ;;
                      match existingMember with
                      | Some _ =>
                          ret (error "User is already a member of this family" 400)
                      | None =>
                          newMember <- stmt (fun mid t d =>
                            let row := FamilyMember.mk mid id (User.id u) member t in
                            (row, setFamilyMembers (familyMembers d ++ [row]) d)) ;;
                          ret (json (PMember (Some newMember)) 201)
                      end
                  end
            | _ => ret (error "Valid email address is required" 400)
            end
      end).

  (** DELETE /api/families/[id]/members *)
Definition DELETE : Handler :=
    fun _ d => (error "Member removal not implemented yet" 501, d).

End FamilyMembers.

(** [new Date(x)] handed to a timestamp column: an invalid date raises. *)
Definition dateOf (v : JsVal) : M Timestamp :=
  fun env w =>
    match newDate env v with
    | Some t => Ret t w
    | None => Raise w
    end.

(** [x || fallback]. *)
Definition orElse (v fallback : JsVal) : JsVal :=
  if truthy v then v else fallback.

(** ** [api/events/route.ts] *)

Module Events.

(** GET /api/events?limit=&familyId=: each row is an event with the name of
    its family (the handler selects nine columns of the event). *)
Definition GET (session : Session) (limitParam familyIdParam : option string)
  : Reader (list (Event.t * string)) :=
  tryCatchRows (
    match sessionUserId session with
    | None => ret (Refused (error "Unauthorized" 401))
    | Some uid =>
        let limit := parseInt (paramOr limitParam "10") in
        let familyId := familyIdParam in
        userEvents <- query (fun d =>
          firstn (limitOr limit 10)
            (orderBy (fun x y => (Event.createdAt (fst y) <=?
                                  Event.createdAt (fst x))%Z)
               (flat_map (fun e =>
                  flat_map (fun f =>
                    map (fun _ => (e, Family.name f))
                        (filter (fun m =>
                                   (Family.id f =? FamilyMember.familyId m) &&
                                   match familyId with
                                   | Some fid =>
                                       if fid =? ""
                                       then FamilyMember.userId m =? uid
                                       else (FamilyMember.userId m =? uid) &&
                                            (Event.familyId e =? fid)
                                   | None => FamilyMember.userId m =? uid
                                   end)
                                (familyMembers d)))
                    (filter (fun f => Event.familyId e =? Family.id f)
                            (families d)))
                  (events d)))) ;;
        ret (Listed userEvents)
    end).

  (** POST /api/events *)
Definition POST (session : Session) (request : option JsVal) : Handler :=
    tryCatch (
      match sessionUserId session with
      | None => ret (error "Unauthorized" 401)
      | Some uid =>
          body <- requestJson request ;;
          title <- orThrow (prop "title" body) ;;
          description <- orThrow (prop "description" body) ;;
          date <- orThrow (prop "date" body) ;;
          location <- orThrow (prop "location" body) ;;
          familyId <- orThrow (prop "familyId" body) ;;
          eventType <- orThrow (prop "eventType" body) ;;
          tags <- orThrow (prop "tags" body) ;;
          if blankText title then ret (error "Event title is required" 400)
          else if negb (truthy date) then ret (error "Event date is required" 400)
          else if negb (truthy familyId) then ret (error "Family ID is required" 400)
          else
            familyMembership <- query (fun d =>
              find (fun m => idEq (FamilyMember.familyId m) familyId &&
                             (FamilyMember.userId m =? uid))
                   (familyMembers d)) ;;
            match familyMembership with
            | None => ret (error "You are not a member of this family" 403)
            | Some _ =>
                title' <- orThrow (trimOf title) ;;
                description' <- orThrow (trimOrNull description) ;;
                date' <- dateOf date ;;
                location' <- orThrow (trimOrNull location) ;;
                familyId' <- orThrow (zText familyId) ;;
                newEvent <- stmt (fun id t d =>
                  let row :=
                    Event.mk id title' description' date' location' familyId' uid
                      (orElse eventType (JStr "other")) (orElse tags (JArr []))
                      false t t in
                  (row, setEvents (events d ++ [row]) d)) ;;
                ret (json (PEvent (Some newEvent)) 201)
            end
      end).

End Events.

(** The rows of the join of events, families and family_members for one event id and
    one member, as the update and delete handlers select them. *)
Definition eventOfMember (id uid : Id) (d : Db)
  : list (Event.t * Family.t * FamilyMember.t) :=
  flat_map (fun e =>
    flat_map (fun f =>
      map (fun m => (e, f, m))
          (filter (fun m => (Family.id f =? FamilyMember.familyId m) &&
                            (FamilyMember.userId m =? uid))
                  (familyMembers d)))
      (filter (fun f => Event.familyId e =? Family.id f) (families d)))
    (filter (fun e => Event.id e =? id) (events d)).

(** The rows of the same join extended with the creator's user row, as the
    read of a single event selects them. *)
Definition eventDetailOfMember (id uid : Id) (d : Db)
  : list (Event.t * Family.t * User.t * FamilyMember.t) :=
  flat_map (fun e =>
    flat_map (fun f =>
      flat_map (fun u =>
        map (fun m => (e, f, u, m))
            (filter (fun m => (Family.id f =? FamilyMember.familyId m) &&
                              (FamilyMember.userId m =? uid))
                    (familyMembers d)))
        (filter (fun u => Event.createdById e =? User.id u) (users d)))
      (filter (fun f => Event.familyId e =? Family.id f) (families d)))
    (filter (fun e => Event.id e =? id) (events d)).

(** ** [api/events/[id]/route.ts] *)

Module EventById.

  (** GET /api/events/[id] *)
Definition GET (session : Session) (id : Id) : Handler :=
    tryCatch (
      match sessionUserId session with
      | None => ret (error "Unauthorized" 401)
      | Some uid =>
          event <- query (eventDetailOfMember id uid) ;;
          match event with
          | [] => ret (error "Event not found" 404)
          | (e, f, u, _) :: _ =>
              ret (json (PEventDetail e (Family.name f) (User.name u, User.email u)) 200)
          end
      end).

  (** PUT /api/events/[id] *)
Definition PUT (session : Session) (id : Id) (request : option JsVal) : Handler :=
    tryCatch (
      match sessionUserId session with
      | None => ret (error "Unauthorized" 401)
      | Some uid =>
          body <- requestJson request ;;
          title <- orThrow (prop "title" body) ;;
          description <- orThrow (prop "description" body) ;;
          date <- orThrow (prop "date" body) ;;
          location <- orThrow (prop "location" body) ;;
          eventType <- orThrow (prop "eventType" body) ;;
          tags <- orThrow (prop "tags" body) ;;
          if blankText title then ret (error "Event title is required" 400)
          else if negb (truthy date) then ret (error "Event date is required" 400)
          else
            existingEvent <- query (eventOfMember id uid) ;;
            match existingEvent with
            | [] => ret (error "Event not found" 404)
            | (e, f, _) :: _ =>
                userRole <- query (fun d =>
                  find (fun m => (FamilyMember.familyId m =? Family.id f) &&
                                 (FamilyMember.userId m =? uid))
                       (familyMembers d)) ;;
                if negb (Event.createdById e =? uid) &&
                   match userRole with
                   | Some m => negb (roleIs (FamilyMember.role m) admin)
                   | None => true
                   end
                then ret (error "You do not have permission to update this event" 403)
                else
                  title' <- orThrow (trimOf title) ;;
                  description' <- orThrow (trimOrNull description) ;;
                  date' <- dateOf date ;;
                  location' <- orThrow (trimOrNull location) ;;
                  t <- now ;;
                  updated <- stmt (fun _ _ d =>
                    let '(rows, returned) :=
                      updateRows (fun x => Event.id x =? id)
                        (fun x => Event.mk (Event.id x) title' description' date'
                                    location' (Event.familyId x) (Event.createdById x)
                                    (orElse eventType (JStr "other"))
                                    (orElse tags (JArr []))
                                    (Event.isPublic x) (Event.createdAt x) t)
                        (events d) in
                    (returned, setEvents rows d)) ;;
                  ret (json (PEvent (hd_error updated)) 200)
            end
      end).

  (** DELETE /api/events/[id] *)
Definition DELETE (session : Session) (id : Id) : Handler :=
    tryCatch (
      match sessionUserId session with
      | None => ret (error "Unauthorized" 401)
      | Some uid =>
          existingEvent <- query (eventOfMember id uid) ;;
          match existingEvent with
          | [] => ret (error "Event not found" 404)
          | (e, f, _) :: _ =>
              userRole <- query (fun d =>
                find (fun m => (FamilyMember.familyId m =? Family.id f) &&
                               (FamilyMember.userId m =? uid))
                     (familyMembers d)) ;;
              if negb (Event.createdById e =? uid) &&
                 match userRole with
                 | Some m => negb (roleIs (FamilyMember.role m) admin)
                 | None => true
                 end
              then ret (error "You do not have permission to delete this event" 403)
              else
                _ <- stmt (fun _ _ d =>
                  (tt, deleteEvents (fun x => Event.id x =? id) d)) ;;
                ret (json (PMessage "Event deleted successfully") 200)
          end
      end).

End EventById.

(** The two lookups that open every handler of the event sub-resources. *)
Definition findEvent (eventId : Id) (d : Db) : option Event.t :=
  find (fun e => Event.id e =? eventId) (events d).

Definition findMembership (familyId uid : Id) (d : Db) : option FamilyMember.t :=
  find (fun m => (FamilyMember.familyId m =? familyId) &&
                 (FamilyMember.userId m =? uid))
       (familyMembers d).

Definition findUser (id : Id) (d : Db) : option User.t :=
  find (fun u => User.id u =? id) (users d).

(** ** [api/events/[id]/privacy/route.ts] *)

Record PrivacySettings := mkPrivacySettings {
  ps_userId : Id; ps_canView : bool; ps_canEdit : bool;
  ps_canComment : bool; ps_canUploadMedia : bool }.

Definition PrivacySettingsSchema (env : Env) (v : JsVal) : option PrivacySettings :=
  o <-? zObject v ;;
  userId <-? zFormat (isUuid env) (field "userId" o) ;;
  canView <-? zDefault zBoolean true (field "canView" o) ;;
  canEdit <-? zDefault zBoolean false (field "canEdit" o) ;;
  canComment <-? zDefault zBoolean true (field "canComment" o) ;;
  canUploadMedia <-? zDefault zBoolean true (field "canUploadMedia" o) ;;
  Some (mkPrivacySettings userId canView canEdit canComment canUploadMedia).

Module PrivacyRoute.

Definition GET (session : Session) (eventId : Id) : Handler :=
    tryCatch (
      match sessionUserId session with
      | None => ret (error "Unauthorized" 401)
      | Some uid =>
          event <- query (findEvent eventId) ;;
          match event with
          | None => ret (error "Event not found" 404)
          | Some event =>
              familyMembership <- query (findMembership (Event.familyId event) uid) ;;
              match familyMembership with
              | None => ret (error "Access denied" 403)
              | Some _ =>
                  privacySettings <- query (fun d =>
                    map (fun p => (p, findUser (EventPrivacy.userId p) d))
                        (filter (fun p => EventPrivacy.eventId p =? eventId)
                                (eventPrivacy d))) ;;
                  ret (json (PPrivacyList privacySettings) 200)
              end
          end
      end).

Definition POST (session : Session) (eventId : Id) (request : option JsVal)
    : Handler :=
    tryCatch (
      match sessionUserId session with
      | None => ret (error "Unauthorized" 401)
      | Some uid =>
          body <- requestJson request ;;
          validation <- safeParse PrivacySettingsSchema body ;;
          match validation with
          | None => ret (json (PInvalid "Invalid input") 400)
          | Some data =>
              event <- query (findEvent eventId) ;;
              match event with
              | None => ret (error "Event not found" 404)
              | Some event =>
                  familyMembership <-
                    query (findMembership (Event.familyId event) uid) ;;
                  match familyMembership with
                  | None => ret (error "Access denied" 403)
                  | Some _ =>
                      let hasPermission := Event.createdById event =? uid in
                      if negb hasPermission
                      then ret (error "Permission denied" 403)
                      else
                        existingSettings <- query (fun d =>
                          find (fun p => (EventPrivacy.eventId p =? eventId) &&
                                         (EventPrivacy.userId p =? ps_userId data))
                               (eventPrivacy d)) ;;
                        match existingSettings with
                        | Some existing =>
                            updated <- stmt (fun _ _ d =>
                              let '(rows, returned) :=
                                updateRows
                                  (fun p => EventPrivacy.id p =? EventPrivacy.id existing)
                                  (fun p => EventPrivacy.mk (EventPrivacy.id p)
                                     (EventPrivacy.eventId p) (EventPrivacy.userId p)
                                     (ps_canView data) (ps_canEdit data)
                                     (ps_canComment data) (ps_canUploadMedia data)
                                     (EventPrivacy.createdAt p))
                                  (eventPrivacy d) in
                              (returned, setEventPrivacy rows d)) ;;
                            ret (json (PPrivacy (hd_error updated)) 200)
                        | None =>
                            newSettings <- stmt (fun id t d =>
                              let row :=
                                EventPrivacy.mk id eventId (ps_userId data)
                                  (ps_canView data) (ps_canEdit data)
                                  (ps_canComment data) (ps_canUploadMedia data) t in
                              (row, setEventPrivacy (eventPrivacy d ++ [row]) d)) ;;
                            ret (json (PPrivacy (Some newSettings)) 201)
                        end
                  end
              end
          end
      end).

Definition DELETE (session : Session) (eventId : Id) (request : option JsVal)
    : Handler :=
    tryCatch (
      match sessionUserId session with
      | None => ret (error "Unauthorized" 401)
      | Some uid =>
          body <- requestJson request ;;
          userId <- orThrow (prop "userId" body) ;;
          event <- query (findEvent eventId) ;;
          match event with
          | None => ret (error "Event not found" 404)
          | Some event =>
              familyMembership <- query (findMembership (Event.familyId event) uid) ;;
              match familyMembership with
              | None => ret (error "Access denied" 403)
              | Some _ =>
                  let hasPermission := Event.createdById event =? uid in
                  if negb hasPermission
                  then ret (error "Permission denied" 403)
                  else
                    existingSettings <- query (fun d =>
                      find (fun p => (EventPrivacy.eventId p =? eventId) &&
                                     idEq (EventPrivacy.userId p) userId)
                           (eventPrivacy d)) ;;
                    match existingSettings with
                    | None => ret (error "Privacy settings not found" 404)
                    | Some existing =>
                        _ <- stmt (fun _ _ d =>
                          (tt, setEventPrivacy
                                 (keep (fun p => EventPrivacy.id p =? EventPrivacy.id existing)
                                       (eventPrivacy d)) d)) ;;
                        ret (json PSuccess 200)
                    end
              end
          end
      end).

End PrivacyRoute.

(** ** [api/events/[id]/contributors/route.ts] *)

Record ContributorInput := mkContributorInput {
  ci_userId : Id; ci_role : ContributorRole;
  ci_canEdit : bool; ci_canDelete : bool; ci_canInvite : bool }.

(** [z.enum(['owner', 'editor', 'viewer'])]. *)
Definition zContributorRole (v : JsVal) : option ContributorRole :=
  match v with
  | JStr s =>
      if s =? "owner" then Some owner
      else if s =? "editor" then Some editor
      else if s =? "viewer" then Some viewer
      else None
  | _ => None
  end.

Definition EventContributorSchema (env : Env) (v : JsVal) : option ContributorInput :=
  o <-? zObject v ;;
  userId <-? zFormat (isUuid env) (field "userId" o) ;;
  role <-? zDefault zContributorRole editor (field "role" o) ;;
  canEdit <-? zDefault zBoolean true (field "canEdit" o) ;;
  canDelete <-? zDefault zBoolean false (field "canDelete" o) ;;
  canInvite <-? zDefault zBoolean false (field "canInvite" o) ;;
  Some (mkContributorInput userId role canEdit canDelete canInvite).

(** The contributor row of a user on an event, if any; [flag] is the further
    condition that some handlers put on the row. *)
Definition findContributor (eventId uid : Id) (flag : EventContributor.t -> bool)
  (d : Db) : option EventContributor.t :=
  find (fun c => (EventContributor.eventId c =? eventId) &&
                 (EventContributor.userId c =? uid) && flag c)
       (eventContributors d).

Definition anyRow {A} (_ : A) : bool := true.

Module ContributorsRoute.

Definition GET (session : Session) (eventId : Id) : Handler :=
    tryCatch (
      match sessionUserId session with
      | None => ret (error "Unauthorized" 401)
      | Some uid =>
          event <- query (findEvent eventId) ;;
          match event with
          | None => ret (error "Event not found" 404)
          | Some event =>
              familyMembership <- query (findMembership (Event.familyId event) uid) ;;
              match familyMembership with
              | None => ret (error "Access denied" 403)
              | Some _ =>
                  contributors <- query (fun d =>
                    map (fun c => (c, findUser (EventContributor.userId c) d,
                                      findUser (EventContributor.addedById c) d))
                        (filter (fun c => EventContributor.eventId c =? eventId)
                                (eventContributors d))) ;;
                  ret (json (PContributors contributors) 200)
              end
          end
      end).

Definition POST (session : Session) (eventId : Id) (request : option JsVal)
    : Handler :=
    tryCatch (
      match sessionUserId session with
      | None => ret (error "Unauthorized" 401)
      | Some uid =>
          body <- requestJson request ;;
          validation <- safeParse EventContributorSchema body ;;
          match validation with
          | None => ret (json (PInvalid "Invalid input") 400)
          | Some data =>
              event <- query (findEvent eventId) ;;
              match event with
              | None => ret (error "Event not found" 404)
              | Some event =>
                  familyMembership <-
                    query (findMembership (Event.familyId event) uid) ;;
                  match familyMembership with
                  | None => ret (error "Access denied" 403)
                  | Some _ =>
                      hasPermission <-
                        (if Event.createdById event =? uid then ret true
                         else
                           userContributor <-
                             query (findContributor eventId uid
                                      EventContributor.canInvite) ;;
                           ret (match userContributor with
                                | Some _ => true
                                | None => false
                                end)) ;;
                      if negb hasPermission
                      then ret (error "Permission denied" 403)
                      else
                        existingContributor <-
                          query (findContributor eventId (ci_userId data) anyRow) ;;
                        match existingContributor with
                        | Some _ => ret (error "User is already a contributor" 409)
                        | None =>
                            newContributor <- stmt (fun id t d =>
                              let row :=
                                EventContributor.mk id eventId (ci_userId data)
                                  (ci_role data) uid (ci_canEdit data)
                                  (ci_canDelete data) (ci_canInvite data) t in
                              (row, setEventContributors
                                      (eventContributors d ++ [row]) d)) ;;
                            ret (json (PContributor (Some newContributor)) 201)
                        end
                  end
              end
          end
      end).

Definition DELETE (session : Session) (eventId : Id) (request : option JsVal)
    : Handler :=
    tryCatch (
      match sessionUserId session with
      | None => ret (error "Unauthorized" 401)
      | Some uid =>
          body <- requestJson request ;;
          userId <- orThrow (prop "userId" body) ;;
          event <- query (findEvent eventId) ;;
          match event with
          | None => ret (error "Event not found" 404)
          | Some event =>
              familyMembership <- query (findMembership (Event.familyId event) uid) ;;
              match familyMembership with
              | None => ret (error "Access denied" 403)
              | Some _ =>
                  hasPermission <-
                    (if Event.createdById event =? uid then ret true
                     else
                       userContributor <-
                         query (findContributor eventId uid
                                  EventContributor.canInvite) ;;
                       ret (match userContributor with
                            | Some _ => true
                            | None => false
                            end)) ;;
                  if negb hasPermission
                  then ret (error "Permission denied" 403)
                  else if idEq (Event.createdById event) userId
                  then ret (error "Cannot remove event creator" 400)
                  else
                    reading <- asks uuidOf ;;
                    _ <- stmt (fun _ _ d =>
                      (tt, setEventContributors
                             (keep (fun c => (EventContributor.eventId c =? eventId) &&
                                             sqlEq reading (EventContributor.userId c)
                                               userId)
                                   (eventContributors d)) d)) ;;
                    ret (json PSuccess 200)
              end
          end
      end).

End ContributorsRoute.

(** ** [api/events/[id]/comments/route.ts] *)

Definition CommentSchema (env : Env) (v : JsVal) : option (string * option Id) :=
  o <-? zObject v ;;
  content <-? zString 1 (Some 1000) (field "content" o) ;;
  parentId <-? zOptional (zFormat (isUuid env)) (field "parentId" o) ;;
  Some (content, parentId).

(** [z.object({ content: z.string().min(1).max(1000) })], applied to the
    object the handler builds from the content it read. *)
Definition CommentContentSchema (_ : Env) (content : JsVal) : option string :=
  zString 1 (Some 1000) content.

Module CommentsRoute.

Definition GET (session : Session) (eventId : Id) : Handler :=
    tryCatch (
      match sessionUserId session with
      | None => ret (error "Unauthorized" 401)
      | Some uid =>
          event <- query (findEvent eventId) ;;
          match event with
          | None => ret (error "Event not found" 404)
          | Some event =>
              familyMembership <- query (findMembership (Event.familyId event) uid) ;;
              match familyMembership with
              | None => ret (error "Access denied" 403)
              | Some _ =>
                  eventComments <- query (fun d =>
                    map (fun c =>
                           (c, findUser (Comment.authorId c) d,
                            map (fun r => (r, findUser (Comment.authorId r) d))
                                (filter (fun r =>
                                           match Comment.parentId r with
                                           | Some p => p =? Comment.id c
                                           | None => false
                                           end)
                                        (comments d))))
                        (filter (fun c => Comment.eventId c =? eventId)
                                (comments d))) ;;
                  ret (json (PComments eventComments) 200)
              end
          end
      end).

Definition POST (session : Session) (eventId : Id) (request : option JsVal)
    : Handler :=
    tryCatch (
      match sessionUserId session with
      | None => ret (error "Unauthorized" 401)
      | Some uid =>
          body <- requestJson request ;;
          validation <- safeParse CommentSchema body ;;
          match validation with
          | None => ret (json (PInvalid "Invalid input") 400)
          | Some (content, parentId) =>
              event <- query (findEvent eventId) ;;
              match event with
              | None => ret (error "Event not found" 404)
              | Some event =>
                  familyMembership <-
                    query (findMembership (Event.familyId event) uid) ;;
                  match familyMembership with
                  | None => ret (error "Access denied" 403)
                  | Some _ =>
                      hasPermission <-
                        (if Event.createdById event =? uid then ret true
                         else
                           userContributor <-
                             query (findContributor eventId uid anyRow) ;;
                           ret (match userContributor with
                                | Some _ => true
                                | None => false
                                end)) ;;
                      if negb hasPermission
                      then ret (error "Permission denied" 403)
                      else
                        newComment <- stmt (fun id t d =>
                          let row :=
                            Comment.mk id eventId uid content parentId false t t in
                          (row, setComments (comments d ++ [row]) d)) ;;
                        ret (json (PComment (Some newComment)) 201)
                  end
              end
          end
      end).

Definition DELETE (session : Session) (eventId : Id) (request : option JsVal)
    : Handler :=
    tryCatch (
      match sessionUserId session with
      | None => ret (error "Unauthorized" 401)
      | Some uid =>
          body <- requestJson request ;;
          commentId <- orThrow (prop "commentId" body) ;;
          event <- query (findEvent eventId) ;;
          match event with
          | None => ret (error "Event not found" 404)
          | Some event =>
              familyMembership <- query (findMembership (Event.familyId event) uid) ;;
              match familyMembership with
              | None => ret (error "Access denied" 403)
              | Some _ =>
                  existingComment <- query (fun d =>
                    find (fun c => idEq (Comment.id c) commentId &&
                                   (Comment.eventId c =? eventId))
                         (comments d)) ;;
                  match existingComment with
                  | None => ret (error "Comment not found" 404)
                  | Some existingComment =>
                      let canDelete :=
                        (Comment.authorId existingComment =? uid) ||
                        (Event.createdById event =? uid) in
                      if negb canDelete
                      then ret (error "Permission denied" 403)
                      else
                        _ <- stmt (fun _ _ d =>
                          (tt, setComments
                                 (keep (fun c => idEq (Comment.id c) commentId)
                                       (comments d)) d)) ;;
                        ret (json PSuccess 200)
                  end
              end
          end
      end).

Definition PUT (session : Session) (eventId : Id) (request : option JsVal)
    : Handler :=
    tryCatch (
      match sessionUserId session with
      | None => ret (error "Unauthorized" 401)
      | Some uid =>
          body <- requestJson request ;;
          commentId <- orThrow (prop "commentId" body) ;;
          content <- orThrow (prop "content" body) ;;
          validation <- safeParse CommentContentSchema content ;;
          match validation with
          | None => ret (json (PInvalid "Invalid input") 400)
          | Some content' =>
              event <- query (findEvent eventId) ;;
              match event with
              | None => ret (error "Event not found" 404)
              | Some event =>
                  familyMembership <-
                    query (findMembership (Event.familyId event) uid) ;;
                  match familyMembership with
                  | None => ret (error "Access denied" 403)
                  | Some _ =>
                      existingComment <- query (fun d =>
                        find (fun c => idEq (Comment.id c) commentId &&
                                       (Comment.eventId c =? eventId) &&
                                       (Comment.authorId c =? uid))
                             (comments d)) ;;
                      match existingComment with
                      | None =>
                          ret (error "Comment not found or access denied" 404)
                      | Some _ =>
                          t <- now ;;
                          updated <- stmt (fun _ _ d =>
                            let '(rows, returned) :=
                              updateRows (fun c => idEq (Comment.id c) commentId)
                                (fun c => Comment.mk (Comment.id c) (Comment.eventId c)
                                            (Comment.authorId c) content'
                                            (Comment.parentId c) true
                                            (Comment.createdAt c) t)
                                (comments d) in
                            (returned, setComments rows d)) ;;
                          ret (json (PComment (hd_error updated)) 200)
                      end
                  end
              end
          end
      end).

End CommentsRoute.

(** ** [api/events/[id]/media/route.ts] *)

Record MediaUpload := mkMediaUpload {
  mu_filename : string; mu_originalName : string; mu_mimeType : string;
  mu_size : Z; mu_url : option string; mu_altText : option string;
  mu_isPublic : bool }.

Definition MediaUploadSchema (env : Env) (v : JsVal) : option MediaUpload :=
  o <-? zObject v ;;
  filename <-? zString 1 None (field "filename" o) ;;
  originalName <-? zString 1 None (field "originalName" o) ;;
  mimeType <-? zString 1 None (field "mimeType" o) ;;
  size <-? zPositive (field "size" o) ;;
  url <-? zOptional (zFormat (isUrl env)) (field "url" o) ;;
  altText <-? zOptional zText (field "altText" o) ;;
  isPublic <-? zDefault zBoolean false (field "isPublic" o) ;;
  Some (mkMediaUpload filename originalName mimeType size url altText isPublic).

Module MediaRoute.

Definition GET (session : Session) (eventId : Id) : Handler :=
    tryCatch (
      match sessionUserId session with
      | None => ret (error "Unauthorized" 401)
      | Some uid =>
          event <- query (findEvent eventId) ;;
          match event with
          | None => ret (error "Event not found" 404)
          | Some event =>
              familyMembership <- query (findMembership (Event.familyId event) uid) ;;
              match familyMembership with
              | None => ret (error "Access denied" 403)
              | Some _ =>
                  eventMedia <- query (fun d =>
                    map (fun x => (x, findUser (Media.uploadedById x) d))
                        (filter (fun x => Media.eventId x =? eventId) (media d))) ;;
                  ret (json (PMediaList eventMedia) 200)
              end
          end
      end).

Definition POST (session : Session) (eventId : Id) (request : option JsVal)
    : Handler :=
    tryCatch (
      match sessionUserId session with
      | None => ret (error "Unauthorized" 401)
      | Some uid =>
          body <- requestJson request ;;
          validation <- safeParse MediaUploadSchema body ;;
          match validation with
          | None => ret (json (PInvalid "Invalid input") 400)
          | Some data =>
              event <- query (findEvent eventId) ;;
              match event with
              | None => ret (error "Event not found" 404)
              | Some event =>
                  familyMembership <-
                    query (findMembership (Event.familyId event) uid) ;;
                  match familyMembership with
                  | None => ret (error "Access denied" 403)
                  | Some _ =>
                      hasPermission <-
                        (if Event.createdById event =? uid then ret true
                         else
                           userContributor <-
                             query (findContributor eventId uid anyRow) ;;
                           ret (match userContributor with
                                | Some _ => true
                                | None => false
                                end)) ;;
                      if negb hasPermission
                      then ret (error "Permission denied" 403)
                      else
                        newMedia <- stmt (fun id t d =>
                          let row :=
                            Media.mk id eventId uid (mu_filename data)
                              (mu_originalName data) (mu_mimeType data)
                              (mu_size data) (mu_url data) (mu_altText data)
                              (mu_isPublic data) t in
                          (row, setMedia (media d ++ [row]) d)) ;;
                        ret (json (PMedia (Some newMedia)) 201)
                  end
              end
          end
      end).

Definition DELETE (session : Session) (eventId : Id) (request : option JsVal)
    : Handler :=
    tryCatch (
      match sessionUserId session with
      | None => ret (error "Unauthorized" 401)
      | Some uid =>
          body <- requestJson request ;;
          mediaId <- orThrow (prop "mediaId" body) ;;
          event <- query (findEvent eventId) ;;
          match event with
          | None => ret (error "Event not found" 404)
          | Some event =>
              familyMembership <- query (findMembership (Event.familyId event) uid) ;;
              match familyMembership with
              | None => ret (error "Access denied" 403)
              | Some _ =>
                  hasPermission <-
                    (if Event.createdById event =? uid then ret true
                     else
                       userContributor <-
                         query (findContributor eventId uid
                                  EventContributor.canDelete) ;;
                       ret (match userContributor with
                            | Some _ => true
                            | None => false
                            end)) ;;
                  if negb hasPermission
                  then ret (error "Permission denied" 403)
                  else
                    existingMedia <- query (fun d =>
                      find (fun x => idEq (Media.id x) mediaId &&
                                     (Media.eventId x =? eventId))
                           (media d)) ;;
                    match existingMedia with
                    | None => ret (error "Media not found" 404)
                    | Some _ =>
                        _ <- stmt (fun _ _ d =>
                          (tt, setMedia
                                 (keep (fun x => idEq (Media.id x) mediaId)
                                       (media d)) d)) ;;
                        ret (json PSuccess 200)
                    end
              end
          end
      end).

End MediaRoute.

(** ** [api/notifications/route.ts] *)

Record NotificationInput := mkNotificationInput {
  ni_type : NotificationType; ni_title : string; ni_message : string;
  ni_referenceId : option Id; ni_referenceType : option string }.

(** [z.enum(['comment', 'media_upload', 'event_update', 'invitation', 'system'])]. *)
Definition zNotificationType (v : JsVal) : option NotificationType :=
  match v with
  | JStr s =>
      if s =? "comment" then Some comment
      else if s =? "media_upload" then Some media_upload
      else if s =? "event_update" then Some event_update
      else if s =? "invitation" then Some invitation
      else if s =? "system" then Some system
      else None
  | _ => None
  end.

Definition NotificationSchema (env : Env) (v : JsVal) : option NotificationInput :=
  o <-? zObject v ;;
  type <-? zNotificationType (field "type" o) ;;
  title <-? zString 1 (Some 100) (field "title" o) ;;
  message <-? zString 1 (Some 500) (field "message" o) ;;
  referenceId <-? zOptional (zFormat (isUuid env)) (field "referenceId" o) ;;
  referenceType <-? zOptional zText (field "referenceType" o) ;;
  Some (mkNotificationInput type title message referenceId referenceType).

(** The schemas that the update and the delete build on the spot, applied
    to the values they read from the body. *)
Definition NotificationReadSchema (env : Env) (v : JsVal * JsVal)
  : option (Id * bool) :=
  notificationId <-? zFormat (isUuid env) (fst v) ;;
  isRead <-? zBoolean (snd v) ;;
  Some (notificationId, isRead).

Definition NotificationIdSchema (env : Env) (v : JsVal) : option Id :=
  zFormat (isUuid env) v.

Module NotificationsRoute.

(** GET /api/notifications?limit=&unreadOnly= *)
Definition GET (session : Session) (limitParam unreadOnlyParam : option string)
  : Reader (list Notification.t) :=
  tryCatchRows (
    match sessionUserId session with
    | None => ret (Refused (error "Unauthorized" 401))
    | Some uid =>
        let limit := parseInt (paramOr limitParam "20") in
        let unreadOnly :=
          match unreadOnlyParam with
          | Some s => s =? "true"
          | None => false
          end in
        userNotifications <- query (fun d =>
          firstn (limitOr limit 20)
            (orderBy (fun x y => (Notification.createdAt y <=?
                                  Notification.createdAt x)%Z)
               (filter (fun n => (Notification.userId n =? uid) &&
                                 (if unreadOnly
                                  then negb (Notification.isRead n)
                                  else true))
                       (notifications d)))) ;;
        ret (Listed userNotifications)
    end).

Definition POST (session : Session) (request : option JsVal) : Handler :=
    tryCatch (
      match sessionUserId session with
      | None => ret (error "Unauthorized" 401)
      | Some uid =>
          body <- requestJson request ;;
          validation <- safeParse NotificationSchema body ;;
          match validation with
          | None => ret (json (PInvalid "Invalid input") 400)
          | Some data =>
              newNotification <- stmt (fun id t d =>
                let row :=
                  Notification.mk id uid (ni_type data) (ni_title data)
                    (ni_message data) (ni_referenceId data)
                    (ni_referenceType data) false t t in
                (row, setNotifications (notifications d ++ [row]) d)) ;;
              ret (json (PNotification (Some newNotification)) 201)
          end
      end).

Definition PUT (session : Session) (request : option JsVal) : Handler :=
    tryCatch (
      match sessionUserId session with
      | None => ret (error "Unauthorized" 401)
      | Some uid =>
          body <- requestJson request ;;
          notificationId <- orThrow (prop "notificationId" body) ;;
          isRead <- orThrow (prop "isRead" body) ;;
          validation <- safeParse NotificationReadSchema (notificationId, isRead) ;;
          match validation with
          | None => ret (json (PInvalid "Invalid input") 400)
          | Some (notificationId', isRead') =>
              existingNotification <- query (fun d =>
                find (fun n => (Notification.id n =? notificationId') &&
                               (Notification.userId n =? uid))
                     (notifications d)) ;;
              match existingNotification with
              | None => ret (error "Notification not found" 404)
              | Some _ =>
                  t <- now ;;
                  updated <- stmt (fun _ _ d =>
                    let '(rows, returned) :=
                      updateRows (fun n => Notification.id n =? notificationId')
                        (fun n => Notification.mk (Notification.id n)
                                    (Notification.userId n) (Notification.type n)
                                    (Notification.title n) (Notification.message n)
                                    (Notification.referenceId n)
                                    (Notification.referenceType n) isRead'
                                    (Notification.createdAt n) t)
                        (notifications d) in
                    (returned, setNotifications rows d)) ;;
                  ret (json (PNotification (hd_error updated)) 200)
              end
          end
      end).

Definition DELETE (session : Session) (request : option JsVal) : Handler :=
    tryCatch (
      match sessionUserId session with
      | None => ret (error "Unauthorized" 401)
      | Some uid =>
          body <- requestJson request ;;
          notificationId <- orThrow (prop "notificationId" body) ;;
          validation <- safeParse NotificationIdSchema notificationId ;;
          match validation with
          | None => ret (json (PInvalid "Invalid input") 400)
          | Some notificationId' =>
              existingNotification <- query (fun d =>
                find (fun n => (Notification.id n =? notificationId') &&
                               (Notification.userId n =? uid))
                     (notifications d)) ;;
              match existingNotification with
              | None => ret (error "Notification not found" 404)
              | Some _ =>
                  _ <- stmt (fun _ _ d =>
                    (tt, setNotifications
                           (keep (fun n => Notification.id n =? notificationId')
                                 (notifications d)) d)) ;;
                  ret (json PSuccess 200)
              end
          end
      end).

End NotificationsRoute.

(** ** [api/profile/route.ts] *)

(** [v !== undefined && (typeof v !== 'string' || v.trim().length === 0)]. *)
Definition givenButBlank (v : JsVal) : bool :=
  match v with
  | JUndefined => false
  | JStr s => (String.length (trim s) =? 0)%nat
  | _ => true
  end.

(** [v !== undefined ? f(v) : unset], for a field of the update: [None]
    leaves the column as it is. *)
Definition givenText (f : string -> string) (v : JsVal) : option (option string) :=
  match v with
  | JUndefined => Some None
  | JStr s => Some (Some (f s))
  | _ => None
  end.

Definition orKeep (new : option string) (old : string) : string :=
  match new with Some x => x | None => old end.

Module Profile.

(** GET /api/profile (the answer keeps the whole user row where the handler
    selects six of its columns). *)
Definition GET (session : Session) : Reader User.t :=
  tryCatchRows (
    match sessionUserId session with
    | None => ret (Refused (error "Unauthorized" 401))
    | Some uid =>
        user <- query (fun d => find (fun u => User.id u =? uid) (users d)) ;;
        match user with
        | None => ret (Refused (error "User not found" 404))
        | Some u => ret (Listed u)
        end
    end).

(** PUT /api/profile; [sessionEmail] is [session.user.email]. The answer is
    the row that the update returned, if any. *)
Definition PUT (session : Session) (sessionEmail : option string)
  (request : option JsVal) : Reader (option User.t) :=
  tryCatchRows (
    match sessionUserId session with
    | None => ret (Refused (error "Unauthorized" 401))
    | Some uid =>
        body <- requestJson request ;;
        name <- orThrow (prop "name" body) ;;
        email <- orThrow (prop "email" body) ;;
        if givenButBlank name
        then ret (Refused (error "Name must be a non-empty string" 400))
        else if givenButBlank email
        then ret (Refused (error "Email must be a non-empty string" 400))
        else
          taken <-
            match email with
            | JStr s =>
                if truthy email &&
                   negb match sessionEmail with
                        | Some mine => s =? mine
                        | None => false
                        end
                then
                  existingUser <- query (fun d =>
                    find (fun u => User.email u =? s) (users d)) ;;
                  ret (match existingUser with Some _ => true | None => false end)
                else ret false
            | _ => ret false
            end ;;
          if taken
          then ret (Refused (error "Email is already in use" 400))
          else
            name' <- orThrow (givenText trim name) ;;
            email' <- orThrow (givenText (fun s => toLowerCase (trim s)) email) ;;
            t <- now ;;
            updated <- stmt (fun _ _ d =>
              let '(rows, returned) :=
                updateRows (fun u => User.id u =? uid)
                  (fun u => User.mk (User.id u) (orKeep email' (User.email u))
                              (orKeep name' (User.name u)) (User.image u)
                              (User.emailVerified u) (User.createdAt u) t)
                  (users d) in
              (returned, setUsers rows d)) ;;
            ret (Listed (hd_error updated))
    end).

End Profile.

(** ** [lib/auth.ts]: the demo credentials *)

Record Credentials := mkCredentials {
  cred_email : option string;
  cred_password : option string }.

(** [!x] for an optional text. *)
Definition missing (x : option string) : bool :=
  match x with
  | Some s => s =? ""
  | None => true
  end.

Definition demoEmail : string := "demo@example.com".

(** [authorize(credentials)]: the signed-in user (id, email, name), or
    [None] for [null]. Its own [try]/[catch] turns a raise into [null]. *)
Definition authorize (credentials : option Credentials)
  : Env -> Db -> option (Id * string * string) * Db :=
  fun env d =>
    match credentials with
    | None => (None, d)
    | Some c =>
        if missing (cred_email c) || missing (cred_password c) then (None, d)
        else
          match cred_email c with
          | Some email =>
              if toLowerCase email =? demoEmail
              then
                match
                  (user <- query (fun d =>
                     find (fun u => User.email u =? demoEmail) (users d)) ;;
                   match user with
                   | None =>
                       verified <- now ;;
                       newUser <- stmt (fun id t d =>
                         let row :=
                           User.mk id demoEmail "Demo User" None (Some verified)
                             t t in
                         (row, setUsers (users d ++ [row]) d)) ;;
                       ret (User.id newUser, User.email newUser,
                            User.name newUser)
                   | Some u =>
                       ret (User.id u, User.email u,
                            if User.name u =? "" then "Demo User"
                            else User.name u)
                   end) env (mkWorld d 0)
                with
                | Ret r w => (Some r, db w)
                | Raise w => (None, db w)
                end
              else (None, d)
          | None => (None, d)
          end
    end.

(** ** The API as a whole *)

Inductive Request : Type :=
| FamiliesGET
| FamiliesPOST (request : option JsVal)
| FamilyGET (id : Id)
| FamilyPUT (id : Id) (request : option JsVal)
| FamilyDELETE (id : Id)
| MembersPOST (id : Id) (request : option JsVal)
| MembersDELETE (id : Id)
| EventsPOST (request : option JsVal)
| EventGET (id : Id)
| EventPUT (id : Id) (request : option JsVal)
| EventDELETE (id : Id)
| PrivacyGET (id : Id)
| PrivacyPOST (id : Id) (request : option JsVal)
| PrivacyDELETE (id : Id) (request : option JsVal)
| ContributorsGET (id : Id)
| ContributorsPOST (id : Id) (request : option JsVal)
| ContributorsDELETE (id : Id) (request : option JsVal)
| CommentsGET (id : Id)
| CommentsPOST (id : Id) (request : option JsVal)
| CommentsDELETE (id : Id) (request : option JsVal)
| CommentsPUT (id : Id) (request : option JsVal)
| MediaGET (id : Id)
| MediaPOST (id : Id) (request : option JsVal)
| MediaDELETE (id : Id) (request : option JsVal)
| NotificationsPOST (request : option JsVal)
| NotificationsPUT (request : option JsVal)
| NotificationsDELETE (request : option JsVal).

Definition handle (session : Session) (req : Request) : Handler :=
  match req with
  | FamiliesGET => Families.GET session
  | FamiliesPOST request => Families.POST session request
  | FamilyGET id => FamilyById.GET session id
  | FamilyPUT id request => FamilyById.PUT session id request
  | FamilyDELETE id => FamilyById.DELETE session id
  | MembersPOST id request => FamilyMembers.POST session id request
  | MembersDELETE _ => FamilyMembers.DELETE
  | EventsPOST request => Events.POST session request
  | EventGET id => EventById.GET session id
  | EventPUT id request => EventById.PUT session id request
  | EventDELETE id => EventById.DELETE session id
  | PrivacyGET id => PrivacyRoute.GET session id
  | PrivacyPOST id request => PrivacyRoute.POST session id request
  | PrivacyDELETE id request => PrivacyRoute.DELETE session id request
  | ContributorsGET id => ContributorsRoute.GET session id
  | ContributorsPOST id request => ContributorsRoute.POST session id request
  | ContributorsDELETE id request => ContributorsRoute.DELETE session id request
  | CommentsGET id => CommentsRoute.GET session id
  | CommentsPOST id request => CommentsRoute.POST session id request
  | CommentsDELETE id request => CommentsRoute.DELETE session id request
  | CommentsPUT id request => CommentsRoute.PUT session id request
  | MediaGET id => MediaRoute.GET session id
  | MediaPOST id request => MediaRoute.POST session id request
  | MediaDELETE id request => MediaRoute.DELETE session id request
  | NotificationsPOST request => NotificationsRoute.POST session request
  | NotificationsPUT request => NotificationsRoute.PUT session request
  | NotificationsDELETE request => NotificationsRoute.DELETE session request
  end.

(** The states the API can reach: from the empty tables, by answering
    requests and by the sign-up of users, which the authentication library
    does on the users table alone. *)
Inductive reachable : Db -> Prop :=
| reach_empty : reachable emptyDb
| reach_users d us : reachable d -> reachable (setUsers us d)
| reach_handle d session req env :
    reachable d -> reachable (snd (handle session req env d)).

(** The event a request is scoped to, with the kind of route: [true] for the
    routes of an event's comments, media, contributors and privacy settings,
    [false] for the route of the event itself. *)
Definition eventScope (req : Request) : option (Id * bool) :=
  match req with
  | EventGET id | EventPUT id _ | EventDELETE id => Some (id, false)
  | PrivacyGET id | PrivacyPOST id _ | PrivacyDELETE id _
  | ContributorsGET id | ContributorsPOST id _ | ContributorsDELETE id _
  | CommentsGET id | CommentsPOST id _ | CommentsDELETE id _ | CommentsPUT id _
  | MediaGET id | MediaPOST id _ | MediaDELETE id _ => Some (id, true)
  | _ => None
  end.

Definition isSome {A} (o : option A) : bool :=
  match o with Some _ => true | None => false end.

(** A body that [request.json()] yields and that can be destructured. *)
Definition readable (request : option JsVal) : bool :=
  match request with
  | Some JNull | Some JUndefined | None => false
  | Some _ => true
  end.

Definition parses {A} (schema : Env -> JsVal -> option A) (env : Env)
  (request : option JsVal) : bool :=
  match request with
  | Some body => isSome (schema env body)
  | None => false
  end.

(** Whether an event-scoped request gets past the reading and the validation
    of its body, which the handlers do before they look anything up. *)
Definition accepted (env : Env) (req : Request) : bool :=
  match req with
  | EventPUT _ request =>
      match request with
      | Some body =>
          match prop "title" body, prop "date" body with
          | Some title, Some date => negb (blankText title) && truthy date
          | _, _ => false
          end
      | None => false
      end
  | PrivacyPOST _ request => parses PrivacySettingsSchema env request
  | ContributorsPOST _ request => parses EventContributorSchema env request
  | CommentsPOST _ request => parses CommentSchema env request
  | MediaPOST _ request => parses MediaUploadSchema env request
  | CommentsPUT _ request =>
      match request with
      | Some body =>
          match prop "content" body with
          | Some content => isSome (CommentContentSchema env content)
          | None => false
          end
      | None => false
      end
  | PrivacyDELETE _ request | ContributorsDELETE _ request
  | CommentsDELETE _ request | MediaDELETE _ request => readable request
  | _ => true
  end.

(** ** The vocabulary of the properties *)

(** No statement of the request raises. *)
Definition noFault (env : Env) : Prop := forall n, fault env n = false.

(** The request carries the session of the user [uid]. *)
Definition signedIn (session : Session) (uid : Id) : Prop :=
  session = Some uid /\ uid <> "".

(** The value that destructuring reads at a key of a readable body. *)
Definition valueOf (k : string) (body : JsVal) : JsVal :=
  match prop k body with Some v => v | None => JUndefined end.

(** The creator of every event holds a membership row in the family of the
    event. *)
Definition creatorsAreMembers (d : Db) : Prop :=
  forall e, In e (events d) ->
    exists m, In m (familyMembers d) /\
              FamilyMember.familyId m = Event.familyId e /\
              FamilyMember.userId m = Event.createdById e.

(** Every membership row refers to a family row. *)
Definition membersHaveFamily (d : Db) : Prop :=
  forall m, In m (familyMembers d) ->
    exists f, In f (families d) /\ Family.id f = FamilyMember.familyId m.

Definition consistent (d : Db) : Prop :=
  creatorsAreMembers d /\ membersHaveFamily d.

(** The tables, and the ones a request may write to: its own, and for the
    deletion of an event or of a family the ones that the cascade reaches. *)
Inductive Table : Type :=
| TUsers | TFamilies | TFamilyMembers | TEvents | TMedia | TComments
| TEventContributors | TNotifications | TEventPrivacy.

Definition sameTable (t : Table) (d d' : Db) : Prop :=
  match t with
  | TUsers => users d' = users d
  | TFamilies => families d' = families d
  | TFamilyMembers => familyMembers d' = familyMembers d
  | TEvents => events d' = events d
  | TMedia => media d' = media d
  | TComments => comments d' = comments d
  | TEventContributors => eventContributors d' = eventContributors d
  | TNotifications => notifications d' = notifications d
  | TEventPrivacy => eventPrivacy d' = eventPrivacy d
  end.

Definition ofEvent (t : Table) : bool :=
  match t with
  | TEvents | TMedia | TComments | TEventContributors | TEventPrivacy => true
  | _ => false
  end.

Definition mayWrite (req : Request) (t : Table) : bool :=
  match req, t with
  | FamiliesPOST _, (TFamilies | TFamilyMembers) => true
  | FamilyPUT _ _, TFamilies => true
  | FamilyDELETE _, (TFamilies | TFamilyMembers) => true
  | FamilyDELETE _, _ => ofEvent t
  | MembersPOST _ _, TFamilyMembers => true
  | (EventsPOST _ | EventPUT _ _), TEvents => true
  | EventDELETE _, _ => ofEvent t
  | (PrivacyPOST _ _ | PrivacyDELETE _ _), TEventPrivacy => true
  | (ContributorsPOST _ _ | ContributorsDELETE _ _), TEventContributors => true
  | (CommentsPOST _ _ | CommentsDELETE _ _ | CommentsPUT _ _), TComments => true
  | (MediaPOST _ _ | MediaDELETE _ _), TMedia => true
  | (NotificationsPOST _ | NotificationsPUT _ | NotificationsDELETE _),
    TNotifications => true
  | _, _ => false
  end.

(** Each row of the listing comes before the next in the order [le]. *)
Fixpoint ordered {A} (le : A -> A -> bool) (l : list A) : Prop :=
  match l with
  | x :: ((y :: _) as rest) => le x y = true /\ ordered le rest
  | _ => True
  end.


(** No comment that stays answers a comment that goes. The key of
    [parentId] has no cascade: the store carries out a deletion of the
    comments [gone] in such a state, and refuses it in any other. *)
Definition repliesWithin (gone : Comment.t -> bool) (d : Db) : Prop :=
  forall r p, In r (comments d) -> In p (comments d) -> gone p = true ->
              Comment.parentId r = Some (Comment.id p) -> gone r = true.

(** The texts and numbers that the validation of the handlers lets into the
    tables. *)
Definition allRows {A} (P : A -> Prop) (l : list A) : Prop :=
  forall x, In x l -> P x.

Definition lengthWithin (lo hi : nat) (s : string) : Prop :=
  (lo <= String.length s <= hi)%nat.

Definition validated (d : Db) : Prop :=
  allRows (fun f => Family.name f <> "" /\ Family.description f <> Some "")
          (families d)
  /\ allRows (fun e => Event.title e <> "" /\ Event.description e <> Some "" /\
                       Event.location e <> Some "")
             (events d)
  /\ allRows (fun c => lengthWithin 1 1000 (Comment.content c)) (comments d)
  /\ allRows (fun x => Media.filename x <> "" /\ Media.originalName x <> "" /\
                       Media.mimeType x <> "" /\ (0 < Media.size x)%Z)
             (media d)
  /\ allRows (fun n => lengthWithin 1 100 (Notification.title n) /\
                       lengthWithin 1 500 (Notification.message n))
             (notifications d).

(** ** A scenario

    Family A with alice as admin and bob as member; alice creates event E,
    makes bob a contributor with the default grants (canEdit only) and
    comments; bob uploads a media. carol has signed up and is in no family.
    Each state is reached by the request named in its definition. *)

Definition oracle (prefix : string) (faulty : nat -> bool) : Env :=
  mkEnv (fun _ => true) (fun _ => true) (fun _ => Some 0%Z) faulty
        (fun n => String.append prefix (String (ascii_of_nat (48 + n)) ""))
        (fun n => Z.of_nat n) toLowerCase.

Definition never : nat -> bool := fun _ => false.

Definition quiet : Env := oracle "row-" never.

Definition person (id : Id) (email name : string) : User.t :=
  User.mk id email name None None 0%Z 0%Z.

Definition signedUp : Db :=
  setUsers [person "alice" "alice@example.org" "Alice";
            person "bob" "bob@example.org" "Bob";
            person "carol" "carol@example.org" "Carol"] emptyDb.

Definition familyBody : JsVal := JObj [("name", JStr "A")].

Definition withFamily : Db :=
  snd (handle (Some "alice") (FamiliesPOST (Some familyBody))
         (oracle "family-" never) signedUp).

Definition withBob : Db :=
  snd (handle (Some "alice")
         (MembersPOST "family-0" (Some (JObj [("email", JStr "bob@example.org")])))
         (oracle "member-" never) withFamily).

Definition withEvent : Db :=
  snd (handle (Some "alice")
         (EventsPOST (Some (JObj [("title", JStr "E");
                                  ("date", JStr "2024-05-01");
                                  ("familyId", JStr "family-0")])))
         (oracle "event-" never) withBob).

Definition withContributor : Db :=
  snd (handle (Some "alice")
         (ContributorsPOST "event-1" (Some (JObj [("userId", JStr "bob")])))
         (oracle "contributor-" never) withEvent).

Definition commentBody : JsVal := JObj [("content", JStr "What a day")].

Definition withComment : Db :=
  snd (handle (Some "alice") (CommentsPOST "event-1" (Some commentBody))
         (oracle "comment-" never) withContributor).

Definition mediaBody : JsVal :=
  JObj [("filename", JStr "a.jpg"); ("originalName", JStr "a.jpg");
        ("mimeType", JStr "image/jpeg"); ("size", JNum 1024)].

Definition scenario : Db :=
  snd (handle (Some "bob") (MediaPOST "event-1" (Some mediaBody))
         (oracle "media-" never) withComment).


(** The rows of event E and of alice's membership in that state. *)
Definition eventE : Event.t :=
  Event.mk "event-1" "E" None 0%Z None "family-0" "alice" (JStr "other")
    (JArr []) false 1%Z 1%Z.

Definition aliceMembership : FamilyMember.t :=
  FamilyMember.mk "family-1" "family-0" "alice" admin 1%Z.

Definition bobMembership : FamilyMember.t :=
  FamilyMember.mk "member-3" "family-0" "bob" member 3%Z.

Definition bobMedia : Media.t :=
  Media.mk "media-3" "event-1" "bob" "a.jpg" "a.jpg" "image/jpeg" 1024%Z
    None None false 3%Z.

(** Four notifications, three of alice and one of bob, on top of the
    scenario; the third is read. *)
Definition note (id uid : Id) (read : bool) (t : Timestamp) : Notification.t :=
  Notification.mk id uid system "Hello" "Welcome" None None read t t.

Definition notified : Db :=
  setNotifications [note "note-1" "alice" false 5%Z; note "note-2" "bob" false 6%Z;
                    note "note-3" "alice" true 9%Z; note "note-4" "alice" false 7%Z]
    scenario.



(** The state left by a creation of family A whose second insert raises. *)
Definition orphaned : Db :=
  snd (handle (Some "alice") (FamiliesPOST (Some familyBody))
         (oracle "family-" (fun n => (n =? 1)%nat)) signedUp).

(** * Properties *)

(** ** Running a handler *)

Lemma sessionUserId_signedIn session uid :
  signedIn session uid -> sessionUserId session = Some uid.
Proof.
  intros [-> Hne]. unfold sessionUserId.
  destruct (String.eqb_spec uid ""); [contradiction | reflexivity].
Qed.

Arguments findEvent : simpl never.
Arguments findMembership : simpl never.
Arguments findContributor : simpl never.
Arguments findUser : simpl never.
Arguments eventOfMember : simpl never.
Arguments eventDetailOfMember : simpl never.

Ltac runM :=
  unfold tryCatch, bind, query, stmt, requestJson, orThrow, safeParse, now,
    asks, dateOf, ret, raise; cbn.

Arguments PrivacySettingsSchema : simpl never.
Arguments EventContributorSchema : simpl never.
Arguments CommentSchema : simpl never.
Arguments CommentContentSchema : simpl never.
Arguments MediaUploadSchema : simpl never.
Arguments NotificationSchema : simpl never.
Arguments NotificationReadSchema : simpl never.
Arguments NotificationIdSchema : simpl never.
Arguments blankText : simpl never.
Arguments truthy : simpl never.
Arguments trimOf : simpl never.
Arguments trimOrNull : simpl never.
Arguments prop : simpl never.
Arguments idEq : simpl never.
Arguments sqlEq : simpl never.

(** Rewrites with the facts at hand until the handler has run. *)
Ltac known :=
  repeat first
    [ progress cbn
    | match goal with
      | H : noFault ?env |- context [fault ?env ?n] => rewrite (H n)
      | H : forall k, prop k ?b = _ |- context [prop ?k ?b] => rewrite (H k)
      | H : ?x = _ |- context [?x] => rewrite H
      | |- context [String.eqb ?a ?a] => rewrite (String.eqb_refl a)
      | |- context [let (_, _) := ?p in _] => destruct p
      end ].

(** Splits on every test that the handler still has to take. *)
Ltac innermost x :=
  match x with
  | context [match ?y with _ => _ end] => innermost y
  | _ =>
      lazymatch type of x with
      | Db => fail
      | World => fail
      | _ => destruct x eqn:?
      end
  end.

Ltac explore :=
  repeat (match goal with
          | |- context [match ?x with _ => _ end] => innermost x
          end; cbn).

Ltac enter Hs :=
  unfold tryCatch; rewrite (sessionUserId_signedIn _ _ Hs); runM.

Lemma find_none_filter {A} (p : A -> bool) l :
  find p l = None -> filter p l = [].
Proof.
  induction l as [|x l IH]; cbn; [reflexivity|].
  destruct (p x); [discriminate | exact IH].
Qed.

Lemma prop_readable k body v :
  prop k body = Some v -> forall k', prop k' body = Some (valueOf k' body).
Proof.
  unfold valueOf. destruct body; cbn; intros H k'; try discriminate; reflexivity.
Qed.

Lemma readable_inv request :
  readable request = true ->
  exists body, request = Some body /\
               forall k, prop k body = Some (valueOf k body).
Proof.
  destruct request as [body|]; [|discriminate].
  intros H. exists body. split; [reflexivity|].
  destruct body; try discriminate; intros k; reflexivity.
Qed.

Lemma parses_some {A} (schema : Env -> JsVal -> option A) env request :
  parses schema env request = true ->
  exists body data, request = Some body /\ schema env body = Some data.
Proof.
  destruct request as [body|]; cbn; [|discriminate].
  destruct (schema env body) as [data|] eqn:E; [|discriminate].
  intros _. eauto.
Qed.

Lemma isSome_inv {A} (o : option A) : isSome o = true -> exists a, o = Some a.
Proof. destruct o; [eauto | discriminate]. Qed.

Lemma eventOfMember_missing eventId uid d :
  findEvent eventId d = None ->
  eventOfMember eventId uid d = [] /\ eventDetailOfMember eventId uid d = [].
Proof.
  intros H. unfold eventOfMember, eventDetailOfMember.
  rewrite (find_none_filter _ _ H). split; reflexivity.
Qed.

(** What the validation of an accepted body yields, request by request. *)
Ltac accept Hacc :=
  cbn [accepted] in Hacc;
  first
    [ apply parses_some in Hacc;
      let body := fresh "body" in
      let data := fresh "data" in
      let Hdata := fresh "Hdata" in
      destruct Hacc as (body & data & -> & Hdata)
    | apply readable_inv in Hacc;
      let body := fresh "body" in
      let Hprop := fresh "Hprop" in
      destruct Hacc as (body & -> & Hprop)
    | match type of Hacc with
      | match ?request with _ => _ end = true =>
          let body := fresh "body" in
          destruct request as [body|]; [|discriminate Hacc];
          repeat match type of Hacc with
                 | match prop ?k body with _ => _ end = true =>
                     let v := fresh "v" in
                     let Hv := fresh "Hv" in
                     destruct (prop k body) as [v|] eqn:Hv;
                     [|discriminate Hacc]
                 end;
          let Hprop := fresh "Hprop" in
          match goal with
          | Hv : prop _ body = Some _ |- _ =>
              pose proof (prop_readable _ _ _ Hv) as Hprop
          end;
          repeat match goal with
                 | Hv : prop ?k body = Some ?v |- _ =>
                     rewrite (Hprop k) in Hv; injection Hv as <-
                 end;
          first
            [ apply andb_true_iff in Hacc;
              let Ha := fresh "Htitle" in
              let Hb := fresh "Hdate" in
              destruct Hacc as [Ha Hb]; apply negb_true_iff in Ha
            | apply isSome_inv in Hacc;
              let data := fresh "data" in
              let Hdata := fresh "Hdata" in
              destruct Hacc as [data Hdata] ]
      end
    | idtac ].

(** ** The event is looked up first *)

(** Every handler scoped to an event answers 404 when the event is absent,
    before it looks at the membership or at any permission of the caller. *)
Lemma event_missing_not_found env session uid req eventId sub d :
  noFault env -> signedIn session uid ->
  eventScope req = Some (eventId, sub) -> accepted env req = true ->
  findEvent eventId d = None ->
  handle session req env d = (error "Event not found" 404, d).
Proof.
  intros Hnf Hs Hsc Hacc Hev.
  destruct (eventOfMember_missing _ uid _ Hev) as [Hjoin Hjoin'].
  destruct req; cbn in Hsc; try discriminate; injection Hsc as -> <-;
    accept Hacc; cbn [handle].
  all: match goal with
       | |- ?h _ _ _ _ _ = _ => unfold h
       | |- ?h _ _ _ _ = _ => unfold h
       end; enter Hs; known; reflexivity.
Qed.

(** ** The membership gate *)

Lemma find_unique_filter {A} (key : A -> Id) (x : Id) l e :
  NoDup (map key l) ->
  find (fun a => key a =? x) l = Some e ->
  filter (fun a => key a =? x) l = [e].
Proof.
  induction l as [|a l IH]; cbn; [discriminate|].
  intros Hnd Hfind. inversion Hnd as [|? ? Hnotin Hnd']; subst.
  destruct (String.eqb_spec (key a) x) as [Heq|Hne].
  - injection Hfind as ->. f_equal.
    apply find_none_filter.
    destruct (find (fun a => key a =? x) l) as [b|] eqn:Hb; [|reflexivity].
    apply find_some in Hb. destruct Hb as [Hin Hkb].
    apply String.eqb_eq in Hkb. exfalso. apply Hnotin.
    rewrite Heq, <- Hkb. apply in_map. exact Hin.
  - apply IH; assumption.
Qed.

Lemma flat_map_nil {A B} (f : A -> list B) l :
  (forall a, In a l -> f a = []) -> flat_map f l = [].
Proof.
  induction l as [|a l IH]; cbn; intros H; [reflexivity|].
  rewrite (H a) by (left; reflexivity). apply IH.
  intros b Hb. apply H. right. exact Hb.
Qed.

Lemma no_membership_filter familyId uid d f :
  findMembership familyId uid d = None ->
  familyId = Family.id f ->
  filter (fun m => (Family.id f =? FamilyMember.familyId m) &&
                   (FamilyMember.userId m =? uid)) (familyMembers d) = [].
Proof.
  intros Hnone ->. unfold findMembership in Hnone.
  rewrite <- (find_none_filter _ _ Hnone).
  apply filter_ext. intros m. rewrite String.eqb_sym. reflexivity.
Qed.

(** Without a membership row in the family of the event, the joins of the
    single-event handlers select nothing. *)
Lemma joins_of_outsider eventId uid e d :
  NoDup (map Event.id (events d)) ->
  findEvent eventId d = Some e ->
  findMembership (Event.familyId e) uid d = None ->
  eventOfMember eventId uid d = [] /\ eventDetailOfMember eventId uid d = [].
Proof.
  intros Hnd Hev Hmem. unfold eventOfMember, eventDetailOfMember.
  rewrite (find_unique_filter Event.id eventId _ e Hnd Hev). cbn.
  rewrite !app_nil_r. split; apply flat_map_nil; intros f Hf;
    apply filter_In in Hf; destruct Hf as [_ Hf]; apply String.eqb_eq in Hf.
  - rewrite (no_membership_filter _ _ _ f Hmem Hf). reflexivity.
  - apply flat_map_nil. intros u _.
    rewrite (no_membership_filter _ _ _ f Hmem Hf). reflexivity.
Qed.

(** C4, as amended. A signed-in user without a FamilyMember row in the
    family of an event is refused by every handler scoped to that event,
    whatever contributor or privacy rows the user has: the handlers of the
    event's comments, media, contributors and privacy settings answer 403
    "Access denied"; the handlers that read, update and delete the event
    itself answer 404 "Event not found". Nothing is written. *)
Theorem outsider_is_refused env session uid req eventId sub e d :
  noFault env -> signedIn session uid ->
  eventScope req = Some (eventId, sub) -> accepted env req = true ->
  NoDup (map Event.id (events d)) ->
  findEvent eventId d = Some e ->
  findMembership (Event.familyId e) uid d = None ->
  handle session req env d =
    (if sub then error "Access denied" 403 else error "Event not found" 404, d).
Proof.
  intros Hnf Hs Hsc Hacc Hnd Hev Hmem.
  destruct (joins_of_outsider _ _ _ _ Hnd Hev Hmem) as [Hjoin Hjoin'].
  destruct req; cbn in Hsc; try discriminate; injection Hsc as -> <-;
    accept Hacc; cbn [handle].
  all: match goal with
       | |- ?h _ _ _ _ _ = _ => unfold h
       | |- ?h _ _ _ _ = _ => unfold h
       end; enter Hs; known; reflexivity.
Qed.

(** ** The creator of an event *)

(** C3. A signed-in user who created the event and holds a membership row
    in its family passes the permission check of every content action, with
    no contributor or privacy row: the comment and the media are inserted
    (201); the contributor is inserted (201) unless the target already is
    one (409); the media is deleted (200) unless no such media exists (404).
    No answer is a 403. *)
Theorem creator_is_permitted env session uid eventId e m d :
  noFault env -> signedIn session uid ->
  findEvent eventId d = Some e ->
  Event.createdById e = uid ->
  findMembership (Event.familyId e) uid d = Some m ->
  (forall body content parentId,
      CommentSchema env body = Some (content, parentId) ->
      CommentsRoute.POST session eventId (Some body) env d =
        let row := Comment.mk (uuid env 2) eventId uid content parentId false
                     (clock env 2) (clock env 2) in
        (json (PComment (Some row)) 201, setComments (comments d ++ [row]) d))
  /\ (forall body data,
      MediaUploadSchema env body = Some data ->
      MediaRoute.POST session eventId (Some body) env d =
        let row := Media.mk (uuid env 2) eventId uid (mu_filename data)
                     (mu_originalName data) (mu_mimeType data) (mu_size data)
                     (mu_url data) (mu_altText data) (mu_isPublic data)
                     (clock env 2) in
        (json (PMedia (Some row)) 201, setMedia (media d ++ [row]) d))
  /\ (forall body data,
      EventContributorSchema env body = Some data ->
      ContributorsRoute.POST session eventId (Some body) env d =
        match findContributor eventId (ci_userId data) anyRow d with
        | Some _ => (error "User is already a contributor" 409, d)
        | None =>
            let row := EventContributor.mk (uuid env 3) eventId (ci_userId data)
                         (ci_role data) uid (ci_canEdit data) (ci_canDelete data)
                         (ci_canInvite data) (clock env 3) in
            (json (PContributor (Some row)) 201,
             setEventContributors (eventContributors d ++ [row]) d)
        end)
  /\ (forall request,
      readable request = true ->
      MediaRoute.DELETE session eventId request env d =
        let mediaId := match request with
                       | Some body => valueOf "mediaId" body
                       | None => JUndefined
                       end in
        match find (fun x => idEq (Media.id x) mediaId &&
                             (Media.eventId x =? eventId)) (media d) with
        | Some _ =>
            (json PSuccess 200,
             setMedia (keep (fun x => idEq (Media.id x) mediaId) (media d)) d)
        | None => (error "Media not found" 404, d)
        end).
Proof.
  intros Hnf Hs Hev <- Hmem.
  pose proof (String.eqb_refl (Event.createdById e)) as Hself.
  repeat split.
  - intros body content parentId Hbody.
    unfold CommentsRoute.POST. enter Hs. known. reflexivity.
  - intros body data Hbody.
    unfold MediaRoute.POST. enter Hs. known. reflexivity.
  - intros body data Hbody.
    unfold ContributorsRoute.POST. enter Hs. known.
    destruct (findContributor eventId (ci_userId data) anyRow d); known;
      reflexivity.
  - intros request Hread. apply readable_inv in Hread.
    destruct Hread as (body & -> & Hprop).
    unfold MediaRoute.DELETE. enter Hs. known.
    destruct (find _ (media d)); known; reflexivity.
Qed.

(** ** Deleting media *)

Lemma findContributor_spec eventId uid flag d :
  isSome (findContributor eventId uid flag d) = true <->
  exists c, In c (eventContributors d) /\
            EventContributor.eventId c = eventId /\
            EventContributor.userId c = uid /\ flag c = true.
Proof.
  unfold findContributor. split.
  - intros H. apply isSome_inv in H. destruct H as [c Hc].
    apply find_some in Hc. destruct Hc as [Hin Hc].
    apply andb_true_iff in Hc. destruct Hc as [Hc Hflag].
    apply andb_true_iff in Hc. destruct Hc as [He Hu].
    apply String.eqb_eq in He, Hu. eauto.
  - intros (c & Hin & He & Hu & Hflag).
    destruct (find _ (eventContributors d)) eqn:Hfind; [reflexivity|].
    pose proof (find_none _ _ Hfind c Hin) as Hno. cbn in Hno.
    rewrite He, Hu, !String.eqb_refl, Hflag in Hno. discriminate.
Qed.

(** C5, as amended. For a family member and a media row of the event, the
    deletion is permitted if and only if the caller created the event or has
    an EventContributor row on it with canDelete set; a caller who is refused
    gets 403 "Permission denied" and the media stays. Having uploaded the
    media plays no part: the row [x] is any row, the caller's own included. *)
Theorem media_delete_permission env session uid eventId e m body mediaId x d :
  noFault env -> signedIn session uid ->
  prop "mediaId" body = Some mediaId ->
  findEvent eventId d = Some e ->
  findMembership (Event.familyId e) uid d = Some m ->
  find (fun x => idEq (Media.id x) mediaId && (Media.eventId x =? eventId))
       (media d) = Some x ->
  let permitted :=
    Event.createdById e = uid \/
    exists c, In c (eventContributors d) /\
              EventContributor.eventId c = eventId /\
              EventContributor.userId c = uid /\
              EventContributor.canDelete c = true in
  (permitted ->
   MediaRoute.DELETE session eventId (Some body) env d =
     (json PSuccess 200,
      setMedia (keep (fun x => idEq (Media.id x) mediaId) (media d)) d))
  /\ (~ permitted ->
      MediaRoute.DELETE session eventId (Some body) env d =
        (error "Permission denied" 403, d)).
Proof.
  intros Hnf Hs Hbody Hev Hmem Hx permitted. subst permitted.
  unfold MediaRoute.DELETE. enter Hs. known.
  destruct (String.eqb_spec (Event.createdById e) uid) as [Hc|Hc].
  - known. split; [reflexivity | intros Hno; exfalso; apply Hno; left; reflexivity].
  - known.
    destruct (findContributor eventId uid EventContributor.canDelete d) as [c|]
      eqn:Hfind; known.
    + split; [reflexivity|]. intros Hno. exfalso. apply Hno. right.
      apply findContributor_spec. rewrite Hfind. reflexivity.
    + split; [|reflexivity]. intros [Hyes|Hyes]; [contradiction|].
      apply findContributor_spec in Hyes. rewrite Hfind in Hyes. discriminate.
Qed.

(** ** Removing a contributor *)


(** ** Updating a comment *)

Lemma comment_of_other_not_found uid eventId commentId d :
  (forall c, In c (comments d) -> idEq (Comment.id c) commentId = true ->
             Comment.authorId c <> uid) ->
  find (fun c => idEq (Comment.id c) commentId &&
                 (Comment.eventId c =? eventId) &&
                 (Comment.authorId c =? uid)) (comments d) = None.
Proof.
  intros Hother.
  destruct (find _ (comments d)) as [c|] eqn:Hfind; [|reflexivity].
  apply find_some in Hfind. destruct Hfind as [Hin Hc].
  apply andb_true_iff in Hc. destruct Hc as [Hc Hauthor].
  apply andb_true_iff in Hc. destruct Hc as [Hid _].
  apply String.eqb_eq in Hauthor.
  exfalso. exact (Hother c Hin Hid Hauthor).
Qed.

(** Whatever the store does, the update of a comment by a user who did not
    write it leaves every table as it was. *)
Lemma comment_update_by_other_writes_nothing env session uid eventId body
  commentId d :
  sessionUserId session = Some uid ->
  prop "commentId" body = Some commentId ->
  (forall c, In c (comments d) -> idEq (Comment.id c) commentId = true ->
             Comment.authorId c <> uid) ->
  snd (CommentsRoute.PUT session eventId (Some body) env d) = d.
Proof.
  intros Hs Hid Hother.
  pose proof (comment_of_other_not_found uid eventId commentId d Hother) as Hnone.
  unfold CommentsRoute.PUT, tryCatch. rewrite Hs. runM. rewrite Hid. cbn.
  explore; try reflexivity; discriminate Hnone.
Qed.

(** C8, as amended. A signed-in user who is not the author of the comment
    cannot update it, whether or not the user created the event and whatever
    contributor row (canEdit included) the user has: the handler looks for a
    comment with that id written by the caller, finds none and answers 404
    "Comment not found or access denied" (403 "Access denied" when the
    caller is not in the family). The comment, like every other row, is left
    as it was, also when the store fails. *)
Theorem comment_update_by_other env session uid eventId e body commentId
  content text d :
  noFault env -> signedIn session uid ->
  prop "commentId" body = Some commentId ->
  prop "content" body = Some content ->
  CommentContentSchema env content = Some text ->
  findEvent eventId d = Some e ->
  (forall c, In c (comments d) -> idEq (Comment.id c) commentId = true ->
             Comment.authorId c <> uid) ->
  CommentsRoute.PUT session eventId (Some body) env d =
    (match findMembership (Event.familyId e) uid d with
     | None => error "Access denied" 403
     | Some _ => error "Comment not found or access denied" 404
     end, d)
  /\ forall env', snd (CommentsRoute.PUT session eventId (Some body) env' d) = d.
Proof.
  intros Hnf Hs Hid Hcontent Htext Hev Hother.
  pose proof (comment_of_other_not_found uid eventId commentId d Hother) as Hnone.
  split.
  - unfold CommentsRoute.PUT. enter Hs. known.
    destruct (findMembership (Event.familyId e) uid d); known; reflexivity.
  - intros env'.
    apply comment_update_by_other_writes_nothing with uid commentId;
      auto using sessionUserId_signedIn.
Qed.

(** ** Notifications *)

(** Whatever the request and whatever the store does, a notification row
    that the creation handler adds carries the id of the signed-in caller. *)
Lemma notification_rows_after_post env session request d n :
  In n (notifications (snd (NotificationsRoute.POST session request env d))) ->
  In n (notifications d) \/ sessionUserId session = Some (Notification.userId n).
Proof.
  unfold NotificationsRoute.POST, tryCatch.
  destruct (sessionUserId session) as [uid|]; runM; [|auto].
  explore; auto.
  intros Hin. apply in_app_or in Hin. destruct Hin as [Hin|[<-|[]]]; auto.
Qed.

(** C10. The notification that the creation endpoint inserts for a signed-in
    caller and a valid body belongs to the caller: the handler answers 201
    with a row whose userId is the caller's id, and that row is the only one
    added. No request of the caller, whatever its body and whatever the
    store does, adds a notification row of another user. *)
Theorem notification_belongs_to_caller env session uid body data d :
  signedIn session uid ->
  NotificationSchema env body = Some data ->
  fault env 0 = false ->
  let row :=
    Notification.mk (uuid env 0) uid (ni_type data) (ni_title data)
      (ni_message data) (ni_referenceId data) (ni_referenceType data) false
      (clock env 0) (clock env 0) in
  NotificationsRoute.POST session (Some body) env d =
    (json (PNotification (Some row)) 201,
     setNotifications (notifications d ++ [row]) d)
  /\ Notification.userId row = uid
  /\ forall request env' n,
       In n (notifications (snd (NotificationsRoute.POST session request env' d))) ->
       In n (notifications d) \/ Notification.userId n = uid.
Proof.
  intros Hs Hdata Hf row. split; [|split; [reflexivity|]].
  - unfold NotificationsRoute.POST. enter Hs. known. reflexivity.
  - intros request env' n Hin.
    destruct (notification_rows_after_post env' session request d n Hin)
      as [Hold|Hnew]; [left; exact Hold|right].
    rewrite (sessionUserId_signedIn _ _ Hs) in Hnew.
    injection Hnew as ->. reflexivity.
Qed.

(** ** The privacy registry and the content actions *)

Lemma comment_post_ignores_privacy env session eventId request rows d :
  CommentsRoute.POST session eventId request env (setEventPrivacy rows d) =
    (fst (CommentsRoute.POST session eventId request env d),
     setEventPrivacy rows (snd (CommentsRoute.POST session eventId request env d))).
Proof.
  unfold CommentsRoute.POST, tryCatch.
  destruct (sessionUserId session) as [uid|]; runM; [|reflexivity].
  unfold findEvent, findMembership, findContributor; cbn.
  explore; reflexivity.
Qed.

Lemma media_post_ignores_privacy env session eventId request rows d :
  MediaRoute.POST session eventId request env (setEventPrivacy rows d) =
    (fst (MediaRoute.POST session eventId request env d),
     setEventPrivacy rows (snd (MediaRoute.POST session eventId request env d))).
Proof.
  unfold MediaRoute.POST, tryCatch.
  destruct (sessionUserId session) as [uid|]; runM; [|reflexivity].
  unfold findEvent, findMembership, findContributor; cbn.
  explore; reflexivity.
Qed.

(** C2, as amended. The decision on posting a comment and on uploading media
    is taken from the event (404 when absent), then the membership of the
    caller (403 "Access denied"), then the creator of the event, then the
    contributor rows (403 "Permission denied" without one). The EventPrivacy
    rows are never read: the answer is the same whatever rows [rows] the
    privacy table holds. *)
Theorem content_action_decision env session uid eventId rows d :
  noFault env -> signedIn session uid ->
  let decide (created : nat -> Payload) : Response :=
    match findEvent eventId d with
    | None => error "Event not found" 404
    | Some e =>
        match findMembership (Event.familyId e) uid d with
        | None => error "Access denied" 403
        | Some _ =>
            if Event.createdById e =? uid then json (created 2) 201
            else if isSome (findContributor eventId uid anyRow d)
                 then json (created 3) 201
                 else error "Permission denied" 403
        end
    end in
  (forall body content parentId,
      CommentSchema env body = Some (content, parentId) ->
      fst (CommentsRoute.POST session eventId (Some body) env
             (setEventPrivacy rows d)) =
        decide (fun n =>
          PComment (Some (Comment.mk (uuid env n) eventId uid content parentId
                            false (clock env n) (clock env n)))))
  /\ (forall body data,
      MediaUploadSchema env body = Some data ->
      fst (MediaRoute.POST session eventId (Some body) env
             (setEventPrivacy rows d)) =
        decide (fun n =>
          PMedia (Some (Media.mk (uuid env n) eventId uid (mu_filename data)
                          (mu_originalName data) (mu_mimeType data)
                          (mu_size data) (mu_url data) (mu_altText data)
                          (mu_isPublic data) (clock env n))))).
Proof.
  intros Hnf Hs decide. subst decide. split.
  - intros body content parentId Hbody.
    rewrite comment_post_ignores_privacy. cbn [fst].
    unfold CommentsRoute.POST. enter Hs. known.
    destruct (findEvent eventId d) as [e|]; known; [|reflexivity].
    destruct (findMembership (Event.familyId e) uid d); known; [|reflexivity].
    destruct (Event.createdById e =? uid); known; [reflexivity|].
    destruct (findContributor eventId uid anyRow d); known; reflexivity.
  - intros body data Hbody.
    rewrite media_post_ignores_privacy. cbn [fst].
    unfold MediaRoute.POST. enter Hs. known.
    destruct (findEvent eventId d) as [e|]; known; [|reflexivity].
    destruct (findMembership (Event.familyId e) uid d); known; [|reflexivity].
    destruct (Event.createdById e =? uid); known; [reflexivity|].
    destruct (findContributor eventId uid anyRow d); known; reflexivity.
Qed.

(** ** Creating a family *)

(** C7, as amended. The creation of a family issues two inserts, one after
    the other and in no transaction. When neither raises, the family row and
    the admin membership row of its creator are both added and the answer is
    201. When the first raises, nothing is added. When the second raises,
    the answer is 500 and the family row that the first insert added stays,
    with no membership row. *)
Theorem family_creation_two_inserts env session uid body name description d :
  signedIn session uid ->
  prop "name" body = Some (JStr name) ->
  blankText (JStr name) = false ->
  trimOrNull (valueOf "description" body) = Some description ->
  let family :=
    Family.mk (uuid env 0) (trim name) description uid defaultSettings
      (clock env 0) (clock env 0) in
  let membership :=
    FamilyMember.mk (uuid env 1) (uuid env 0) uid admin (clock env 1) in
  let created := setFamilies (families d ++ [family]) d in
  (fault env 0 = false -> fault env 1 = false ->
   Families.POST session (Some body) env d =
     (json (PFamily (Some family)) 201,
      setFamilyMembers (familyMembers d ++ [membership]) created))
  /\ (fault env 0 = true ->
      Families.POST session (Some body) env d =
        (error "Internal server error" 500, d))
  /\ (fault env 0 = false -> fault env 1 = true ->
      Families.POST session (Some body) env d =
        (error "Internal server error" 500, created)).
Proof.
  intros Hs Hname Hblank Hdescr family membership created.
  pose proof (prop_readable _ _ _ Hname) as Hprop.
  assert (Hv : valueOf "name" body = JStr name).
  { rewrite (Hprop "name") in Hname. injection Hname as ->. reflexivity. }
  assert (Htrim : trimOf (JStr name) = Some (trim name)) by reflexivity.
  repeat split; intros; unfold Families.POST; enter Hs; known; reflexivity.
Qed.

(** ** Two invariants of the reachable states *)

Lemma memId_In x l : memId x l = true <-> In x l.
Proof.
  unfold memId. rewrite existsb_exists. split.
  - intros (y & Hin & Heq). apply String.eqb_eq in Heq. subst. exact Hin.
  - intros Hin. exists x. split; [exact Hin | apply String.eqb_refl].
Qed.

Lemma keep_In {A} (gone : A -> bool) l x :
  In x (keep gone l) <-> In x l /\ gone x = false.
Proof.
  unfold keep. rewrite filter_In, negb_true_iff. reflexivity.
Qed.

Lemma consistent_frame d d' :
  events d' = events d -> familyMembers d' = familyMembers d ->
  families d' = families d ->
  consistent d -> consistent d'.
Proof.
  unfold consistent, creatorsAreMembers, membersHaveFamily.
  intros -> -> ->. auto.
Qed.

(** A handler that writes to none of the three tables keeps the invariant. *)
Ltac framed :=
  intros Hinv;
  unfold tryCatch;
  match goal with
  | |- context [sessionUserId ?s] => destruct (sessionUserId s)
  end;
  runM; explore; exact Hinv.

Lemma consistent_add_family d f :
  consistent d -> consistent (setFamilies (families d ++ [f]) d).
Proof.
  intros [Hc Hm]. split; [exact Hc|].
  intros m Hin. destruct (Hm m Hin) as (f' & Hf & Hid).
  exists f'. cbn. rewrite in_app_iff. auto.
Qed.

Lemma consistent_add_member d m :
  (exists f, In f (families d) /\ Family.id f = FamilyMember.familyId m) ->
  consistent d -> consistent (setFamilyMembers (familyMembers d ++ [m]) d).
Proof.
  intros Hf [Hc Hm]. split.
  - intros e He. destruct (Hc e He) as (m' & Hin & Hm1 & Hm2).
    exists m'. cbn. rewrite in_app_iff. auto.
  - intros m' Hin. cbn in Hin. apply in_app_or in Hin.
    destruct Hin as [Hin|[<-|[]]]; [apply (Hm m' Hin) | exact Hf].
Qed.

Lemma consistent_add_event d e :
  (exists m, In m (familyMembers d) /\
             FamilyMember.familyId m = Event.familyId e /\
             FamilyMember.userId m = Event.createdById e) ->
  consistent d -> consistent (setEvents (events d ++ [e]) d).
Proof.
  intros Hmem [Hc Hm]. split; [|exact Hm].
  intros e' He. cbn in He. apply in_app_or in He.
  destruct He as [He|[<-|[]]]; [apply (Hc e' He) | exact Hmem].
Qed.

Lemma consistent_update_families d (hit : Family.t -> bool) set :
  (forall f, Family.id (set f) = Family.id f) ->
  consistent d ->
  consistent
    (setFamilies (map (fun f => if hit f then set f else f) (families d)) d).
Proof.
  intros Hid [Hc Hm]. split; [exact Hc|].
  intros m Hin. destruct (Hm m Hin) as (f & Hf & Hfid).
  exists (if hit f then set f else f). split.
  - cbn. apply (in_map (fun x : Family.t => if hit x then set x else x)).
    exact Hf.
  - destruct (hit f); [rewrite Hid|]; exact Hfid.
Qed.

Lemma consistent_update_events d (hit : Event.t -> bool) set :
  (forall e, Event.familyId (set e) = Event.familyId e /\
             Event.createdById (set e) = Event.createdById e) ->
  consistent d ->
  consistent
    (setEvents (map (fun e => if hit e then set e else e) (events d)) d).
Proof.
  intros Hkeep [Hc Hm]. split; [|exact Hm].
  intros e He. cbn in He. apply in_map_iff in He.
  destruct He as (e0 & <- & He0).
  destruct (Hc e0 He0) as (m & Hin & Hm1 & Hm2).
  exists m. split; [exact Hin|].
  destruct (hit e0); [|auto].
  destruct (Hkeep e0) as [-> ->]. auto.
Qed.

Lemma consistent_delete_events d gone :
  consistent d -> consistent (deleteEvents gone d).
Proof.
  intros [Hc Hm]. split; [|exact Hm].
  intros e He. cbn in He. apply keep_In in He. destruct He as [He _].
  exact (Hc e He).
Qed.

Lemma consistent_delete_families d gone :
  consistent d -> consistent (deleteFamilies gone d).
Proof.
  intros [Hc Hm]. unfold deleteFamilies. cbn.
  set (ids := map Family.id (filter gone (families d))).
  split.
  - intros e He. cbn in He. apply keep_In in He. destruct He as [He Hkept].
    destruct (Hc e He) as (m & Hin & Hm1 & Hm2).
    exists m. split; [|auto]. cbn. apply keep_In. split; [exact Hin|].
    rewrite Hm1. exact Hkept.
  - intros m Hin. cbn in Hin. apply keep_In in Hin. destruct Hin as [Hin Hkept].
    destruct (Hm m Hin) as (f & Hf & Hid).
    exists f. split; [|exact Hid]. cbn. apply keep_In. split; [exact Hf|].
    destruct (gone f) eqn:Hgone; [|reflexivity].
    assert (Hmem : memId (FamilyMember.familyId m) ids = true).
    { apply memId_In. rewrite <- Hid. unfold ids. apply in_map.
      apply filter_In. auto. }
    congruence.
Qed.

Lemma consistent_families_post session request env d :
  consistent d -> consistent (snd (Families.POST session request env d)).
Proof.
  intros Hinv. unfold Families.POST, tryCatch.
  destruct (sessionUserId session) as [uid|]; runM; [|exact Hinv].
  explore; try exact Hinv.
  all: try (apply (consistent_add_member (setFamilies _ d));
            [ eexists; split;
              [cbn; rewrite in_app_iff; right; left; reflexivity | reflexivity]
            | ]).
  all: apply consistent_add_family; exact Hinv.
Qed.

Lemma consistent_family_put session id request env d :
  consistent d -> consistent (snd (FamilyById.PUT session id request env d)).
Proof.
  intros Hinv. unfold FamilyById.PUT, tryCatch.
  destruct (sessionUserId session) as [uid|]; runM; [|exact Hinv].
  explore; try exact Hinv.
  all: apply consistent_update_families; [reflexivity | exact Hinv].
Qed.

Lemma consistent_family_delete session id env d :
  consistent d -> consistent (snd (FamilyById.DELETE session id env d)).
Proof.
  intros Hinv. unfold FamilyById.DELETE, tryCatch.
  destruct (sessionUserId session) as [uid|]; runM; [|exact Hinv].
  explore; try exact Hinv.
  apply (consistent_delete_families d (fun f => Family.id f =? id) Hinv).
Qed.

Lemma consistent_members_post session id request env d :
  consistent d -> consistent (snd (FamilyMembers.POST session id request env d)).
Proof.
  intros Hinv. unfold FamilyMembers.POST, tryCatch.
  destruct (sessionUserId session) as [uid|]; runM; [|exact Hinv].
  explore; try exact Hinv.
  apply consistent_add_member; [|exact Hinv]. cbn.
  match goal with
  | H : find _ (familyMembers d) = Some ?m |- _ =>
      apply find_some in H; destruct H as [Hin Hm];
      apply andb_true_iff in Hm; destruct Hm as [Hfam _];
      apply String.eqb_eq in Hfam;
      destruct (proj2 Hinv m Hin) as (f & Hf & Hid);
      exists f; split; [exact Hf | congruence]
  end.
Qed.

Lemma consistent_events_post session request env d :
  consistent d -> consistent (snd (Events.POST session request env d)).
Proof.
  intros Hinv. unfold Events.POST, tryCatch.
  destruct (sessionUserId session) as [uid|]; runM; [|exact Hinv].
  explore; try exact Hinv.
  apply consistent_add_event; [|exact Hinv]. cbn.
  match goal with
  | H : find _ (familyMembers d) = Some ?m |- _ =>
      apply find_some in H; destruct H as [Hin Hm];
      apply andb_true_iff in Hm; destruct Hm as [Hfam Huser];
      apply String.eqb_eq in Huser;
      exists m; repeat split; [exact Hin | | exact Huser]
  end.
  match goal with
  | H : zText ?v = Some ?s |- _ => destruct v; try discriminate H;
                                   injection H as ->
  end.
  apply String.eqb_eq. exact Hfam.
Qed.

Lemma consistent_event_put session id request env d :
  consistent d -> consistent (snd (EventById.PUT session id request env d)).
Proof.
  intros Hinv. unfold EventById.PUT, tryCatch.
  destruct (sessionUserId session) as [uid|]; runM; [|exact Hinv].
  explore; try exact Hinv.
  all: apply consistent_update_events;
    [intros; split; reflexivity | exact Hinv].
Qed.

Lemma consistent_event_delete session id env d :
  consistent d -> consistent (snd (EventById.DELETE session id env d)).
Proof.
  intros Hinv. unfold EventById.DELETE, tryCatch.
  destruct (sessionUserId session) as [uid|]; runM; [|exact Hinv].
  explore; try exact Hinv.
  all: apply (consistent_delete_events d (fun x => Event.id x =? id) Hinv).
Qed.

Lemma handle_consistent session req env d :
  consistent d -> consistent (snd (handle session req env d)).
Proof.
  destruct req; cbn [handle];
    first
      [ apply consistent_families_post
      | apply consistent_family_put
      | apply consistent_family_delete
      | apply consistent_members_post
      | apply consistent_events_post
      | apply consistent_event_put
      | apply consistent_event_delete
      | exact (fun H => H)
      | match goal with
        | |- _ -> consistent (snd (?h _ _ _ _ _)) => unfold h
        | |- _ -> consistent (snd (?h _ _ _ _)) => unfold h
        | |- _ -> consistent (snd (?h _ _ _)) => unfold h
        end; framed ].
Qed.

Lemma emptyDb_consistent : consistent emptyDb.
Proof. split; intros x []. Qed.

(** Both invariants hold in every reachable state. *)
Lemma reachable_consistent d : reachable d -> consistent d.
Proof.
  induction 1 as [|d us _ IH|d session req env _ IH].
  - exact emptyDb_consistent.
  - exact (consistent_frame d (setUsers us d) eq_refl eq_refl eq_refl IH).
  - apply handle_consistent. exact IH.
Qed.

Lemma creator_membership d eventId e :
  reachable d -> findEvent eventId d = Some e ->
  exists m, findMembership (Event.familyId e) (Event.createdById e) d = Some m.
Proof.
  intros Hr Hev. apply find_some in Hev. destruct Hev as [Hin _].
  destruct (proj1 (reachable_consistent d Hr) e Hin) as (m & Hm & Hfam & Huser).
  unfold findMembership.
  destruct (find _ (familyMembers d)) as [m'|] eqn:Hfind; [eauto|].
  pose proof (find_none _ _ Hfind m Hm) as Hno. cbn in Hno.
  rewrite Hfam, Huser, !String.eqb_refl in Hno. discriminate.
Qed.

(** ** The privacy settings of an event *)

(** C9. In every reachable state, the creation, the update and the deletion
    of an EventPrivacy row of an event are permitted to a signed-in caller
    if and only if the caller created the event. The creator's request goes
    through: the row of the named user is updated (200) or inserted (201),
    or deleted (200), the deletion answering 404 only when there is no such
    row. Any other caller is answered 403 and nothing is written, whatever
    contributor row, canInvite included, the caller has. *)
Theorem privacy_mutation_creator_only env session uid eventId e d :
  reachable d -> noFault env -> signedIn session uid ->
  findEvent eventId d = Some e ->
  (forall body data,
      PrivacySettingsSchema env body = Some data ->
      (Event.createdById e = uid ->
       PrivacyRoute.POST session eventId (Some body) env d =
         match find (fun p => (EventPrivacy.eventId p =? eventId) &&
                              (EventPrivacy.userId p =? ps_userId data))
                    (eventPrivacy d) with
         | Some existing =>
             let '(rows, returned) :=
               updateRows
                 (fun p => EventPrivacy.id p =? EventPrivacy.id existing)
                 (fun p => EventPrivacy.mk (EventPrivacy.id p)
                             (EventPrivacy.eventId p) (EventPrivacy.userId p)
                             (ps_canView data) (ps_canEdit data)
                             (ps_canComment data) (ps_canUploadMedia data)
                             (EventPrivacy.createdAt p))
                 (eventPrivacy d) in
             (json (PPrivacy (hd_error returned)) 200, setEventPrivacy rows d)
         | None =>
             let row :=
               EventPrivacy.mk (uuid env 3) eventId (ps_userId data)
                 (ps_canView data) (ps_canEdit data) (ps_canComment data)
                 (ps_canUploadMedia data) (clock env 3) in
             (json (PPrivacy (Some row)) 201,
              setEventPrivacy (eventPrivacy d ++ [row]) d)
         end)
      /\ (Event.createdById e <> uid ->
          exists msg,
            PrivacyRoute.POST session eventId (Some body) env d =
              (error msg 403, d)))
  /\ (forall body userId,
      prop "userId" body = Some userId ->
      (Event.createdById e = uid ->
       PrivacyRoute.DELETE session eventId (Some body) env d =
         match find (fun p => (EventPrivacy.eventId p =? eventId) &&
                              idEq (EventPrivacy.userId p) userId)
                    (eventPrivacy d) with
         | Some existing =>
             (json PSuccess 200,
              setEventPrivacy
                (keep (fun p => EventPrivacy.id p =? EventPrivacy.id existing)
                      (eventPrivacy d)) d)
         | None => (error "Privacy settings not found" 404, d)
         end)
      /\ (Event.createdById e <> uid ->
          exists msg,
            PrivacyRoute.DELETE session eventId (Some body) env d =
              (error msg 403, d))).
Proof.
  intros Hr Hnf Hs Hev. split.
  - intros body data Hdata. split.
    + intros Hc. destruct (creator_membership d eventId e Hr Hev) as [m Hm].
      rewrite Hc in Hm. apply String.eqb_eq in Hc.
      unfold PrivacyRoute.POST. enter Hs. known.
      destruct (find _ (eventPrivacy d)); known; reflexivity.
    + intros Hc. apply String.eqb_neq in Hc.
      unfold PrivacyRoute.POST. enter Hs. known.
      destruct (findMembership (Event.familyId e) uid d); known; eauto.
  - intros body userId Hbody. split.
    + intros Hc. destruct (creator_membership d eventId e Hr Hev) as [m Hm].
      rewrite Hc in Hm. apply String.eqb_eq in Hc.
      unfold PrivacyRoute.DELETE. enter Hs. known.
      destruct (find _ (eventPrivacy d)); known; reflexivity.
    + intros Hc. apply String.eqb_neq in Hc.
      unfold PrivacyRoute.DELETE. enter Hs. known.
      destruct (findMembership (Event.familyId e) uid d); known; eauto.
Qed.

(** ** Absent resources *)

Lemma no_admin_of_absent_family id uid d :
  membersHaveFamily d ->
  find (fun f => Family.id f =? id) (families d) = None ->
  find (fun m => (FamilyMember.familyId m =? id) &&
                 (FamilyMember.userId m =? uid) &&
                 roleIs (FamilyMember.role m) admin) (familyMembers d) = None.
Proof.
  intros Hm Hnone.
  destruct (find _ (familyMembers d)) as [m|] eqn:Hfind; [|reflexivity].
  apply find_some in Hfind. destruct Hfind as [Hin Hrow].
  apply andb_true_iff in Hrow. destruct Hrow as [Hrow _].
  apply andb_true_iff in Hrow. destruct Hrow as [Hfam _].
  apply String.eqb_eq in Hfam.
  destruct (Hm m Hin) as (f & Hf & Hid).
  pose proof (find_none _ _ Hnone f Hf) as Hno. cbn in Hno.
  rewrite Hid, Hfam, String.eqb_refl in Hno. discriminate.
Qed.

(** C1, as amended. An absent event is answered 404 "Event not found"
    before the membership and the permissions of the caller are looked at,
    by every handler scoped to an event. The other resources differ.
    - Family: the update and the deletion never look the family up; they
      look for an admin membership row of the caller, and in a reachable
      state an absent family has none: the answer is 403.
    - Media: the deletion looks the media up last; for an absent media row
      it answers 404 "Media not found" to a family member who passes the
      delete-permission check (creator, or contributor with canDelete), 403
      "Permission denied" to a member who does not, and 403 "Access denied"
      to a caller outside the family.
    - Comment: the deletion looks the comment up after the membership gate
      and before the check on its author: a member is answered 404
      "Comment not found", a caller outside the family 403.
    - Notification: the update and the deletion have no check besides the
      lookup of a row of the caller with that id: the answer is 404. *)
Theorem absent_resource_answers env session uid d :
  reachable d -> noFault env -> signedIn session uid ->
  (forall req eventId sub,
      eventScope req = Some (eventId, sub) -> accepted env req = true ->
      findEvent eventId d = None ->
      handle session req env d = (error "Event not found" 404, d))
  /\ (forall id request,
      find (fun f => Family.id f =? id) (families d) = None ->
      FamilyById.PUT session id request env d =
        (error "Unauthorized to update family" 403, d) /\
      FamilyById.DELETE session id env d =
        (error "Unauthorized to delete family" 403, d))
  /\ (forall eventId e body mediaId,
      prop "mediaId" body = Some mediaId ->
      findEvent eventId d = Some e ->
      find (fun x => idEq (Media.id x) mediaId && (Media.eventId x =? eventId))
           (media d) = None ->
      MediaRoute.DELETE session eventId (Some body) env d =
        (match findMembership (Event.familyId e) uid d with
         | None => error "Access denied" 403
         | Some _ =>
             if (Event.createdById e =? uid) ||
                isSome (findContributor eventId uid EventContributor.canDelete d)
             then error "Media not found" 404
             else error "Permission denied" 403
         end, d))
  /\ (forall eventId e body commentId,
      prop "commentId" body = Some commentId ->
      findEvent eventId d = Some e ->
      find (fun c => idEq (Comment.id c) commentId &&
                     (Comment.eventId c =? eventId)) (comments d) = None ->
      CommentsRoute.DELETE session eventId (Some body) env d =
        (match findMembership (Event.familyId e) uid d with
         | None => error "Access denied" 403
         | Some _ => error "Comment not found" 404
         end, d))
  /\ (forall body notificationId isRead,
      find (fun n => (Notification.id n =? notificationId) &&
                     (Notification.userId n =? uid)) (notifications d) = None ->
      (NotificationReadSchema env
         (valueOf "notificationId" body, valueOf "isRead" body) =
         Some (notificationId, isRead) ->
       readable (Some body) = true ->
       NotificationsRoute.PUT session (Some body) env d =
         (error "Notification not found" 404, d)) /\
      (NotificationIdSchema env (valueOf "notificationId" body) =
         Some notificationId ->
       readable (Some body) = true ->
       NotificationsRoute.DELETE session (Some body) env d =
         (error "Notification not found" 404, d))).
Proof.
  intros Hr Hnf Hs. split; [|split; [|split; [|split]]].
  - intros req eventId sub Hsc Hacc Hev.
    exact (event_missing_not_found env session uid req eventId sub d
             Hnf Hs Hsc Hacc Hev).
  - intros id request Habsent.
    pose proof (no_admin_of_absent_family id uid d
                  (proj2 (reachable_consistent d Hr)) Habsent) as Hnone.
    split.
    + unfold FamilyById.PUT. enter Hs. known. reflexivity.
    + unfold FamilyById.DELETE. enter Hs. known. reflexivity.
  - intros eventId e body mediaId Hbody Hev Hnone.
    unfold MediaRoute.DELETE. enter Hs. known.
    destruct (findMembership (Event.familyId e) uid d); known; [|reflexivity].
    destruct (Event.createdById e =? uid); known; [reflexivity|].
    destruct (findContributor eventId uid EventContributor.canDelete d); known;
      reflexivity.
  - intros eventId e body commentId Hbody Hev Hnone.
    unfold CommentsRoute.DELETE. enter Hs. known.
    destruct (findMembership (Event.familyId e) uid d); known; reflexivity.
  - intros body notificationId isRead Hnone. split.
    + intros Hdata Hread. apply readable_inv in Hread.
      destruct Hread as (body' & [= <-] & Hprop).
      unfold NotificationsRoute.PUT. enter Hs. known. reflexivity.
    + intros Hdata Hread. apply readable_inv in Hread.
      destruct Hread as (body' & [= <-] & Hprop).
      unfold NotificationsRoute.DELETE. enter Hs. known. reflexivity.
Qed.

Example scenario_rows :
  map Family.id (families scenario) = ["family-0"] /\
  map (fun m => (FamilyMember.userId m, FamilyMember.role m))
      (familyMembers scenario) = [("alice", admin); ("bob", member)] /\
  map (fun e => (Event.id e, Event.createdById e)) (events scenario) =
    [("event-1", "alice")] /\
  map (fun c => (EventContributor.userId c, EventContributor.canEdit c,
                 EventContributor.canDelete c, EventContributor.canInvite c))
      (eventContributors scenario) = [("bob", true, false, false)] /\
  map (fun c => (Comment.id c, Comment.authorId c)) (comments scenario) =
    [("comment-2", "alice")] /\
  map (fun x => (Media.id x, Media.uploadedById x)) (media scenario) =
    [("media-3", "bob")].
Proof. vm_compute. repeat split. Qed.

Example scenario_lookups :
  findEvent "event-1" scenario = Some eventE /\
  findMembership "family-0" "alice" scenario = Some aliceMembership /\
  findMembership "family-0" "bob" scenario = Some bobMembership /\
  findMembership "family-0" "carol" scenario = None /\
  media scenario = [bobMedia].
Proof. vm_compute. repeat split. Qed.

Lemma scenario_reachable : reachable scenario.
Proof.
  unfold scenario, withComment, withContributor, withEvent, withBob,
    withFamily, signedUp.
  do 6 apply reach_handle. apply reach_users. apply reach_empty.
Qed.

Lemma quiet_noFault : noFault quiet.
Proof. intros n. reflexivity. Qed.

Lemma signedIn_alice : signedIn (Some "alice") "alice".
Proof. split; [reflexivity | discriminate]. Qed.

Lemma signedIn_bob : signedIn (Some "bob") "bob".
Proof. split; [reflexivity | discriminate]. Qed.

Lemma signedIn_carol : signedIn (Some "carol") "carol".
Proof. split; [reflexivity | discriminate]. Qed.

(** ** The theorems on the scenario *)

(** bob, who is in the family, updates a family that does not exist and
    deletes a media that does not exist. *)
Lemma absent_resource_answers_witness :
  FamilyById.PUT (Some "bob") "family-9" (Some familyBody) quiet scenario =
    (error "Unauthorized to update family" 403, scenario) /\
  MediaRoute.DELETE (Some "bob") "event-1"
    (Some (JObj [("mediaId", JStr "media-9")])) quiet scenario =
    (error "Permission denied" 403, scenario) /\
  handle (Some "bob") (CommentsGET "event-9") quiet scenario =
    (error "Event not found" 404, scenario).
Proof.
  destruct (absent_resource_answers quiet (Some "bob") "bob" scenario
              scenario_reachable quiet_noFault signedIn_bob)
    as (Hevent & Hfamily & Hmedia & _).
  split; [|split].
  - exact (proj1 (Hfamily "family-9" (Some familyBody) eq_refl)).
  - exact (Hmedia "event-1" eventE (JObj [("mediaId", JStr "media-9")])
             (JStr "media-9") eq_refl eq_refl eq_refl).
  - exact (Hevent (CommentsGET "event-9") "event-9" true eq_refl eq_refl eq_refl).
Defined.

(** alice comments on her event; the answer does not move when the privacy
    table is replaced by a row that forbids her everything. *)
Lemma content_action_decision_witness :
  fst (CommentsRoute.POST (Some "alice") "event-1" (Some commentBody) quiet
         (setEventPrivacy
            [EventPrivacy.mk "p" "event-1" "alice" false false false false 0%Z]
            scenario)) =
    json (PComment (Some (Comment.mk "row-2" "event-1" "alice" "What a day"
                            None false 2%Z 2%Z))) 201.
Proof.
  exact (proj1 (content_action_decision quiet (Some "alice") "alice" "event-1"
                  [EventPrivacy.mk "p" "event-1" "alice" false false false false 0%Z]
                  scenario quiet_noFault signedIn_alice)
           commentBody "What a day" None eq_refl).
Defined.

Lemma creator_is_permitted_witness :
  CommentsRoute.POST (Some "alice") "event-1" (Some commentBody) quiet scenario =
    let row := Comment.mk "row-2" "event-1" "alice" "What a day" None false
                 2%Z 2%Z in
    (json (PComment (Some row)) 201,
     setComments (comments scenario ++ [row]) scenario).
Proof.
  exact (proj1 (creator_is_permitted quiet (Some "alice") "alice" "event-1"
                  eventE aliceMembership scenario quiet_noFault signedIn_alice
                  eq_refl eq_refl eq_refl)
           commentBody "What a day" None eq_refl).
Defined.

(** carol, who is in no family, asks for the comments of event E and for the
    event itself. *)
Lemma outsider_is_refused_witness :
  handle (Some "carol") (CommentsGET "event-1") quiet scenario =
    (error "Access denied" 403, scenario) /\
  handle (Some "carol") (EventGET "event-1") quiet scenario =
    (error "Event not found" 404, scenario).
Proof.
  assert (Hnd : NoDup (map Event.id (events scenario))).
  { vm_compute. constructor; [intros [] | constructor]. }
  split.
  - exact (outsider_is_refused quiet (Some "carol") "carol"
             (CommentsGET "event-1") "event-1" true eventE scenario
             quiet_noFault signedIn_carol eq_refl eq_refl Hnd eq_refl eq_refl).
  - exact (outsider_is_refused quiet (Some "carol") "carol"
             (EventGET "event-1") "event-1" false eventE scenario
             quiet_noFault signedIn_carol eq_refl eq_refl Hnd eq_refl eq_refl).
Defined.

(** alice, the creator, deletes the media that bob uploaded. *)
Lemma media_delete_permission_witness :
  MediaRoute.DELETE (Some "alice") "event-1"
    (Some (JObj [("mediaId", JStr "media-3")])) quiet scenario =
    (json PSuccess 200, setMedia [] scenario).
Proof.
  exact (proj1 (media_delete_permission quiet (Some "alice") "alice" "event-1"
                  eventE aliceMembership (JObj [("mediaId", JStr "media-3")])
                  (JStr "media-3") bobMedia scenario quiet_noFault
                  signedIn_alice eq_refl eq_refl eq_refl eq_refl)
           (or_introl eq_refl)).
Defined.


(** alice creates family A on a store that raises nothing. *)
Lemma family_creation_two_inserts_witness :
  Families.POST (Some "alice") (Some familyBody) quiet signedUp =
    let family := Family.mk "row-0" "A" None "alice" defaultSettings 0%Z 0%Z in
    let membership := FamilyMember.mk "row-1" "row-0" "alice" admin 1%Z in
    (json (PFamily (Some family)) 201,
     setFamilyMembers [membership] (setFamilies [family] signedUp)).
Proof.
  exact (proj1 (family_creation_two_inserts quiet (Some "alice") "alice"
                  familyBody "A" None signedUp signedIn_alice
                  eq_refl eq_refl eq_refl)
           eq_refl eq_refl).
Defined.

(** bob, a contributor with canEdit, rewrites the comment of alice. *)
Lemma comment_update_by_other_witness :
  CommentsRoute.PUT (Some "bob") "event-1"
    (Some (JObj [("commentId", JStr "comment-2"); ("content", JStr "Mine")]))
    quiet scenario =
    (error "Comment not found or access denied" 404, scenario).
Proof.
  refine (proj1 (comment_update_by_other quiet (Some "bob") "bob" "event-1"
                   eventE
                   (JObj [("commentId", JStr "comment-2");
                          ("content", JStr "Mine")])
                   (JStr "comment-2") (JStr "Mine") "Mine" scenario
                   quiet_noFault signedIn_bob eq_refl eq_refl eq_refl eq_refl _)).
  assert (Hrows : comments scenario =
                    [Comment.mk "comment-2" "event-1" "alice" "What a day" None
                       false 2%Z 2%Z])
    by (vm_compute; reflexivity).
  intros c Hin _. rewrite Hrows in Hin. destruct Hin as [<-|[]]. discriminate.
Defined.

(** alice sets the privacy of bob on her event; bob tries the same. *)
Lemma privacy_mutation_creator_only_witness :
  status (fst (PrivacyRoute.POST (Some "alice") "event-1"
                 (Some (JObj [("userId", JStr "bob")])) quiet scenario)) = 201 /\
  exists msg,
    PrivacyRoute.POST (Some "bob") "event-1"
      (Some (JObj [("userId", JStr "bob")])) quiet scenario =
      (error msg 403, scenario).
Proof.
  split.
  - rewrite (proj1 (proj1 (privacy_mutation_creator_only quiet (Some "alice")
                             "alice" "event-1" eventE scenario
                             scenario_reachable quiet_noFault signedIn_alice
                             eq_refl)
                      (JObj [("userId", JStr "bob")])
                      (mkPrivacySettings "bob" true false true true) eq_refl)
               eq_refl).
    reflexivity.
  - refine (proj2 (proj1 (privacy_mutation_creator_only quiet (Some "bob")
                            "bob" "event-1" eventE scenario
                            scenario_reachable quiet_noFault signedIn_bob
                            eq_refl)
                     (JObj [("userId", JStr "bob")])
                     (mkPrivacySettings "bob" true false true true) eq_refl) _).
    discriminate.
Defined.

(** alice creates a notification. *)
Lemma notification_belongs_to_caller_witness :
  let body := JObj [("type", JStr "system"); ("title", JStr "Hello");
                    ("message", JStr "Welcome")] in
  let row := Notification.mk "row-0" "alice" system "Hello" "Welcome" None None
               false 0%Z 0%Z in
  NotificationsRoute.POST (Some "alice") (Some body) quiet scenario =
    (json (PNotification (Some row)) 201,
     setNotifications (notifications scenario ++ [row]) scenario)
  /\ Notification.userId row = "alice".
Proof.
  destruct (notification_belongs_to_caller quiet (Some "alice") "alice"
              (JObj [("type", JStr "system"); ("title", JStr "Hello");
                     ("message", JStr "Welcome")])
              (mkNotificationInput system "Hello" "Welcome" None None)
              scenario signedIn_alice eq_refl eq_refl)
    as (Hpost & Hrow & _).
  split; [exact Hpost | exact Hrow].
Defined.

(** ** Where the design document and the handlers part *)

(** No family has the id "family-9", and bob's update of it is answered
    "forbidden" (403), not "not found"; no media has the id "media-9", and
    bob, who may not delete media, is answered "Permission denied" (403),
    not "not found". *)
Lemma absent_family_and_media_answer_forbidden :
  find (fun f => Family.id f =? "family-9") (families scenario) = None /\
  FamilyById.PUT (Some "bob") "family-9" (Some familyBody) quiet scenario =
    (error "Unauthorized to update family" 403, scenario) /\
  FamilyById.DELETE (Some "bob") "family-9" quiet scenario =
    (error "Unauthorized to delete family" 403, scenario) /\
  find (fun x => idEq (Media.id x) (JStr "media-9") &&
                 (Media.eventId x =? "event-1")) (media scenario) = None /\
  MediaRoute.DELETE (Some "bob") "event-1"
    (Some (JObj [("mediaId", JStr "media-9")])) quiet scenario =
    (error "Permission denied" 403, scenario).
Proof. vm_compute. repeat split. Qed.

(** No two states that differ in their EventPrivacy rows only are answered
    differently by the posting of a comment or the upload of a media. *)
Lemma privacy_rows_decide_nothing :
  ~ exists env session eventId request d rows,
      fst (CommentsRoute.POST session eventId request env
             (setEventPrivacy rows d)) <>
      fst (CommentsRoute.POST session eventId request env d)
      \/ fst (MediaRoute.POST session eventId request env
                (setEventPrivacy rows d)) <>
         fst (MediaRoute.POST session eventId request env d).
Proof.
  intros (env & session & eventId & request & d & rows & [H|H]); apply H.
  - rewrite comment_post_ignores_privacy. reflexivity.
  - rewrite media_post_ignores_privacy. reflexivity.
Qed.

(** carol has no membership row in family A; her read of event E is answered
    404 "Event not found", not "Access denied". *)
Lemma outsider_read_is_not_found :
  findEvent "event-1" scenario = Some eventE /\
  findMembership (Event.familyId eventE) "carol" scenario = None /\
  EventById.GET (Some "carol") "event-1" quiet scenario =
    (error "Event not found" 404, scenario) /\
  EventById.DELETE (Some "carol") "event-1" quiet scenario =
    (error "Event not found" 404, scenario).
Proof. vm_compute. repeat split. Qed.

(** bob uploaded the media "media-3"; his deletion of it is refused and the
    media stays. *)
Lemma uploader_may_not_delete :
  map (fun x => (Media.id x, Media.uploadedById x)) (media scenario) =
    [("media-3", "bob")] /\
  MediaRoute.DELETE (Some "bob") "event-1"
    (Some (JObj [("mediaId", JStr "media-3")])) quiet scenario =
    (error "Permission denied" 403, scenario).
Proof. vm_compute. repeat split. Qed.


(** A reachable state with a family and no membership row at all: the
    creation of family A when the second insert raises. *)
Lemma orphaned_family_is_reachable :
  reachable orphaned /\
  map (fun f => (Family.id f, Family.createdById f)) (families orphaned) =
    [("family-0", "alice")] /\
  familyMembers orphaned = [] /\
  fst (Families.POST (Some "alice") (Some familyBody)
         (oracle "family-" (fun n => (n =? 1)%nat)) signedUp) =
    error "Internal server error" 500.
Proof.
  split.
  - unfold orphaned, signedUp. apply reach_handle, reach_users, reach_empty.
  - vm_compute. repeat split.
Qed.

(** bob is a contributor with canEdit and neither the author of the comment
    "comment-2" nor the creator of the event; his update is answered 404,
    not 403. *)
Lemma comment_update_by_editor_is_not_found :
  map (fun c => (EventContributor.userId c, EventContributor.canEdit c))
      (eventContributors scenario) = [("bob", true)] /\
  map (fun c => (Comment.id c, Comment.authorId c)) (comments scenario) =
    [("comment-2", "alice")] /\
  CommentsRoute.PUT (Some "bob") "event-1"
    (Some (JObj [("commentId", JStr "comment-2"); ("content", JStr "Mine")]))
    quiet scenario =
    (error "Comment not found or access denied" 404, scenario).
Proof. vm_compute. repeat split. Qed.

(** * Further properties of the handlers *)

(** ** Sessions *)

Ltac enterNone Hs := unfold tryCatch, tryCatchRows; rewrite Hs; reflexivity.

(** X1. Without a signed-in user (no session, or a session whose user id is
    empty) every handler answers 401 "Unauthorized" and runs no statement:
    the tables are untouched whatever the store would do. The one exception
    is the removal of a family member, a stub that answers 501 to anyone. *)
Theorem unauthenticated_is_refused session env d :
  sessionUserId session = None ->
  (forall req, (forall id, req <> MembersDELETE id) ->
     handle session req env d = (error "Unauthorized" 401, d))
  /\ (forall id,
       FamilyMembers.GET session id env d =
         (Refused (error "Unauthorized" 401), d))
  /\ (forall limit familyId,
       Events.GET session limit familyId env d =
         (Refused (error "Unauthorized" 401), d))
  /\ (forall limit unreadOnly,
       NotificationsRoute.GET session limit unreadOnly env d =
         (Refused (error "Unauthorized" 401), d))
  /\ Profile.GET session env d = (Refused (error "Unauthorized" 401), d)
  /\ (forall email request,
       Profile.PUT session email request env d =
         (Refused (error "Unauthorized" 401), d)).
Proof.
  intros Hs. split; [|repeat split; intros].
  - intros req Hreq.
    destruct req; cbn [handle];
      try (exfalso; eapply Hreq; reflexivity);
      match goal with
      | |- ?h _ _ _ _ _ = _ => unfold h
      | |- ?h _ _ _ _ = _ => unfold h
      | |- ?h _ _ _ = _ => unfold h
      end; enterNone Hs.
  - unfold FamilyMembers.GET. enterNone Hs.
  - unfold Events.GET. enterNone Hs.
  - unfold NotificationsRoute.GET. enterNone Hs.
  - unfold Profile.GET. enterNone Hs.
  - unfold Profile.PUT. enterNone Hs.
Qed.

Lemma unauthenticated_is_refused_witness :
  handle (Some "") (CommentsPOST "event-1" (Some commentBody)) quiet scenario =
    (error "Unauthorized" 401, scenario) /\
  Profile.GET None quiet scenario = (Refused (error "Unauthorized" 401), scenario).
Proof.
  destruct (unauthenticated_is_refused (Some "") quiet scenario eq_refl)
    as (Hhandle & _).
  destruct (unauthenticated_is_refused None quiet scenario eq_refl)
    as (_ & _ & _ & _ & Hprofile & _).
  split; [|exact Hprofile].
  apply Hhandle. intros id. discriminate.
Defined.

(** ** What a request writes *)

(** X2. A request that is not answered 200 or 201 has written nothing,
    whatever the store does: every handler writes in its last statement
    only. The creation of a family, which writes twice, is the one handler
    left out. *)
Theorem only_success_writes session req env d r d' :
  (forall request, req <> FamiliesPOST request) ->
  handle session req env d = (r, d') ->
  status r <> 200 -> status r <> 201 -> d' = d.
Proof.
  intros Hreq.
  destruct req; cbn [handle];
    try (exfalso; eapply Hreq; reflexivity);
    match goal with
    | |- ?h _ _ _ _ _ = _ -> _ => unfold h
    | |- ?h _ _ _ _ = _ -> _ => unfold h
    | |- ?h _ _ _ = _ -> _ => unfold h
    | |- ?h _ _ = _ -> _ => unfold h
    end;
    unfold tryCatch;
    try match goal with
        | |- context [sessionUserId ?s] => destruct (sessionUserId s)
        end;
    runM; explore;
    intros [= <- <-] H200 H201; cbn in *;
    first [ reflexivity
          | exfalso; apply H200; reflexivity
          | exfalso; apply H201; reflexivity ].
Qed.

Lemma only_success_writes_witness :
  snd (handle (Some "bob") (CommentsDELETE "event-1"
                              (Some (JObj [("commentId", JStr "comment-2")])))
         (oracle "row-" (fun n => (n =? 3)%nat)) scenario) = scenario.
Proof.
  refine (only_success_writes (Some "bob")
            (CommentsDELETE "event-1"
               (Some (JObj [("commentId", JStr "comment-2")])))
            (oracle "row-" (fun n => (n =? 3)%nat)) scenario
            (error "Permission denied" 403) _ _ _ _ _).
  - intros request. discriminate.
  - vm_compute. reflexivity.
  - discriminate.
  - discriminate.
Defined.

(** X3. A request changes no table but those of its resource: the routes of
    comments, media, contributors, privacy settings and notifications write
    to their own table, the creation of a family to families and members,
    the deletions of an event and of a family also to the tables that their
    cascade reaches, and a read or a listing to none. None of these
    requests writes to the users; the profile update and the sign-in with
    the demo credentials write to the users and to no other table. *)
Theorem request_footprint session env d t :
  (forall req, mayWrite req t = false ->
     sameTable t d (snd (handle session req env d)))
  /\ (forall id, snd (FamilyMembers.GET session id env d) = d)
  /\ (forall limit familyId, snd (Events.GET session limit familyId env d) = d)
  /\ (forall limit unreadOnly,
       snd (NotificationsRoute.GET session limit unreadOnly env d) = d)
  /\ snd (Profile.GET session env d) = d
  /\ (t <> TUsers ->
      (forall email request,
         sameTable t d (snd (Profile.PUT session email request env d)))
      /\ (forall credentials, sameTable t d (snd (authorize credentials env d)))).
Proof.
  assert (Hsame : forall d0 : Db,
            mkDb (users d0) (families d0) (familyMembers d0) (events d0)
              (media d0) (comments d0) (eventContributors d0)
              (notifications d0) (eventPrivacy d0) = d0)
    by (intros []; reflexivity).
  split; [|split; [|split; [|split; [|split]]]].
  - intros req. revert t.
    destruct req; cbn [handle];
      match goal with
      | |- forall t, _ -> sameTable t d (snd (?h _ _ _ _ _)) => unfold h
      | |- forall t, _ -> sameTable t d (snd (?h _ _ _ _)) => unfold h
      | |- forall t, _ -> sameTable t d (snd (?h _ _ _)) => unfold h
      | |- forall t, _ -> sameTable t d (snd (?h _ _)) => unfold h
      end;
      unfold tryCatch;
      try match goal with
          | |- context [sessionUserId ?s] => destruct (sessionUserId s)
          end;
      runM; explore;
      intros tbl Htbl; destruct tbl; try discriminate Htbl; reflexivity.
  - intros id. unfold FamilyMembers.GET, tryCatchRows.
    destruct (sessionUserId session); runM; explore;
      first [reflexivity | apply Hsame].
  - intros limit familyId. unfold Events.GET, tryCatchRows.
    destruct (sessionUserId session); runM; explore;
      first [reflexivity | apply Hsame].
  - intros limit unreadOnly. unfold NotificationsRoute.GET, tryCatchRows.
    destruct (sessionUserId session); runM; explore;
      first [reflexivity | apply Hsame].
  - unfold Profile.GET, tryCatchRows.
    destruct (sessionUserId session); runM; explore;
      first [reflexivity | apply Hsame].
  - intros Ht. split.
    + intros email request. unfold Profile.PUT, tryCatchRows.
      destruct (sessionUserId session); runM; explore;
        destruct t; try contradiction; reflexivity.
    + intros credentials. unfold authorize. runM. explore;
        destruct t; try contradiction; reflexivity.
Qed.

(** The deletion of family A, which reaches the tables of its events, leaves
    the users and the notifications as they were; alice's update of her
    profile leaves the families as they were. *)
Lemma request_footprint_witness :
  users (snd (handle (Some "alice") (FamilyDELETE "family-0") quiet scenario)) =
    users scenario /\
  notifications
    (snd (handle (Some "alice") (FamilyDELETE "family-0") quiet scenario)) =
    notifications scenario /\
  families (snd (Profile.PUT (Some "alice") None
                   (Some (JObj [("name", JStr "Alice A.")])) quiet scenario)) =
    families scenario.
Proof.
  split; [|split].
  - exact (proj1 (request_footprint (Some "alice") quiet scenario TUsers)
             (FamilyDELETE "family-0") eq_refl).
  - exact (proj1 (request_footprint (Some "alice") quiet scenario TNotifications)
             (FamilyDELETE "family-0") eq_refl).
  - exact (proj1 (proj2 (proj2 (proj2 (proj2 (proj2
             (request_footprint (Some "alice") quiet scenario TFamilies)))))
             ltac:(discriminate)) None
             (Some (JObj [("name", JStr "Alice A.")]))).
Defined.

(** ** Contributors *)

Lemma find_app {A} (p : A -> bool) l l' :
  find p (l ++ l') =
    match find p l with Some x => Some x | None => find p l' end.
Proof.
  induction l as [|a l IH]; cbn; [reflexivity|].
  destruct (p a); [reflexivity | exact IH].
Qed.

(** What a 201 of the contributor creation says about the request. *)
Lemma contributor_post_created env session eventId request d r d' :
  ContributorsRoute.POST session eventId request env d = (r, d') ->
  status r = 201 ->
  exists uid body data e m row,
    sessionUserId session = Some uid /\ request = Some body /\
    EventContributorSchema env body = Some data /\
    findEvent eventId d = Some e /\
    findMembership (Event.familyId e) uid d = Some m /\
    ((Event.createdById e =? uid) = true \/
     isSome (findContributor eventId uid EventContributor.canInvite d) = true) /\
    findContributor eventId (ci_userId data) anyRow d = None /\
    EventContributor.eventId row = eventId /\
    EventContributor.userId row = ci_userId data /\
    EventContributor.addedById row = uid /\
    r = json (PContributor (Some row)) 201 /\
    d' = setEventContributors (eventContributors d ++ [row]) d.
Proof.
  unfold ContributorsRoute.POST, tryCatch.
  destruct (sessionUserId session) as [uid|]; runM;
    [|intros [= <- <-]; discriminate].
  explore; intros [= <- <-] H201; try discriminate H201;
    eexists uid, _, _, _, _, _; repeat split; eauto.
  right. match goal with H : findContributor _ _ _ _ = Some _ |- _ =>
                 rewrite H end. reflexivity.
Qed.

(** X4. Adding the same user to the contributors of an event a second time
    is answered 409 "User is already a contributor" and adds nothing: after a
    request that was answered 201, the same request, whatever ids and times
    the store would draw, finds the row of the first. *)
Theorem contributor_twice_conflicts env env' session eventId request d r d' :
  ContributorsRoute.POST session eventId request env d = (r, d') ->
  status r = 201 ->
  noFault env' -> isUuid env' = isUuid env ->
  ContributorsRoute.POST session eventId request env' d' =
    (error "User is already a contributor" 409, d').
Proof.
  intros Hrun H201 Hnf Huuid.
  destruct (contributor_post_created _ _ _ _ _ _ _ Hrun H201)
    as (uid & body & data & e & m & row & Hs & -> & Hdata & Hev & Hmem &
        Hperm & Hnone & Hrow1 & Hrow2 & _ & _ & ->).
  assert (Hdata' : EventContributorSchema env' body = Some data).
  { rewrite <- Hdata. unfold EventContributorSchema. rewrite Huuid. reflexivity. }
  assert (Hev' : forall x, findEvent eventId (setEventContributors x d) = Some e)
    by (intros x; exact Hev).
  assert (Hmem' : forall x, findMembership (Event.familyId e) uid
                              (setEventContributors x d) = Some m)
    by (intros x; exact Hmem).
  assert (Hdup : findContributor eventId (ci_userId data) anyRow
                   (setEventContributors (eventContributors d ++ [row]) d) =
                 Some row).
  { unfold findContributor in *. cbn. rewrite find_app, Hnone. cbn.
    rewrite Hrow1, Hrow2, !String.eqb_refl. reflexivity. }
  unfold ContributorsRoute.POST, tryCatch. rewrite Hs. runM.
  rewrite Hdata'. cbn. rewrite (Hnf 0). cbn. rewrite Hev'. cbn.
  rewrite (Hnf 1). cbn. rewrite Hmem'. cbn.
  destruct Hperm as [Hcreator|Hinvite].
  - rewrite Hcreator. cbn. rewrite (Hnf 2). cbn. rewrite Hdup. reflexivity.
  - destruct (Event.createdById e =? uid); cbn.
    + rewrite (Hnf 2). cbn. rewrite Hdup. reflexivity.
    + rewrite (Hnf 2). cbn.
      assert (Hstill : isSome (findContributor eventId uid
                                 EventContributor.canInvite
                                 (setEventContributors
                                    (eventContributors d ++ [row]) d)) = true).
      { unfold findContributor in *. cbn. rewrite find_app.
        destruct (find _ (eventContributors d)); [reflexivity|discriminate]. }
      destruct (findContributor eventId uid EventContributor.canInvite
                  (setEventContributors (eventContributors d ++ [row]) d));
        [|discriminate]. cbn.
      rewrite (Hnf 3). cbn. rewrite Hdup. reflexivity.
Qed.

Lemma contributor_twice_conflicts_witness :
  ContributorsRoute.POST (Some "alice") "event-1"
    (Some (JObj [("userId", JStr "bob")])) quiet withContributor =
    (error "User is already a contributor" 409, withContributor).
Proof.
  refine (contributor_twice_conflicts (oracle "contributor-" never) quiet
            (Some "alice") "event-1" (Some (JObj [("userId", JStr "bob")]))
            withEvent
            (fst (handle (Some "alice")
                    (ContributorsPOST "event-1"
                       (Some (JObj [("userId", JStr "bob")])))
                    (oracle "contributor-" never) withEvent))
            withContributor _ _ quiet_noFault eq_refl).
  - vm_compute. reflexivity.
  - vm_compute. reflexivity.
Defined.

(** What a 200 of the contributor removal says about the request. *)
Lemma contributor_delete_done env session eventId request d r d' :
  ContributorsRoute.DELETE session eventId request env d = (r, d') ->
  status r = 200 ->
  exists uid body userId e,
    sessionUserId session = Some uid /\ request = Some body /\
    prop "userId" body = Some userId /\
    findEvent eventId d = Some e /\
    idEq (Event.createdById e) userId = false /\
    d' = setEventContributors
           (keep (fun c => (EventContributor.eventId c =? eventId) &&
                           sqlEq (uuidOf env) (EventContributor.userId c) userId)
                 (eventContributors d)) d.
Proof.
  unfold ContributorsRoute.DELETE, tryCatch.
  destruct (sessionUserId session) as [uid|]; runM;
    [|intros [= <- <-]; discriminate].
  explore; intros [= <- <-] H200; try discriminate H200;
    eexists uid, _, _, _; repeat split; eauto.
Qed.

Lemma find_keep_none {A} (p gone : A -> bool) l :
  (forall x, p x = true -> gone x = true) -> find p (keep gone l) = None.
Proof.
  intros Himp. induction l as [|a l IH]; cbn; [reflexivity|].
  destruct (gone a) eqn:Hg; cbn; [exact IH|].
  destruct (p a) eqn:Hp; [|exact IH].
  rewrite (Himp a Hp) in Hg. discriminate.
Qed.

(** X5. The removal of a contributor takes effect at once. After a removal
    that was answered 200, the removed user, which is the user whose id the
    store reads in the request, has no contributor row on the event; and
    when that user is not the creator of the event, the user's next comment
    or media upload on the event is answered 403. *)
Theorem removed_contributor_loses_access env env' session eventId body s u e d
  r d' :
  ContributorsRoute.DELETE session eventId (Some body) env d = (r, d') ->
  status r = 200 ->
  prop "userId" body = Some (JStr s) -> uuidOf env s = u -> u <> "" ->
  findEvent eventId d = Some e -> Event.createdById e <> u ->
  noFault env' ->
  findContributor eventId u anyRow d' = None
  /\ (forall cbody content parentId,
       CommentSchema env' cbody = Some (content, parentId) ->
       exists msg,
         CommentsRoute.POST (Some u) eventId (Some cbody) env' d' =
           (error msg 403, d'))
  /\ (forall mbody data,
       MediaUploadSchema env' mbody = Some data ->
       exists msg,
         MediaRoute.POST (Some u) eventId (Some mbody) env' d' =
           (error msg 403, d')).
Proof.
  intros Hrun H200 Hbody Hread Hu Hev Hother Hnf.
  destruct (contributor_delete_done _ _ _ _ _ _ _ Hrun H200)
    as (uid & body' & userId & e' & Hs & [= <-] & Hbody' & Hev' & _ & ->).
  rewrite Hbody in Hbody'. injection Hbody' as <-.
  set (d1 := setEventContributors _ d).
  assert (Hgone : findContributor eventId u anyRow d1 = None).
  { unfold findContributor, d1. cbn. apply find_keep_none.
    intros c Hc. apply andb_true_iff in Hc. destruct Hc as [Hc _].
    unfold sqlEq. rewrite Hread. exact Hc. }
  assert (Hu' : signedIn (Some u) u) by (split; [reflexivity | exact Hu]).
  assert (Hev1 : findEvent eventId d1 = Some e) by exact Hev.
  assert (Hcreator : (Event.createdById e =? u) = false)
    by (apply String.eqb_neq; exact Hother).
  clearbody d1.
  split; [exact Hgone|]. split.
  - intros cbody content parentId Hc.
    unfold CommentsRoute.POST. enter Hu'. known.
    match goal with
    | |- context [findMembership ?f ?x ?y] => destruct (findMembership f x y)
    end; known; eauto.
  - intros mbody data Hm.
    unfold MediaRoute.POST. enter Hu'. known.
    match goal with
    | |- context [findMembership ?f ?x ?y] => destruct (findMembership f x y)
    end; known; eauto.
Qed.

(** alice removes bob, named with a capital letter, from the contributors. *)
Lemma removed_contributor_loses_access_witness :
  let removed :=
    snd (handle (Some "alice")
           (ContributorsDELETE "event-1" (Some (JObj [("userId", JStr "Bob")])))
           quiet scenario) in
  findContributor "event-1" "bob" anyRow scenario <> None /\
  findContributor "event-1" "bob" anyRow removed = None /\
  exists msg,
    CommentsRoute.POST (Some "bob") "event-1" (Some commentBody) quiet removed =
      (error msg 403, removed).
Proof.
  assert (Hrun : ContributorsRoute.DELETE (Some "alice") "event-1"
                   (Some (JObj [("userId", JStr "Bob")])) quiet scenario =
                 (json PSuccess 200,
                  snd (handle (Some "alice")
                         (ContributorsDELETE "event-1"
                            (Some (JObj [("userId", JStr "Bob")])))
                         quiet scenario)))
    by (vm_compute; reflexivity).
  assert (Hev : findEvent "event-1" scenario = Some eventE)
    by (vm_compute; reflexivity).
  destruct (removed_contributor_loses_access quiet quiet (Some "alice")
              "event-1" (JObj [("userId", JStr "Bob")]) "Bob" "bob" eventE
              scenario _ _ Hrun eq_refl eq_refl eq_refl ltac:(discriminate) Hev
              ltac:(discriminate) quiet_noFault)
    as (Hgone & Hcomment & _).
  split; [vm_compute; discriminate|]. split; [exact Hgone|].
  exact (Hcomment commentBody "What a day" None eq_refl).
Defined.

(** ** Deleting a comment *)

(** Whatever the store does: every statement may raise. *)
Ltac anyStore :=
  repeat first
    [ progress known
    | match goal with
      | |- context [fault ?env ?n] => destruct (fault env n)
      end ].

(** X6. For a family member and a comment of the event, the deletion is
    permitted exactly to the author of the comment and to the creator of the
    event. Whatever the store does, any other member is answered 403 or,
    when the store raises, 500, and the comment stays, whatever contributor
    row the member has; the author and the creator are never answered 403:
    the answer is 200, with the comment removed, or 500 with nothing
    changed. The store refuses the deletion of a comment that has a reply;
    when no comment answers this one and the store raises nothing, the
    author and the creator are answered 200, and every reply that is left
    still has the comment that it answers. *)
Theorem comment_delete_permission env session uid eventId e m body commentId c d :
  signedIn session uid ->
  prop "commentId" body = Some commentId ->
  findEvent eventId d = Some e ->
  findMembership (Event.familyId e) uid d = Some m ->
  find (fun c => idEq (Comment.id c) commentId && (Comment.eventId c =? eventId))
       (comments d) = Some c ->
  let permitted := (Comment.authorId c =? uid) || (Event.createdById e =? uid) in
  let gone := fun c => idEq (Comment.id c) commentId in
  let run := CommentsRoute.DELETE session eventId (Some body) env d in
  let removed := (json PSuccess 200, setComments (keep gone (comments d)) d) in
  let denied := (error "Permission denied" 403, d) in
  let raised := (error "Internal server error" 500, d) in
  (if permitted then run = removed \/ run = raised
   else run = denied \/ run = raised)
  /\ (noFault env -> permitted = false -> run = denied)
  /\ (noFault env -> permitted = true -> repliesWithin gone d ->
      run = removed /\
      forall r p, In r (comments (snd removed)) -> In p (comments d) ->
                  Comment.parentId r = Some (Comment.id p) ->
                  In p (comments (snd removed))).
Proof.
  intros Hs Hbody Hev Hmem Hc permitted gone run removed denied raised.
  subst run removed denied raised.
  split; [|split].
  - unfold CommentsRoute.DELETE. enter Hs.
    destruct permitted eqn:Hp; subst permitted gone; anyStore; auto.
  - intros Hnf Hp. subst permitted gone.
    unfold CommentsRoute.DELETE. enter Hs. known. reflexivity.
  - intros Hnf Hp Hreplies. split.
    + subst permitted gone.
      unfold CommentsRoute.DELETE. enter Hs. known. reflexivity.
    + cbn [snd comments setComments]. intros r p Hr Hp' Hparent.
      apply keep_In in Hr. destruct Hr as [Hr Hkept].
      apply keep_In. split; [exact Hp'|].
      destruct (gone p) eqn:Hgone; [|reflexivity].
      rewrite (Hreplies r p Hr Hp' Hgone Hparent) in Hkept. discriminate.
Qed.

(** alice deletes her comment, which has no reply; bob, a contributor who
    did not write it, may not. *)
Lemma comment_delete_permission_witness :
  CommentsRoute.DELETE (Some "alice") "event-1"
    (Some (JObj [("commentId", JStr "comment-2")])) quiet scenario =
    (json PSuccess 200, setComments [] scenario)
  /\ CommentsRoute.DELETE (Some "bob") "event-1"
       (Some (JObj [("commentId", JStr "comment-2")])) quiet scenario =
       (error "Permission denied" 403, scenario).
Proof.
  assert (Hrows : comments scenario =
                  [Comment.mk "comment-2" "event-1" "alice" "What a day" None
                     false 2%Z 2%Z])
    by (vm_compute; reflexivity).
  split.
  - rewrite (proj1 (proj2 (proj2 (comment_delete_permission quiet
                                    (Some "alice") "alice" "event-1" eventE
                                    aliceMembership
                                    (JObj [("commentId", JStr "comment-2")])
                                    (JStr "comment-2")
                                    (Comment.mk "comment-2" "event-1" "alice"
                                       "What a day" None false 2%Z 2%Z)
                                    scenario signedIn_alice eq_refl eq_refl
                                    eq_refl eq_refl))
                      quiet_noFault eq_refl
                      ltac:(intros r p Hr _ _ _; rewrite Hrows in Hr;
                            destruct Hr as [<-|[]]; reflexivity))).
    rewrite Hrows. reflexivity.
  - exact (proj1 (proj2 (comment_delete_permission quiet (Some "bob") "bob"
                           "event-1" eventE bobMembership
                           (JObj [("commentId", JStr "comment-2")])
                           (JStr "comment-2")
                           (Comment.mk "comment-2" "event-1" "alice"
                              "What a day" None false 2%Z 2%Z)
                           scenario signedIn_bob eq_refl eq_refl eq_refl
                           eq_refl))
             quiet_noFault eq_refl).
Defined.

(** ** Updating and deleting an event *)

Lemma eventOfMember_event id uid d x rest :
  eventOfMember id uid d = x :: rest ->
  exists e, In e (events d) /\ Event.id e = id.
Proof.
  intros H.
  assert (Hin : In x (eventOfMember id uid d)) by (rewrite H; left; reflexivity).
  unfold eventOfMember in Hin. apply in_flat_map in Hin.
  destruct Hin as (e & He & _). apply filter_In in He.
  destruct He as [He Hid]. apply String.eqb_eq in Hid. eauto.
Qed.

Lemma memId_filter_key {A} (key : A -> Id) id (l : list A) x :
  (exists a, In a l /\ key a = id) ->
  memId x (map key (filter (fun a => key a =? id) l)) = (x =? id).
Proof.
  intros (a & Ha & Hid).
  destruct (String.eqb_spec x id) as [->|Hne].
  - apply memId_In. apply in_map_iff. exists a. split; [exact Hid|].
    apply filter_In. split; [exact Ha|]. rewrite Hid. apply String.eqb_refl.
  - destruct (memId x _) eqn:Hm; [|reflexivity].
    apply memId_In in Hm. apply in_map_iff in Hm.
    destruct Hm as (a' & <- & Ha'). apply filter_In in Ha'.
    destruct Ha' as [_ Ha']. apply String.eqb_eq in Ha'. contradiction.
Qed.

Lemma keep_by_id {A} (key : A -> Id) id l ids x :
  (forall y, memId y ids = (y =? id)) ->
  In x (keep (fun a => memId (key a) ids) l) <-> In x l /\ key x <> id.
Proof.
  intros Hids. rewrite keep_In, Hids. split; intros [Hin Hk]; split; auto.
  - apply String.eqb_neq. exact Hk.
  - apply String.eqb_neq. exact Hk.
Qed.

(** X7. An event is deleted for the member of its family who created it or
    who is an admin of the family. Whatever the store does, any other member
    is answered 403 or, when the store raises, 500, and nothing changes; the
    creator and the admins are never answered 403: the answer is 200, with
    the event deleted, or 500 with nothing changed. The store refuses the
    deletion when a comment of another event answers a comment of this one;
    when there is no such comment and the store raises nothing, the creator
    and the admins are answered 200, and every reply that is left still has
    the comment that it answers. A member who may not delete the event
    may not update it either. The rows [e], [f] are the event and its family
    as the handler's join selects them, [m] the membership row that its role
    lookup finds. *)
Theorem event_delete_permission env session uid id e f m0 rest m d :
  signedIn session uid ->
  eventOfMember id uid d = (e, f, m0) :: rest ->
  findMembership (Family.id f) uid d = Some m ->
  let permitted :=
    (Event.createdById e =? uid) || roleIs (FamilyMember.role m) admin in
  let run := EventById.DELETE session id env d in
  let deleted := (json (PMessage "Event deleted successfully") 200,
                  deleteEvents (fun x => Event.id x =? id) d) in
  let denied :=
    (error "You do not have permission to delete this event" 403, d) in
  let raised := (error "Internal server error" 500, d) in
  (if permitted then run = deleted \/ run = raised
   else run = denied \/ run = raised)
  /\ (noFault env -> permitted = false -> run = denied)
  /\ (noFault env -> permitted = true ->
      repliesWithin (fun c => Comment.eventId c =? id) d ->
      run = deleted /\
      forall r p, In r (comments (snd deleted)) -> In p (comments d) ->
                  Comment.parentId r = Some (Comment.id p) ->
                  In p (comments (snd deleted)))
  /\ (noFault env -> permitted = false ->
      forall request,
        accepted env (EventPUT id request) = true ->
        EventById.PUT session id request env d =
          (error "You do not have permission to update this event" 403, d)).
Proof.
  intros Hs Hjoin Hrole permitted run deleted denied raised.
  subst run deleted denied raised.
  change (find (fun m => (FamilyMember.familyId m =? Family.id f) &&
                         (FamilyMember.userId m =? uid)) (familyMembers d) =
          Some m) in Hrole.
  subst permitted. split; [|split; [|split]].
  - unfold EventById.DELETE. enter Hs.
    destruct (Event.createdById e =? uid) eqn:Hc;
      destruct (roleIs (FamilyMember.role m) admin) eqn:Hr; anyStore; auto.
  - intros Hnf Hp. apply orb_false_iff in Hp. destruct Hp as [Hno1 Hno2].
    unfold EventById.DELETE. enter Hs. known. reflexivity.
  - intros Hnf Hp Hreplies. split.
    + unfold EventById.DELETE. enter Hs.
      destruct (Event.createdById e =? uid) eqn:Hc;
        destruct (roleIs (FamilyMember.role m) admin) eqn:Hr;
        try discriminate Hp; known; reflexivity.
    + pose proof (memId_filter_key Event.id id (events d)) as Hids.
      specialize (fun x => Hids x (eventOfMember_event _ _ _ _ _ Hjoin)).
      unfold deleteEvents. cbn [snd comments]. intros r p Hr Hp' Hparent.
      apply (keep_by_id Comment.eventId id _ _ _ Hids) in Hr.
      destruct Hr as [Hr Hkept].
      apply (keep_by_id Comment.eventId id _ _ _ Hids). split; [exact Hp'|].
      intros Hgone. apply Hkept. apply String.eqb_eq.
      apply (Hreplies r p Hr Hp'); [apply String.eqb_eq; exact Hgone|].
      exact Hparent.
  - intros Hnf Hp request Hacc. accept Hacc.
    apply orb_false_iff in Hp. destruct Hp as [Hno1 Hno2].
    unfold EventById.PUT. enter Hs. known. reflexivity.
Qed.

(** bob, a member who did not create event E, may not delete it; alice, who
    created it, deletes it: no comment of another event answers one of E. *)
Lemma event_delete_permission_witness :
  EventById.DELETE (Some "bob") "event-1" quiet scenario =
    (error "You do not have permission to delete this event" 403, scenario) /\
  EventById.DELETE (Some "alice") "event-1" quiet scenario =
    (json (PMessage "Event deleted successfully") 200,
     deleteEvents (fun x => Event.id x =? "event-1") scenario).
Proof.
  assert (Hrows : comments scenario =
                  [Comment.mk "comment-2" "event-1" "alice" "What a day" None
                     false 2%Z 2%Z])
    by (vm_compute; reflexivity).
  split.
  - exact (proj1 (proj2 (event_delete_permission quiet (Some "bob") "bob"
                           "event-1" eventE
                           (Family.mk "family-0" "A" None "alice"
                              defaultSettings 0%Z 0%Z)
                           bobMembership [] bobMembership scenario
                           signedIn_bob eq_refl eq_refl))
             quiet_noFault eq_refl).
  - assert (Hreplies : repliesWithin (fun c => Comment.eventId c =? "event-1")
                         scenario).
    { intros r p Hr _ _ _. rewrite Hrows in Hr.
      destruct Hr as [<-|[]]. reflexivity. }
    exact (proj1 (proj1 (proj2 (proj2 (event_delete_permission quiet
                                         (Some "alice") "alice" "event-1" eventE
                                         (Family.mk "family-0" "A" None "alice"
                                            defaultSettings 0%Z 0%Z)
                                         aliceMembership [] aliceMembership
                                         scenario signedIn_alice eq_refl
                                         eq_refl)))
                   quiet_noFault eq_refl Hreplies)).
Defined.

(** X8. The deletion of an event takes its rows with it. After a deletion
    that was answered 200, the event is gone together with every comment,
    media, contributor row and privacy row that referred to it; the rows of
    the other events are all still there. *)
Theorem event_delete_cascade env session id d r d' :
  EventById.DELETE session id env d = (r, d') ->
  status r = 200 ->
  (forall e, In e (events d') <-> In e (events d) /\ Event.id e <> id)
  /\ (forall c, In c (comments d') <->
                In c (comments d) /\ Comment.eventId c <> id)
  /\ (forall x, In x (media d') <-> In x (media d) /\ Media.eventId x <> id)
  /\ (forall c, In c (eventContributors d') <->
                In c (eventContributors d) /\ EventContributor.eventId c <> id)
  /\ (forall p, In p (eventPrivacy d') <->
                In p (eventPrivacy d) /\ EventPrivacy.eventId p <> id).
Proof.
  unfold EventById.DELETE, tryCatch.
  destruct (sessionUserId session) as [uid|]; runM;
    [|intros [= <- <-]; discriminate].
  explore; intros [= <- <-] H200; try discriminate H200.
  all: match goal with
       | H : eventOfMember _ _ _ = _ :: _ |- _ =>
           pose proof (memId_filter_key Event.id id (events d)) as Hids;
           specialize (fun x => Hids x (eventOfMember_event _ _ _ _ _ H))
       end.
  all: unfold deleteEvents;
    cbn [events comments media eventContributors eventPrivacy];
    split; [|split; [|split; [|split]]]; intros x.
  all: first [ apply keep_by_id; exact Hids
             | rewrite keep_In, String.eqb_neq; reflexivity ].
Qed.

Lemma event_delete_cascade_witness :
  let d' := snd (EventById.DELETE (Some "alice") "event-1" quiet scenario) in
  In bobMedia (media d') <->
  In bobMedia (media scenario) /\ Media.eventId bobMedia <> "event-1".
Proof.
  exact (proj1 (proj2 (proj2 (event_delete_cascade quiet (Some "alice")
                                "event-1" scenario
                                (fst (EventById.DELETE (Some "alice") "event-1"
                                        quiet scenario))
                                (snd (EventById.DELETE (Some "alice") "event-1"
                                        quiet scenario))
                                (surjective_pairing _) eq_refl)))
           bobMedia).
Defined.

(** ** Deleting a family *)

Lemma keep_by_events {A} (key : A -> Id) (l : list A) (gone : Event.t -> bool)
  (evs : list Event.t) x :
  In x (keep (fun a => memId (key a) (map Event.id (filter gone evs))) l) <->
  In x l /\ forall e, In e evs -> gone e = true -> Event.id e <> key x.
Proof.
  rewrite keep_In. split; intros [Hin Hk]; split; auto.
  - intros e He Hg Heq.
    assert (Hm : memId (key x) (map Event.id (filter gone evs)) = true).
    { apply memId_In. rewrite <- Heq. apply in_map. apply filter_In. auto. }
    congruence.
  - destruct (memId (key x) _) eqn:Hm; [|reflexivity].
    apply memId_In in Hm. apply in_map_iff in Hm.
    destruct Hm as (e & Heq & He). apply filter_In in He.
    destruct He as [He Hg]. exfalso. exact (Hk e He Hg Heq).
Qed.

(** X9. In a reachable state, the deletion of a family that was answered 200
    leaves no row of the family: the family, its membership rows and its
    events are gone, and so are the comments, media, contributor rows and
    privacy rows of those events. Every row of another family, and every
    row of the events of other families, is still there. *)
Theorem family_delete_cascade env session id d r d' :
  reachable d ->
  FamilyById.DELETE session id env d = (r, d') ->
  status r = 200 ->
  let ofFamily (eventId : Id) : Prop :=
    exists e, In e (events d) /\ Event.familyId e = id /\ Event.id e = eventId in
  (forall f, In f (families d') <-> In f (families d) /\ Family.id f <> id)
  /\ (forall m, In m (familyMembers d') <->
                In m (familyMembers d) /\ FamilyMember.familyId m <> id)
  /\ (forall e, In e (events d') <->
                In e (events d) /\ Event.familyId e <> id)
  /\ (forall c, In c (comments d') <->
                In c (comments d) /\ ~ ofFamily (Comment.eventId c))
  /\ (forall x, In x (media d') <->
                In x (media d) /\ ~ ofFamily (Media.eventId x))
  /\ (forall c, In c (eventContributors d') <->
                In c (eventContributors d) /\
                ~ ofFamily (EventContributor.eventId c))
  /\ (forall p, In p (eventPrivacy d') <->
                In p (eventPrivacy d) /\ ~ ofFamily (EventPrivacy.eventId p)).
Proof.
  intros Hr. unfold FamilyById.DELETE, tryCatch.
  destruct (sessionUserId session) as [uid|]; runM;
    [|intros [= <- <-]; discriminate].
  explore; intros [= <- <-] H200; try discriminate H200.
  match goal with
  | H : find _ (familyMembers d) = Some ?m |- _ =>
      apply find_some in H; destruct H as [Hin Hrow];
      apply andb_true_iff in Hrow; destruct Hrow as [Hrow _];
      apply andb_true_iff in Hrow; destruct Hrow as [Hfam _];
      apply String.eqb_eq in Hfam;
      destruct (proj2 (reachable_consistent d Hr) m Hin) as (f0 & Hf0 & Hid0)
  end.
  assert (Hids : forall x,
             memId x (map Family.id
                        (filter (fun f => Family.id f =? id) (families d))) =
             (x =? id)).
  { intros x. apply memId_filter_key. exists f0. split; [exact Hf0|congruence]. }
  assert (Hgone : forall e, memId (Event.familyId e)
                              (map Family.id
                                 (filter (fun f => Family.id f =? id)
                                         (families d))) = true <->
                            Event.familyId e = id).
  { intros e. rewrite Hids. apply String.eqb_eq. }
  set (ofFamily := fun eventId : Id =>
         exists e, In e (events d) /\ Event.familyId e = id /\
                   Event.id e = eventId).
  unfold deleteFamilies, deleteEvents.
  cbn [families familyMembers events comments media eventContributors
       eventPrivacy setFamilies setFamilyMembers].
  assert (Hchild : forall eid,
             (forall e, In e (events d) ->
                memId (Event.familyId e)
                  (map Family.id (filter (fun f => Family.id f =? id)
                                         (families d))) = true ->
                Event.id e <> eid) <-> ~ ofFamily eid).
  { intros eid. unfold ofFamily. split.
    - intros H (e & He & Hf & Hid). apply (H e He); [apply Hgone; exact Hf|exact Hid].
    - intros H e He Hf Hid. apply H. exists e. split; [exact He|].
      split; [apply Hgone; exact Hf | exact Hid]. }
  split; [|split; [|split; [|split; [|split; [|split]]]]]; intros x.
  - rewrite keep_In, String.eqb_neq. reflexivity.
  - apply keep_by_id. exact Hids.
  - apply keep_by_id. exact Hids.
  - rewrite keep_by_events, Hchild. reflexivity.
  - rewrite keep_by_events, Hchild. reflexivity.
  - rewrite keep_by_events, Hchild. reflexivity.
  - rewrite keep_by_events, Hchild. reflexivity.
Qed.

Lemma family_delete_cascade_witness :
  let d' := snd (FamilyById.DELETE (Some "alice") "family-0" quiet scenario) in
  In aliceMembership (familyMembers d') <->
  In aliceMembership (familyMembers scenario) /\
  FamilyMember.familyId aliceMembership <> "family-0".
Proof.
  exact (proj1 (proj2 (family_delete_cascade quiet (Some "alice") "family-0"
                         scenario
                         (fst (FamilyById.DELETE (Some "alice") "family-0" quiet
                                 scenario))
                         (snd (FamilyById.DELETE (Some "alice") "family-0" quiet
                                 scenario))
                         scenario_reachable (surjective_pairing _) eq_refl))
           aliceMembership).
Defined.

(** ** Members of a family *)

Lemma filter_none {A} (p : A -> bool) l :
  (forall x, In x l -> p x = false) -> filter p l = [].
Proof.
  induction l as [|a l IH]; cbn; intros H; [reflexivity|].
  rewrite (H a) by (left; reflexivity). apply IH.
  intros x Hx. apply H. right. exact Hx.
Qed.

Lemma find_none_if {A} (p : A -> bool) l :
  (forall x, In x l -> p x = false) -> find p l = None.
Proof.
  induction l as [|a l IH]; cbn; intros H; [reflexivity|].
  rewrite (H a) by (left; reflexivity). apply IH.
  intros x Hx. apply H. right. exact Hx.
Qed.

(** X10. A family that has just been created has exactly one member, its
    creator, as admin: when the store raises nothing, the id drawn for the
    family is new and the creator has one user row, the listing of the
    members that follows the creation answers that single row. *)
Theorem created_family_has_one_admin env env' session uid body name
  description u d :
  signedIn session uid -> noFault env -> noFault env' ->
  prop "name" body = Some (JStr name) ->
  blankText (JStr name) = false ->
  trimOrNull (valueOf "description" body) = Some description ->
  (forall m, In m (familyMembers d) -> FamilyMember.familyId m <> uuid env 0) ->
  filter (fun u => uid =? User.id u) (users d) = [u] ->
  FamilyMembers.GET session (uuid env 0) env'
    (snd (Families.POST session (Some body) env d)) =
    (Listed [(FamilyMember.mk (uuid env 1) (uuid env 0) uid admin (clock env 1),
              u)],
     snd (Families.POST session (Some body) env d)).
Proof.
  intros Hs Hnf Hnf' Hname Hblank Hdescr Hfresh Huser.
  pose proof (prop_readable _ _ _ Hname) as Hprop.
  assert (Hv : valueOf "name" body = JStr name).
  { rewrite (Hprop "name") in Hname. injection Hname as ->. reflexivity. }
  assert (Htrim : trimOf (JStr name) = Some (trim name)) by reflexivity.
  assert (Hold' : filter (fun m => FamilyMember.familyId m =? uuid env 0)
                         (familyMembers d) = []).
  { apply filter_none. intros m Hm. apply String.eqb_neq. exact (Hfresh m Hm). }
  assert (Hnone : find (fun m => (FamilyMember.familyId m =? uuid env 0) &&
                                 (FamilyMember.userId m =? uid))
                       (familyMembers d) = None).
  { apply find_none_if. intros m Hm.
    apply andb_false_iff. left. apply String.eqb_neq. exact (Hfresh m Hm). }
  assert (Hpost : Families.POST session (Some body) env d =
                  (json (PFamily (Some (Family.mk (uuid env 0) (trim name)
                                          description uid defaultSettings
                                          (clock env 0) (clock env 0)))) 201,
                   setFamilyMembers
                     (familyMembers d ++
                      [FamilyMember.mk (uuid env 1) (uuid env 0) uid admin
                         (clock env 1)])
                     (setFamilies
                        (families d ++
                         [Family.mk (uuid env 0) (trim name) description uid
                            defaultSettings (clock env 0) (clock env 0)]) d))).
  { unfold Families.POST. enter Hs. known. reflexivity. }
  rewrite Hpost. cbn [snd].
  unfold FamilyMembers.GET, tryCatchRows.
  rewrite (sessionUserId_signedIn _ _ Hs). runM.
  rewrite (Hnf' 0). cbn. rewrite find_app, Hnone. cbn.
  rewrite !String.eqb_refl. cbn. rewrite (Hnf' 1). cbn.
  rewrite filter_app, Hold'. cbn. rewrite String.eqb_refl. cbn.
  rewrite Huser. reflexivity.
Qed.

Lemma created_family_has_one_admin_witness :
  FamilyMembers.GET (Some "alice") "family-0" quiet withFamily =
    (Listed [(aliceMembership,
              person "alice" "alice@example.org" "Alice")], withFamily).
Proof.
  exact (created_family_has_one_admin (oracle "family-" never) quiet
           (Some "alice") "alice" familyBody "A" None
           (person "alice" "alice@example.org" "Alice") signedUp
           signedIn_alice (fun n => eq_refl) quiet_noFault eq_refl eq_refl
           eq_refl (fun m (H : In m []) => match H with end) eq_refl).
Defined.

(** What a 201 of the addition of a member says about the request. *)
Lemma member_post_created env session id request d r d' :
  FamilyMembers.POST session id request env d = (r, d') ->
  status r = 201 ->
  exists uid body email u a row,
    sessionUserId session = Some uid /\ request = Some body /\
    prop "email" body = Some (JStr email) /\
    includesChar "@"%char email = true /\ truthy (JStr email) = true /\
    findMembership id uid d = Some a /\
    roleIs (FamilyMember.role a) admin = true /\
    find (fun u => User.email u =? toLowerCase email) (users d) = Some u /\
    findMembership id (User.id u) d = None /\
    FamilyMember.familyId row = id /\ FamilyMember.userId row = User.id u /\
    FamilyMember.role row = member /\
    d' = setFamilyMembers (familyMembers d ++ [row]) d.
Proof.
  unfold FamilyMembers.POST, tryCatch.
  destruct (sessionUserId session) as [uid|]; runM;
    [|intros [= <- <-]; discriminate].
  explore; intros [= <- <-] H201; try discriminate H201.
  match goal with
  | H : negb _ || negb _ = false |- _ =>
      apply orb_false_iff in H; destruct H as [Ht Hi];
      apply negb_false_iff in Ht, Hi
  end.
  match goal with
  | H : negb (roleIs _ admin) = false |- _ => apply negb_false_iff in H
  end.
  eexists uid, _, _, _, _, _. repeat split; eauto.
Qed.

(** X11. Adding the same user to a family a second time is answered 400
    "User is already a member of this family" and adds nothing, and the
    member added the first time has the role member. *)
Theorem member_twice_is_refused env env' session id request d r d' :
  FamilyMembers.POST session id request env d = (r, d') ->
  status r = 201 ->
  noFault env' ->
  FamilyMembers.POST session id request env' d' =
    (error "User is already a member of this family" 400, d')
  /\ exists row, familyMembers d' = familyMembers d ++ [row] /\
                 FamilyMember.role row = member.
Proof.
  intros Hrun H201 Hnf.
  destruct (member_post_created _ _ _ _ _ _ _ Hrun H201)
    as (uid & body & email & u & a & row & Hs & -> & Hemail & Hat & Htruthy &
        Hadmin & Hrole & Huser & Hnone & Hrow1 & Hrow2 & Hrow3 & ->).
  split; [|exists row; split; [reflexivity | exact Hrow3]].
  unfold findMembership in *.
  unfold FamilyMembers.POST, tryCatch. rewrite Hs. runM.
  rewrite (Hnf 0). cbn. rewrite find_app, Hadmin. cbn. rewrite Hrole. cbn.
  rewrite Hemail. cbn. rewrite Htruthy, Hat. cbn.
  rewrite (Hnf 1). cbn. rewrite Huser. cbn.
  rewrite (Hnf 2). cbn. rewrite find_app, Hnone. cbn.
  rewrite Hrow1, Hrow2, !String.eqb_refl. reflexivity.
Qed.

Lemma member_twice_is_refused_witness :
  FamilyMembers.POST (Some "alice") "family-0"
    (Some (JObj [("email", JStr "bob@example.org")])) quiet withBob =
    (error "User is already a member of this family" 400, withBob).
Proof.
  refine (proj1 (member_twice_is_refused (oracle "member-" never) quiet
            (Some "alice") "family-0"
            (Some (JObj [("email", JStr "bob@example.org")])) withFamily
            (fst (handle (Some "alice")
                    (MembersPOST "family-0"
                       (Some (JObj [("email", JStr "bob@example.org")])))
                    (oracle "member-" never) withFamily))
            withBob _ _ quiet_noFault)).
  - vm_compute. reflexivity.
  - vm_compute. reflexivity.
Defined.

(** ** Listings *)

Lemma insertBy_In {A} (le : A -> A -> bool) x l y :
  In y (insertBy le x l) <-> y = x \/ In y l.
Proof.
  induction l as [|a l IH]; cbn.
  - split; [intros [<-|[]]; auto | intros [->|[]]; auto].
  - destruct (le x a); cbn.
    + split; [intros [<-|H]; auto | intros [->|H]; auto].
    + rewrite IH. split; [intros [<-|[->|H]]; auto | intros [->|[<-|H]]; auto].
Qed.

Lemma orderBy_In {A} (le : A -> A -> bool) l y :
  In y (orderBy le l) <-> In y l.
Proof.
  induction l as [|a l IH]; [reflexivity|].
  change (orderBy le (a :: l)) with (insertBy le a (orderBy le l)).
  rewrite insertBy_In, IH. cbn.
  split; [intros [->|H]; auto | intros [<-|H]; auto].
Qed.

Lemma insertBy_length {A} (le : A -> A -> bool) x l :
  length (insertBy le x l) = S (length l).
Proof.
  induction l as [|a l IH]; cbn; [reflexivity|].
  destruct (le x a); cbn; [reflexivity | rewrite IH; reflexivity].
Qed.

Lemma orderBy_length {A} (le : A -> A -> bool) l :
  length (orderBy le l) = length l.
Proof.
  induction l as [|a l IH]; [reflexivity|].
  change (orderBy le (a :: l)) with (insertBy le a (orderBy le l)).
  rewrite insertBy_length, IH. reflexivity.
Qed.

Lemma insertBy_ordered {A} (le : A -> A -> bool) x l :
  (forall a b, le a b = false -> le b a = true) ->
  ordered le l -> ordered le (insertBy le x l).
Proof.
  intros Htotal. induction l as [|a l IH]; cbn; [auto|].
  intros Hl. destruct (le x a) eqn:Hxa.
  - cbn. split; [exact Hxa | exact Hl].
  - destruct l as [|b l].
    + cbn. split; [apply Htotal; exact Hxa | exact I].
    + destruct Hl as [Hab Hl]. specialize (IH Hl). cbn in IH |- *.
      destruct (le x b) eqn:Hxb.
      * split; [apply Htotal; exact Hxa | exact IH].
      * split; [exact Hab | exact IH].
Qed.

Lemma orderBy_ordered {A} (le : A -> A -> bool) l :
  (forall a b, le a b = false -> le b a = true) -> ordered le (orderBy le l).
Proof.
  intros Htotal. induction l as [|a l IH]; [exact I|].
  change (orderBy le (a :: l)) with (insertBy le a (orderBy le l)).
  apply insertBy_ordered; assumption.
Qed.

Lemma firstn_ordered {A} (le : A -> A -> bool) n l :
  ordered le l -> ordered le (firstn n l).
Proof.
  revert l. induction n as [|n IH]; intros l Hl; [exact I|].
  destruct l as [|a [|b l]]; [exact I | destruct n; exact I |].
  destruct Hl as [Hab Hl]. specialize (IH (b :: l) Hl).
  destruct n as [|n]; [exact I|]. cbn in IH |- *. split; assumption.
Qed.

Lemma firstn_incl {A} n (l : list A) x : In x (firstn n l) -> In x l.
Proof.
  revert l. induction n as [|n IH]; intros l; [intros []|].
  destruct l as [|a l]; [intros []|]. cbn. intros [->|H]; auto.
Qed.

Lemma limitOr_positive limit fallback :
  (0 < fallback)%nat -> (0 < limitOr limit fallback)%nat.
Proof.
  intros Hf. unfold limitOr. destruct limit as [n|]; [|exact Hf].
  destruct (Z.ltb_spec 0 n); [lia | exact Hf].
Qed.

Lemma insertBy_Permutation {A} (le : A -> A -> bool) x l :
  Permutation (insertBy le x l) (x :: l).
Proof.
  induction l as [|a l IH]; cbn; [reflexivity|].
  destruct (le x a); [reflexivity|].
  rewrite IH. apply perm_swap.
Qed.

Lemma orderBy_Permutation {A} (le : A -> A -> bool) l :
  Permutation (orderBy le l) l.
Proof.
  induction l as [|a l IH]; [reflexivity|].
  change (orderBy le (a :: l)) with (insertBy le a (orderBy le l)).
  rewrite insertBy_Permutation, IH. reflexivity.
Qed.

(** X12. The listing of notifications answers the newest notifications of
    the caller: the rows answered, followed by rows that are left out,
    are the notifications of the table whose userId is the caller's (the
    unread ones when [unreadOnly=true] was asked), each as many times as
    the table has it, from the newest to the oldest; the rows answered are
    the first of them, up to the limit, which is the number given in the
    query when it reads as a positive integer and 20 otherwise. The tables
    are left as they were. *)
Theorem notifications_listing env session uid limitParam unreadOnlyParam d :
  noFault env -> signedIn session uid ->
  let limit := limitOr (parseInt (paramOr limitParam "20")) 20 in
  let wanted n :=
    (Notification.userId n =? uid) &&
    (if match unreadOnlyParam with Some s => s =? "true" | None => false end
     then negb (Notification.isRead n) else true) in
  exists rows rest,
    NotificationsRoute.GET session limitParam unreadOnlyParam env d =
      (Listed rows, d)
    /\ Permutation (rows ++ rest) (filter wanted (notifications d))
    /\ (forall n, In n (rows ++ rest) <->
          In n (notifications d) /\ Notification.userId n = uid /\
          (unreadOnlyParam = Some "true" -> Notification.isRead n = false))
    /\ ordered (fun x y => (Notification.createdAt y <=?
                            Notification.createdAt x)%Z) (rows ++ rest)
    /\ length rows = Nat.min limit (length (rows ++ rest))
    /\ (0 < limit)%nat
    /\ (limitParam = None -> limit = 20%nat).
Proof.
  intros Hnf Hs limit wanted.
  set (sorted := orderBy (fun x y => (Notification.createdAt y <=?
                                      Notification.createdAt x)%Z)
                   (filter wanted (notifications d))).
  exists (firstn limit sorted), (skipn limit sorted).
  rewrite firstn_skipn.
  split; [|split; [|split; [|split; [|split; [|split]]]]].
  - unfold NotificationsRoute.GET, tryCatchRows.
    rewrite (sessionUserId_signedIn _ _ Hs). runM. rewrite (Hnf 0). cbn.
    reflexivity.
  - apply orderBy_Permutation.
  - intros n. unfold sorted. rewrite orderBy_In, filter_In. unfold wanted.
    rewrite andb_true_iff, String.eqb_eq. split.
    + intros (Hin & Hu & Hr). repeat split; auto.
      intros ->. cbn in Hr. apply negb_true_iff in Hr. exact Hr.
    + intros (Hin & Hu & Hr). repeat split; auto.
      destruct unreadOnlyParam as [s|]; [|reflexivity].
      destruct (String.eqb_spec s "true") as [->|Hne]; [|reflexivity].
      rewrite (Hr eq_refl). reflexivity.
  - apply orderBy_ordered.
    intros a b H. apply Z.leb_gt in H. apply Z.leb_le. lia.
  - apply length_firstn.
  - apply limitOr_positive. lia.
  - intros ->. reflexivity.
Qed.

(** Of alice's three notifications the two newest are answered for a limit
    of 2, the read one first; the oldest is left out. *)
Lemma notifications_listing_witness :
  NotificationsRoute.GET (Some "alice") (Some "2") None quiet notified =
    (Listed [note "note-3" "alice" true 9%Z; note "note-4" "alice" false 7%Z],
     notified)
  /\ exists rest,
       Permutation ([note "note-3" "alice" true 9%Z;
                     note "note-4" "alice" false 7%Z] ++ rest)
                   [note "note-1" "alice" false 5%Z;
                    note "note-3" "alice" true 9%Z;
                    note "note-4" "alice" false 7%Z].
Proof.
  destruct (notifications_listing quiet (Some "alice") "alice" (Some "2") None
              notified quiet_noFault signedIn_alice)
    as (rows & rest & Hget & Hperm & _).
  assert (Hrun : NotificationsRoute.GET (Some "alice") (Some "2") None quiet
                   notified =
                 (Listed [note "note-3" "alice" true 9%Z;
                          note "note-4" "alice" false 7%Z], notified))
    by (vm_compute; reflexivity).
  split; [exact Hrun|].
  apply (f_equal (fun p => match fst p with
                           | Listed r => r
                           | Refused _ => []
                           end)) in Hget.
  rewrite Hrun in Hget. cbn [fst] in Hget. subst rows.
  exists rest. exact Hperm.
Defined.



(** ** Writing to notifications and privacy settings *)

Lemma NoDup_key_inj {A} (key : A -> Id) l a b :
  NoDup (map key l) -> In a l -> In b l -> key a = key b -> a = b.
Proof.
  induction l as [|x l IH]; cbn; [intros _ []|].
  intros Hnd Ha Hb Hk. inversion Hnd as [|? ? Hnotin Hnd']; subst.
  destruct Ha as [<-|Ha], Hb as [<-|Hb]; auto.
  - exfalso. apply Hnotin. rewrite Hk. apply in_map. exact Hb.
  - exfalso. apply Hnotin. rewrite <- Hk. apply in_map. exact Ha.
Qed.

(** X14. Marking a notification as read and deleting a notification touch
    the caller's notification only: whatever the request and whatever the
    store does, every notification of another user is still in the table
    afterwards, unchanged (ids being a primary key). *)
Theorem notification_change_is_own env session uid request d n :
  sessionUserId session = Some uid ->
  NoDup (map Notification.id (notifications d)) ->
  In n (notifications d) -> Notification.userId n <> uid ->
  In n (notifications (snd (NotificationsRoute.PUT session request env d)))
  /\ In n (notifications (snd (NotificationsRoute.DELETE session request env d))).
Proof.
  intros Hs Hnd Hin Hother.
  assert (Hid : forall nid n0,
             find (fun x => (Notification.id x =? nid) &&
                            (Notification.userId x =? uid))
                  (notifications d) = Some n0 ->
             (Notification.id n =? nid) = false).
  { intros nid n0 Hfind. apply find_some in Hfind.
    destruct Hfind as [Hin0 Hrow]. apply andb_true_iff in Hrow.
    destruct Hrow as [Hid0 Hu0]. apply String.eqb_eq in Hid0, Hu0.
    apply String.eqb_neq. intros Heq. apply Hother.
    rewrite (NoDup_key_inj Notification.id _ n n0 Hnd Hin Hin0); congruence. }
  split.
  - unfold NotificationsRoute.PUT, tryCatch. rewrite Hs. runM.
    explore; try exact Hin.
    apply in_map_iff. exists n. split; [|exact Hin].
    erewrite Hid by eassumption. reflexivity.
  - unfold NotificationsRoute.DELETE, tryCatch. rewrite Hs. runM.
    explore; try exact Hin.
    apply keep_In. split; [exact Hin|]. eapply Hid. eassumption.
Qed.

Lemma notification_change_is_own_witness :
  let row := Notification.mk "row-0" "alice" system "Hello" "Welcome" None None
               false 0%Z 0%Z in
  let d := setNotifications (notifications scenario ++ [row]) scenario in
  let request := Some (JObj [("notificationId", JStr "row-0")]) in
  In row (notifications
            (snd (NotificationsRoute.DELETE (Some "bob") request quiet d))).
Proof.
  refine (proj2 (notification_change_is_own quiet (Some "bob") "bob" _ _ _
                   eq_refl _ _ _)).
  - vm_compute. constructor; [intros []|constructor].
  - vm_compute. left. reflexivity.
  - discriminate.
Defined.

(** ** Who a row is attributed to *)









(** ** What the validation lets into the tables *)

Lemma allRows_app {A} (P : A -> Prop) l x :
  allRows P l -> P x -> allRows P (l ++ [x]).
Proof.
  intros Hl Hx y Hy. apply in_app_or in Hy.
  destruct Hy as [Hy|[<-|[]]]; auto.
Qed.

Lemma allRows_keep {A} (P : A -> Prop) gone l :
  allRows P l -> allRows P (keep gone l).
Proof. intros Hl y Hy. apply keep_In in Hy. apply Hl. tauto. Qed.

Lemma allRows_map {A} (P : A -> Prop) (hit : A -> bool) set l :
  allRows P l -> (forall x, P x -> P (set x)) ->
  allRows P (map (fun x => if hit x then set x else x) l).
Proof.
  intros Hl Hset y Hy. apply in_map_iff in Hy.
  destruct Hy as (x & <- & Hx). destruct (hit x); auto.
Qed.

Lemma length_nonempty s : (1 <= String.length s)%nat -> s <> "".
Proof. destruct s; cbn; [lia | discriminate]. Qed.

Lemma trimmed_nonblank v s :
  blankText v = false -> trimOf v = Some s -> s <> "".
Proof.
  unfold blankText, trimOf. destruct v; try discriminate.
  intros Hb [= <-]. apply orb_false_iff in Hb. destruct Hb as [_ Hb].
  apply Nat.eqb_neq in Hb. intros Heq. rewrite Heq in Hb. apply Hb. reflexivity.
Qed.

Lemma trimOrNull_nonempty v o : trimOrNull v = Some o -> o <> Some "".
Proof.
  unfold trimOrNull. destruct v; try discriminate; intros [= <-];
    try discriminate.
  destruct (String.eqb_spec (trim s) ""); [discriminate|congruence].
Qed.

Lemma zString_within lo hi v s :
  zString lo (Some hi) v = Some s -> lengthWithin lo hi s.
Proof.
  unfold zString, lengthWithin. destruct v; try discriminate.
  destruct (Nat.leb_spec lo (String.length s0)); cbn; [|discriminate].
  destruct (Nat.leb_spec (String.length s0) hi); [|discriminate].
  intros [= <-]. lia.
Qed.

Lemma zString_nonempty v s : zString 1 None v = Some s -> s <> "".
Proof.
  unfold zString. destruct v; try discriminate.
  destruct (Nat.leb_spec 1 (String.length s0)); cbn; [|discriminate].
  intros [= <-]. apply length_nonempty. assumption.
Qed.

Lemma zPositive_positive v n : zPositive v = Some n -> (0 < n)%Z.
Proof.
  unfold zPositive. destruct v; try discriminate.
  destruct (Z.ltb_spec 0 n0); [|discriminate]. intros [= <-]. assumption.
Qed.

Ltac unbind H :=
  repeat match type of H with
         | optBind ?o _ = Some _ =>
             let E := fresh "E" in
             destruct o eqn:E; cbn [optBind] in H; [|discriminate H]
         end.

Lemma CommentSchema_within env v content parentId :
  CommentSchema env v = Some (content, parentId) ->
  lengthWithin 1 1000 content.
Proof.
  unfold CommentSchema. intros H. unbind H. injection H as <- <-.
  eapply zString_within. eassumption.
Qed.

Lemma MediaUploadSchema_valid env v data :
  MediaUploadSchema env v = Some data ->
  mu_filename data <> "" /\ mu_originalName data <> "" /\
  mu_mimeType data <> "" /\ (0 < mu_size data)%Z.
Proof.
  unfold MediaUploadSchema. intros H. unbind H. injection H as <-. cbn.
  repeat split; eauto using zString_nonempty, zPositive_positive.
Qed.

Lemma NotificationSchema_within env v data :
  NotificationSchema env v = Some data ->
  lengthWithin 1 100 (ni_title data) /\ lengthWithin 1 500 (ni_message data).
Proof.
  unfold NotificationSchema. intros H. unbind H. injection H as <-. cbn.
  split; eauto using zString_within.
Qed.

Lemma CommentContentSchema_within env v content :
  CommentContentSchema env v = Some content -> lengthWithin 1 1000 content.
Proof. apply zString_within. Qed.

Ltac keepsRows :=
  first
    [ assumption
    | apply allRows_keep; assumption
    | apply allRows_map;
      [ assumption
      | intros ? ?; cbn in *;
        solve [ tauto
              | eauto using CommentContentSchema_within
              | repeat split;
                eauto using trimmed_nonblank, trimOrNull_nonempty,
                  CommentContentSchema_within ] ]
    | apply allRows_app; [assumption | cbn] ].

Lemma handle_validated session req env d :
  validated d -> validated (snd (handle session req env d)).
Proof.
  intros (Hf & He & Hc & Hm & Hn).
  destruct req; cbn [handle];
    match goal with
    | |- validated (snd (?h _ _ _ _ _)) => unfold h
    | |- validated (snd (?h _ _ _ _)) => unfold h
    | |- validated (snd (?h _ _ _)) => unfold h
    | |- validated (snd (?h _ _)) => unfold h
    end;
    unfold tryCatch;
    try match goal with
        | |- context [sessionUserId ?s] => destruct (sessionUserId s)
        end;
    runM; explore;
    (split; [|split; [|split; [|split]]]);
    unfold deleteFamilies, deleteEvents;
    cbn [comments media events families notifications setFamilies
         setFamilyMembers setEvents setComments setMedia setNotifications
         setEventContributors setEventPrivacy];
    try keepsRows.
  all: try match goal with
           | H : MediaUploadSchema _ _ = Some _ |- _ =>
               exact (MediaUploadSchema_valid _ _ _ H)
           | H : NotificationSchema _ _ = Some _ |- _ =>
               exact (NotificationSchema_within _ _ _ H)
           | H : CommentSchema _ _ = Some _ |- _ =>
               exact (CommentSchema_within _ _ _ _ H)
           end.
  all: repeat split; eauto using trimmed_nonblank, trimOrNull_nonempty.
Qed.

(** X16. In every state that the requests reach from the empty tables, the
    stored texts are the ones the validation lets through: no family has an
    empty name and no event an empty title, a description or location is
    absent rather than empty, every comment has between 1 and 1000
    characters, every media has a file name, an original name, a mime type
    and a positive size, and every notification a title of 1 to 100 and a
    message of 1 to 500 characters. *)
Theorem reachable_validated d : reachable d -> validated d.
Proof.
  induction 1 as [|d us _ IH|d session req env _ IH].
  - split; [|split; [|split; [|split]]]; intros x [].
  - exact IH.
  - apply handle_validated. exact IH.
Qed.

Lemma reachable_validated_witness :
  exists c, In c (comments scenario) /\
            lengthWithin 1 1000 (Comment.content c).
Proof.
  pose proof (proj1 (proj2 (proj2 (reachable_validated scenario
                                     scenario_reachable)))) as Hrows.
  destruct (comments scenario) as [|c rest] eqn:Hc;
    [vm_compute in Hc; discriminate Hc|].
  exists c. split; [left; reflexivity|].
  apply Hrows. left. reflexivity.
Defined.

(** ** The privacy settings of a user on an event *)

Lemma find_map_same {A} (q : A -> bool) (g : A -> A) l :
  (forall x, q (g x) = q x) -> find q (map g l) = option_map g (find q l).
Proof.
  intros Hq. induction l as [|a l IH]; cbn; [reflexivity|].
  rewrite Hq. destruct (q a); [reflexivity | exact IH].
Qed.

(** What a 200 or a 201 of the privacy handler says about the request. *)
Lemma privacy_post_done env session eventId request d r d' :
  PrivacyRoute.POST session eventId request env d = (r, d') ->
  status r = 200 \/ status r = 201 ->
  exists uid body data e m,
    sessionUserId session = Some uid /\ request = Some body /\
    PrivacySettingsSchema env body = Some data /\
    findEvent eventId d = Some e /\
    findMembership (Event.familyId e) uid d = Some m /\
    (Event.createdById e =? uid) = true /\
    ((exists existing,
        find (fun p => (EventPrivacy.eventId p =? eventId) &&
                       (EventPrivacy.userId p =? ps_userId data))
             (eventPrivacy d) = Some existing /\
        status r = 200 /\
        d' = setEventPrivacy
               (map (fun p =>
                       if EventPrivacy.id p =? EventPrivacy.id existing
                       then EventPrivacy.mk (EventPrivacy.id p)
                              (EventPrivacy.eventId p) (EventPrivacy.userId p)
                              (ps_canView data) (ps_canEdit data)
                              (ps_canComment data) (ps_canUploadMedia data)
                              (EventPrivacy.createdAt p)
                       else p)
                    (eventPrivacy d)) d)
     \/ (find (fun p => (EventPrivacy.eventId p =? eventId) &&
                        (EventPrivacy.userId p =? ps_userId data))
              (eventPrivacy d) = None /\
         status r = 201 /\
         exists id t,
           d' = setEventPrivacy
                  (eventPrivacy d ++
                   [EventPrivacy.mk id eventId (ps_userId data)
                      (ps_canView data) (ps_canEdit data) (ps_canComment data)
                      (ps_canUploadMedia data) t]) d)).
Proof.
  unfold PrivacyRoute.POST, tryCatch.
  destruct (sessionUserId session) as [uid|]; runM;
    [|intros [= <- <-] [H|H]; discriminate H].
  explore; intros [= <- <-] [H|H]; try discriminate H.
  all: match goal with
       | Hc : negb (Event.createdById _ =? _) = false |- _ =>
           apply negb_false_iff in Hc
       end.
  all: eexists uid, _, _, _, _; repeat split; eauto.
  right. repeat split; eauto.
Qed.

(** X17. The privacy settings of a user on an event are set, not piled up.
    After a request of the creator that was answered 200 or 201, the row
    found for the event and the named user carries the four capabilities of
    the request; a 201 has added one row and a 200 none; and the same
    request sent again is answered 200 and adds no row. *)
Theorem privacy_settings_are_upserted env env' session eventId body data d r d' :
  PrivacyRoute.POST session eventId (Some body) env d = (r, d') ->
  status r = 200 \/ status r = 201 ->
  PrivacySettingsSchema env body = Some data ->
  noFault env' -> isUuid env' = isUuid env ->
  (exists p,
     find (fun p => (EventPrivacy.eventId p =? eventId) &&
                    (EventPrivacy.userId p =? ps_userId data))
          (eventPrivacy d') = Some p /\
     EventPrivacy.canView p = ps_canView data /\
     EventPrivacy.canEdit p = ps_canEdit data /\
     EventPrivacy.canComment p = ps_canComment data /\
     EventPrivacy.canUploadMedia p = ps_canUploadMedia data)
  /\ length (eventPrivacy d') =
       (if (status r =? 201)%nat then S (length (eventPrivacy d))
        else length (eventPrivacy d))
  /\ (exists r' d'',
        PrivacyRoute.POST session eventId (Some body) env' d' = (r', d'') /\
        status r' = 200 /\
        length (eventPrivacy d'') = length (eventPrivacy d')).
Proof.
  intros Hrun Hok Hdata Hnf Huuid.
  destruct (privacy_post_done _ _ _ _ _ _ _ Hrun Hok)
    as (uid & body' & data' & e & m & Hs & [= <-] & Hdata' & Hev & Hmem &
        Hcreator & Hcase).
  rewrite Hdata in Hdata'. injection Hdata' as <-.
  assert (Hdata' : PrivacySettingsSchema env' body = Some data).
  { rewrite <- Hdata. unfold PrivacySettingsSchema. rewrite Huuid. reflexivity. }
  assert (Hfound : exists p,
             find (fun p => (EventPrivacy.eventId p =? eventId) &&
                            (EventPrivacy.userId p =? ps_userId data))
                  (eventPrivacy d') = Some p /\
             EventPrivacy.canView p = ps_canView data /\
             EventPrivacy.canEdit p = ps_canEdit data /\
             EventPrivacy.canComment p = ps_canComment data /\
             EventPrivacy.canUploadMedia p = ps_canUploadMedia data).
  { destruct Hcase as [(existing & Hfind & _ & ->)|(Hnone & _ & id & t & ->)].
    - cbn [eventPrivacy setEventPrivacy].
      rewrite find_map_same, Hfind.
      + cbn. rewrite String.eqb_refl. eexists. repeat split.
      + intros x. destruct (EventPrivacy.id x =? EventPrivacy.id existing);
          reflexivity.
    - cbn [eventPrivacy setEventPrivacy]. rewrite find_app, Hnone. cbn.
      rewrite !String.eqb_refl. eexists. repeat split. }
  split; [exact Hfound|]. split.
  - destruct Hcase as [(existing & _ & -> & ->)|(_ & -> & id & t & ->)]; cbn.
    + apply length_map.
    + rewrite length_app. cbn. lia.
  - destruct Hfound as (p & Hp & _).
    assert (Hev' : findEvent eventId d' = Some e).
    { destruct Hcase as [(? & _ & _ & ->)|(_ & _ & ? & ? & ->)]; exact Hev. }
    assert (Hmem' : findMembership (Event.familyId e) uid d' = Some m).
    { destruct Hcase as [(? & _ & _ & ->)|(_ & _ & ? & ? & ->)]; exact Hmem. }
    eexists _, _. split; [|split].
    + unfold PrivacyRoute.POST, tryCatch. rewrite Hs. runM.
      rewrite Hdata'. cbn. rewrite (Hnf 0). cbn. rewrite Hev'. cbn.
      rewrite (Hnf 1). cbn. rewrite Hmem'. cbn. rewrite Hcreator. cbn.
      rewrite (Hnf 2). cbn. rewrite Hp. cbn. rewrite (Hnf 3). cbn.
      reflexivity.
    + reflexivity.
    + cbn. apply length_map.
Qed.

Lemma privacy_settings_are_upserted_witness :
  let body := JObj [("userId", JStr "bob"); ("canComment", JBool false)] in
  let d' := snd (PrivacyRoute.POST (Some "alice") "event-1" (Some body) quiet
                   scenario) in
  exists p,
    find (fun p => (EventPrivacy.eventId p =? "event-1") &&
                   (EventPrivacy.userId p =? "bob")) (eventPrivacy d') = Some p /\
    EventPrivacy.canComment p = false.
Proof.
  destruct (privacy_settings_are_upserted quiet quiet (Some "alice") "event-1"
              (JObj [("userId", JStr "bob"); ("canComment", JBool false)])
              (mkPrivacySettings "bob" true false false true) scenario
              (fst (PrivacyRoute.POST (Some "alice") "event-1"
                      (Some (JObj [("userId", JStr "bob");
                                   ("canComment", JBool false)]))
                      quiet scenario))
              (snd (PrivacyRoute.POST (Some "alice") "event-1"
                      (Some (JObj [("userId", JStr "bob");
                                   ("canComment", JBool false)]))
                      quiet scenario))
              (surjective_pairing _) (or_intror eq_refl) eq_refl quiet_noFault
              eq_refl)
    as ((p & Hp & _ & _ & Hc & _) & _).
  exists p. split; [exact Hp | exact Hc].
Defined.

(** ** The profile of the signed-in user *)

Lemma Forall2_refl_on {A} (R : A -> A -> Prop) (l : list A) :
  (forall x, R x x) -> Forall2 R l l.
Proof. intros HR. induction l; constructor; auto. Qed.

Lemma Forall2_map_to {A} (R : A -> A -> Prop) (g : A -> A) (l : list A) :
  (forall x, R x (g x)) -> Forall2 R l (map g l).
Proof. intros HR. induction l; cbn; constructor; auto. Qed.

Lemma toLowerCase_nonempty s : s <> "" -> toLowerCase s <> "".
Proof. destruct s; [congruence | discriminate]. Qed.

Lemma givenText_nonblank f v new :
  (forall s, s <> "" -> f s <> "") ->
  givenButBlank v = false -> givenText (fun s => f (trim s)) v = Some (Some new) ->
  new <> "".
Proof.
  intros Hf. destruct v; cbn; try discriminate.
  intros Hlen [= <-]. apply Hf. apply Nat.eqb_neq in Hlen.
  intros E. rewrite E in Hlen. apply Hlen. reflexivity.
Qed.

(** X18. A profile update, whatever the request and however it is answered,
    writes to the users' table only and keeps its rows in place: every row
    keeps its id, image, verification date and creation date; a row of
    another user is left as it was; and a name or an email that was not
    empty is not empty afterwards. *)
Theorem profile_update_is_own env session sessionEmail request d :
  let d' := snd (Profile.PUT session sessionEmail request env d) in
  d' = setUsers (users d') d
  /\ Forall2 (fun u u' =>
                User.id u' = User.id u /\ User.image u' = User.image u /\
                User.emailVerified u' = User.emailVerified u /\
                User.createdAt u' = User.createdAt u /\
                (sessionUserId session <> Some (User.id u) -> u' = u) /\
                (User.name u <> "" -> User.name u' <> "") /\
                (User.email u <> "" -> User.email u' <> ""))
             (users d) (users d').
Proof.
  assert (Hsame : forall d0 : Db, d0 = setUsers (users d0) d0)
    by (intros []; reflexivity).
  unfold Profile.PUT, tryCatchRows.
  destruct (sessionUserId session) as [uid|]; runM.
  2: { split; [apply Hsame | apply Forall2_refl_on; tauto]. }
  explore.
  all: split; [first [apply Hsame | reflexivity]|].
  all: try (apply Forall2_refl_on; tauto).
  all: apply Forall2_map_to; intros u.
  all: destruct (User.id u =? uid) eqn:Hid; [|tauto].
  all: apply String.eqb_eq in Hid; cbn.
  all: repeat split; try tauto.
  all: match goal with
       | |- _ <> Some _ -> _ => intros Hne; exfalso; apply Hne; congruence
       | _ => idtac
       end.
  all: unfold orKeep.
  all: match goal with
       | |- _ -> match ?o with _ => _ end <> _ =>
           destruct o as [new|]; [intros _|tauto];
           match goal with
           | H : givenText trim ?v = Some (Some new),
             Hb : givenButBlank ?v = false |- _ =>
               exact (givenText_nonblank (fun s => s) v new (fun s Hs => Hs) Hb H)
           end
       | |- _ -> toLowerCase (trim ?s) <> _ =>
           intros _; apply toLowerCase_nonempty;
           match goal with
           | H : givenButBlank (JStr s) = false |- _ =>
               cbn in H; apply Nat.eqb_neq in H;
               intros E; rewrite E in H; apply H; reflexivity
           end
       end.
Qed.

Lemma hd_error_filter {A} (p : A -> bool) l : hd_error (filter p l) = find p l.
Proof.
  induction l as [|a l IH]; cbn; [reflexivity|].
  destruct (p a); [reflexivity | exact IH].
Qed.

Lemma find_update {A} (hit : A -> bool) (set : A -> A) l :
  (forall x, hit (set x) = hit x) ->
  find hit (map (fun x => if hit x then set x else x) l) =
  hd_error (map set (filter hit l)).
Proof.
  intros Hhit. induction l as [|a l IH]; cbn; [reflexivity|].
  destruct (hit a) eqn:Ha; cbn.
  - rewrite Hhit, Ha. reflexivity.
  - rewrite Ha. exact IH.
Qed.

#[local] Arguments orKeep : simpl never.

(** What an update that was answered with a row has done. *)
Lemma profile_put_listed env session sessionEmail body d r d' :
  Profile.PUT session sessionEmail (Some body) env d = (Listed r, d') ->
  exists uid name' email' t,
    sessionUserId session = Some uid /\
    (forall s, prop "name" body = Some (JStr s) -> name' = Some (trim s)) /\
    (forall s, prop "email" body = Some (JStr s) ->
       email' = Some (toLowerCase (trim s))) /\
    let set := fun u =>
      User.mk (User.id u) (orKeep email' (User.email u))
        (orKeep name' (User.name u)) (User.image u) (User.emailVerified u)
        (User.createdAt u) t in
    d' = setUsers (map (fun u => if User.id u =? uid then set u else u)
                       (users d)) d /\
    r = hd_error (map set (filter (fun u => User.id u =? uid) (users d))).
Proof.
  unfold Profile.PUT, tryCatchRows.
  destruct (sessionUserId session) as [uid|]; runM; [|discriminate].
  explore; intros [= <- <-].
  all: eexists uid, _, _, _; split; [reflexivity|].
  all: split; [|split; [|split; reflexivity]].
  all: intros s' Hs'; injection Hs' as Hs'; try discriminate Hs'; subst.
  all: first [ reflexivity
             | match goal with
               | H : givenText _ (JStr _) = Some _ |- _ =>
                   unfold givenText in H; injection H as <-; reflexivity
               end ].
Qed.

(** X19. What a profile update answers is what the profile then reads. If
    the update was answered with a row (or with none, when the session's
    user has no row), a read of the profile that follows answers that same
    row (or 404), and the row carries the trimmed name and the trimmed,
    lower-cased email of the request. *)
Theorem profile_update_then_read env env' session sessionEmail body d r d' :
  Profile.PUT session sessionEmail (Some body) env d = (Listed r, d') ->
  fault env' 0 = false ->
  Profile.GET session env' d' =
    (match r with
     | Some u => Listed u
     | None => Refused (error "User not found" 404)
     end, d')
  /\ (forall u s, r = Some u -> prop "name" body = Some (JStr s) ->
        User.name u = trim s)
  /\ (forall u s, r = Some u -> prop "email" body = Some (JStr s) ->
        User.email u = toLowerCase (trim s)).
Proof.
  intros Hrun Hfault.
  destruct (profile_put_listed _ _ _ _ _ _ _ Hrun)
    as (uid & name' & email' & t & Hs & Hname & Hemail & Hd & Hr).
  cbv zeta in Hd, Hr. split; [|split].
  - assert (Hu : find (fun u => User.id u =? uid) (users d') = r).
    { rewrite Hd. cbn [users setUsers]. rewrite find_update by reflexivity.
      symmetry. exact Hr. }
    unfold Profile.GET, tryCatchRows. rewrite Hs. runM. rewrite Hfault. cbn.
    rewrite Hu. destruct r; reflexivity.
  - intros u s Hu Hp. rewrite (Hname s Hp) in Hr. rewrite Hu in Hr.
    destruct (filter _ _); cbn in Hr; [discriminate|].
    injection Hr as ->. reflexivity.
  - intros u s Hu Hp. rewrite (Hemail s Hp) in Hr. rewrite Hu in Hr.
    destruct (filter _ _); cbn in Hr; [discriminate|].
    injection Hr as ->. reflexivity.
Qed.

Lemma profile_update_then_read_witness :
  let body := JObj [("name", JStr " Alice A. ")] in
  let d' := snd (Profile.PUT (Some "alice") (Some "alice@example.com")
                   (Some body) quiet scenario) in
  exists u, Profile.GET (Some "alice") quiet d' = (Listed u, d') /\
            User.name u = "Alice A.".
Proof.
  pose (body := JObj [("name", JStr " Alice A. ")]).
  pose (run := Profile.PUT (Some "alice") (Some "alice@example.com")
                 (Some body) quiet scenario).
  assert (Hrun : run = (Listed (find (fun u => User.id u =? "alice")
                                    (users (snd run))), snd run))
    by (vm_compute; reflexivity).
  destruct (profile_update_then_read quiet quiet (Some "alice")
              (Some "alice@example.com") body scenario _ _ Hrun eq_refl)
    as (Hget & Hname & _).
  destruct (find (fun u => User.id u =? "alice") (users (snd run))) as [u|] eqn:Hu;
    [|vm_compute in Hu; discriminate Hu].
  exists u. split; [exact Hget|].
  exact (Hname u " Alice A. " eq_refl eq_refl).
Defined.

(** ** The demo credentials *)

(** Once a row has the demo email, the demo address signs in as its user. *)
Lemma demo_user_signs_in env given password (d : Db) u :
  find (fun u => User.email u =? demoEmail) (users d) = Some u ->
  toLowerCase given = demoEmail -> given <> "" -> password <> "" ->
  fault env 0 = false ->
  authorize (Some (mkCredentials (Some given) (Some password))) env d =
  (Some (User.id u, User.email u,
         if User.name u =? "" then "Demo User" else User.name u), d).
Proof.
  intros Hu Hd Hg Hp Hf. unfold authorize.
  cbn [missing cred_email cred_password].
  apply String.eqb_neq in Hg, Hp. rewrite Hg, Hp, Hd. cbn [orb].
  rewrite String.eqb_refl. runM. rewrite Hf. cbn. rewrite Hu. cbn.
  destruct d; reflexivity.
Qed.

(** What a sign-in that succeeded has found or written. *)
Lemma demo_sign_in_first credentials env d result d' :
  authorize credentials env d = (result, d') ->
  (forall id email name, result = Some (id, email, name) ->
     (exists c given password,
        credentials = Some c /\ cred_email c = Some given /\
        cred_password c = Some password /\ password <> "" /\
        toLowerCase given = demoEmail) /\
     exists u, find (fun u => User.email u =? demoEmail) (users d') = Some u /\
               User.id u = id /\ User.email u = email /\
               (if User.name u =? "" then "Demo User" else User.name u) = name)
  /\ (d' = d \/
      (find (fun u => User.email u =? demoEmail) (users d) = None /\
       exists row, d' = setUsers (users d ++ [row]) d /\
                   User.email row = demoEmail)).
Proof.
  unfold authorize.
  destruct credentials as [[[given|] [password|]]|]; cbn [missing cred_email
    cred_password orb];
    try (intros [= <- <-]; split; [discriminate | left; reflexivity]).
  2: { rewrite orb_true_r. intros [= <- <-].
       split; [discriminate | left; reflexivity]. }
  destruct (given =? "") eqn:Hgiven; cbn [orb];
    [intros [= <- <-]; split; [discriminate | left; reflexivity]|].
  destruct (password =? "") eqn:Hpassword; cbn [orb];
    [intros [= <- <-]; split; [discriminate | left; reflexivity]|].
  destruct (toLowerCase given =? demoEmail) eqn:Hdemo;
    [|intros [= <- <-]; split; [discriminate | left; reflexivity]].
  apply String.eqb_neq in Hpassword. apply String.eqb_eq in Hdemo.
  runM. destruct (fault env 0) eqn:Hf0; cbn;
    [intros [= <- <-]; split; [discriminate | left; destruct d; reflexivity]|].
  destruct (find (fun u => User.email u =? demoEmail) (users d)) as [u|] eqn:Hu;
    cbn.
  - intros [= <- <-]. split; [|left; destruct d; reflexivity].
    intros id email name [= <- <- <-].
    split; [eexists _, given, password; repeat split; eauto|].
    exists u. repeat split. exact Hu.
  - destruct (fault env 1) eqn:Hf1; cbn;
      [intros [= <- <-]; split; [discriminate | left; destruct d; reflexivity]|].
    intros [= <- <-]. split.
    + intros id email name [= <- <- <-].
      split; [eexists _, given, password; repeat split; eauto|].
      eexists. split; [cbn [users setUsers]; rewrite find_app, Hu; reflexivity|].
      repeat split.
    + right. split; [reflexivity|]. eexists. split; reflexivity.
Qed.

(** X20. A sign-in with credentials succeeds only for an email that, in
    lower case, is the demo address, given with a password that is not
    empty; it then answers the id of the first row with the demo email, a
    name that is not empty, and the demo address. It writes at most one row,
    to the users' table, and only when no row had the demo email. Any later
    sign-in with the demo address, whatever its password, answers the same
    user and writes nothing. *)
Theorem demo_sign_in credentials env d result d' :
  authorize credentials env d = (result, d') ->
  (forall id email name, result = Some (id, email, name) ->
     (exists c given password,
        credentials = Some c /\ cred_email c = Some given /\
        cred_password c = Some password /\ password <> "" /\
        toLowerCase given = demoEmail) /\
     email = demoEmail /\ name <> "" /\
     (exists u, find (fun u => User.email u =? demoEmail) (users d') = Some u /\
                User.id u = id) /\
     (forall env' given password,
        toLowerCase given = demoEmail -> given <> "" -> password <> "" ->
        fault env' 0 = false ->
        authorize (Some (mkCredentials (Some given) (Some password))) env' d' =
          (result, d')))
  /\ (d' = d \/
      (find (fun u => User.email u =? demoEmail) (users d) = None /\
       exists row, d' = setUsers (users d ++ [row]) d /\
                   User.email row = demoEmail)).
Proof.
  intros Hrun. destruct (demo_sign_in_first _ _ _ _ _ Hrun) as (Hok & Hwrite).
  split; [|exact Hwrite].
  intros id email name Hres.
  destruct (Hok id email name Hres) as (Hcred & u & Hu & Hid & Hemail & Hname).
  assert (Hdemo : User.email u = demoEmail)
    by (apply find_some in Hu; apply String.eqb_eq; apply Hu).
  split; [exact Hcred|]. split; [congruence|]. split.
  { rewrite <- Hname. destruct (User.name u =? "") eqn:Hn;
      [discriminate | apply String.eqb_neq; exact Hn]. }
  split; [exists u; split; assumption|].
  intros env' given password Hd' Hg Hp Hf.
  rewrite (demo_user_signs_in env' given password d' u Hu Hd' Hg Hp Hf).
  rewrite Hres, Hid, Hemail, Hname. reflexivity.
Qed.

Lemma demo_sign_in_witness :
  exists id d',
    authorize (Some (mkCredentials (Some "Demo@Example.com") (Some "x"))) quiet
      scenario = (Some (id, demoEmail, "Demo User"), d') /\
    authorize (Some (mkCredentials (Some "demo@example.com") (Some "y"))) quiet
      d' = (Some (id, demoEmail, "Demo User"), d').
Proof.
  pose (run := authorize
                 (Some (mkCredentials (Some "Demo@Example.com") (Some "x")))
                 quiet scenario).
  assert (Hrun : run = (Some (uuid quiet 1, demoEmail, "Demo User"), snd run))
    by (vm_compute; reflexivity).
  exists (uuid quiet 1), (snd run). split; [exact Hrun|].
  destruct (demo_sign_in _ _ _ _ _ Hrun) as (Hok & _).
  destruct (Hok _ _ _ eq_refl) as (_ & _ & _ & _ & Hagain).
  apply Hagain; [reflexivity | discriminate | discriminate | reflexivity].
Defined.

(** ** The members of a family *)


